(** * GitGuard: pattern matching, rule resolution, ignore-file edits,
      detector deduplication and debounced batching

    A shallow embedding of the TypeScript sources of the GitGuard
    extension (commit scanner, file watcher, rule engine, .gitignore
    handler, Node and Java detectors), followed by the properties the
    specification states about them.

    Conventions.
    - A JavaScript string is a [string]; a character stands for one
      UTF-16 code unit below 256.
    - A [Set<string>] is a [gset string]; a [Map] whose iteration order
      the code relies on is an association list in insertion order.
    - A confidence is an IEEE 754 binary64 number, Rocq's primitive
      [float].
    - [new RegExp(src)] is modelled on the fragment of the regular
      expression syntax the glob translations can produce from patterns
      without further regex syntax characters; [None] stands for a source
      outside that fragment (it includes the sources [RegExp] rejects
      with a [SyntaxError]).
    - The host calls on the ignore file ([stat], [readFile],
      [writeFile]) may throw; whether they do, and what, belongs to the
      state of the host. *)

From Stdlib Require Import Ascii Floats.
From stdpp Require Import base strings list gmap sets.

Set Warnings "-inexact-float,-clear-no-such-hyp".

(** ** JavaScript string primitives *)

Module JS.

(** [s.startsWith(p)] *)
Definition startsWith (s p : string) : bool := String.prefix p s.

(** [s.includes(sub)] *)
Fixpoint includes (s sub : string) : bool :=
  String.prefix sub s ||
  match s with
  | EmptyString => false
  | String _ r => includes r sub
  end.

(** [s.endsWith(c)] for a one-character argument *)
Fixpoint endsWithChar (s : string) (c : ascii) : bool :=
  match s with
  | EmptyString => false
  | String a EmptyString => Ascii.eqb a c
  | String _ r => endsWithChar r c
  end.

(** [s.endsWith(suffix)] *)
Fixpoint endsWith (s suffix : string) : bool :=
  String.eqb s suffix ||
  match s with
  | EmptyString => false
  | String _ r => endsWith r suffix
  end.

(** [s.slice(0, -1)] *)
Fixpoint dropLast (s : string) : string :=
  match s with
  | EmptyString => EmptyString
  | String _ EmptyString => EmptyString
  | String a r => String a (dropLast r)
  end.

(** [s.replace(/\/$/, '')]: at most one trailing slash goes. *)
Definition stripSlash (s : string) : string :=
  if endsWithChar s "/"%char then dropLast s else s.

(** [s.replace(/\/+$/, '')]: every trailing slash goes. *)
Fixpoint stripSlashes (s : string) : string :=
  match s with
  | EmptyString => EmptyString
  | String a r =>
      let r' := stripSlashes r in
      if Ascii.eqb a "/"%char && String.eqb r' "" then "" else String a r'
  end.

(** [s.replace(/c/g, by)] for a one-character pattern *)
Fixpoint replaceChar (c : ascii) (by_ : string) (s : string) : string :=
  match s with
  | EmptyString => EmptyString
  | String a r =>
      (if Ascii.eqb a c then by_ else String a "") +:+ replaceChar c by_ r
  end.

(** [s.replace(/\*\*/g, by)]: leftmost, non-overlapping pairs of stars. *)
Fixpoint replaceStarStar (by_ : string) (s : string) : string :=
  match s with
  | EmptyString => EmptyString
  | String a r =>
      match r with
      | String b r' =>
          if Ascii.eqb a "*"%char && Ascii.eqb b "*"%char
          then by_ +:+ replaceStarStar by_ r'
          else String a (replaceStarStar by_ r)
      | EmptyString => String a ""
      end
  end.

(** White space of [String.prototype.trim] among the code units below
    256: TAB, LF, VT, FF, CR, SPACE and NBSP. *)
Definition isWhite (c : ascii) : bool :=
  match nat_of_ascii c with
  | 9 | 10 | 11 | 12 | 13 | 32 | 160 => true
  | _ => false
  end.

Fixpoint trimStart (s : string) : string :=
  match s with
  | EmptyString => EmptyString
  | String a r => if isWhite a then trimStart r else s
  end.

Fixpoint trimEnd (s : string) : string :=
  match s with
  | EmptyString => EmptyString
  | String a r =>
      let r' := trimEnd r in
      if isWhite a && String.eqb r' "" then "" else String a r'
  end.

(** [s.trim()] *)
Definition trim (s : string) : string := trimEnd (trimStart s).

Definition LF : ascii := "010"%char.

(** [s.split('\n')]: never empty; the last piece is what follows the
    last line feed. *)
Fixpoint split (s : string) : list string :=
  match s with
  | EmptyString => [EmptyString]
  | String a r =>
      if Ascii.eqb a LF then EmptyString :: split r
      else match split r with
           | l :: ls => String a l :: ls
           | [] => [String a EmptyString]
           end
  end.

(** [ls.join('\n')] *)
Fixpoint join (ls : list string) : string :=
  match ls with
  | [] => EmptyString
  | [l] => l
  | l :: ls' => l +:+ String LF (join ls')
  end.

(** [path.posix.basename(p)] of Node.js: the last segment, trailing
    separators dropped. *)
Fixpoint lastSegment (s : string) : string :=
  match s with
  | EmptyString => EmptyString
  | String a r =>
      if includes r "/" then lastSegment r
      else if Ascii.eqb a "/"%char then r else s
  end.

Definition basename (p : string) : string := lastSegment (stripSlashes p).


(** [ls.join(sep)] *)
Fixpoint joinWith (sep : string) (ls : list string) : string :=
  match ls with
  | [] => EmptyString
  | [l] => l
  | l :: ls' => l +:+ sep +:+ joinWith sep ls'
  end.

(** [s.toLowerCase()] on the code units below 256: the letters A to Z
    and the capital letters of Latin-1 (U+00C0 to U+00DE, the
    multiplication sign U+00D7 apart) move up by 32. *)
Definition lowerChar (c : ascii) : ascii :=
  let n := nat_of_ascii c in
  if (65 <=? n) && (n <=? 90)
     || (192 <=? n) && (n <=? 222) && negb (n =? 215)
  then ascii_of_nat (n + 32)
  else c.

Fixpoint toLowerCase (s : string) : string :=
  match s with
  | EmptyString => EmptyString
  | String a r => String (lowerChar a) (toLowerCase r)
  end.

Definition backslash : ascii := "092"%char.

End JS.

(** ** Insertion-ordered maps

    A JavaScript [Map] iterates in the order in which its keys were
    first set; setting a key again keeps its place. *)

Section OrderedMap.
Context {K V : Type} `{EqDecision K}.

Fixpoint mapGet (k : K) (m : list (K * V)) : option V :=
  match m with
  | [] => None
  | (k', v) :: m' => if decide (k' = k) then Some v else mapGet k m'
  end.

Fixpoint mapSet (k : K) (v : V) (m : list (K * V)) : list (K * V) :=
  match m with
  | [] => [(k, v)]
  | (k', v') :: m' =>
      if decide (k' = k) then (k, v) :: m' else (k', v') :: mapSet k v m'
  end.

Definition mapValues (m : list (K * V)) : list V := snd <$> m.
Definition mapKeys (m : list (K * V)) : list K := fst <$> m.
End OrderedMap.

(** ** The data model (types.ts) *)

Inductive RuleSeverity := critical | recommended | optional.

Record GitIgnoreRule := {
  pattern : string;
  severity : RuleSeverity;
  reason : string;
}.

Inductive FrameworkId :=
  | node | react | nextjs | vue | angular | vite | svelte
  | python | django | flask | fastapi
  | maven | gradle.

Inductive RuleCategory := cat_node | cat_python | cat_java.

Record DetectedFramework := {
  id : FrameworkId;
  name : string;
  detectedAt : string;
  confidence : float;
  ruleCategory : RuleCategory;
}.

Global Instance RuleSeverity_eq_dec : EqDecision RuleSeverity.
Proof. solve_decision. Defined.
Global Instance FrameworkId_eq_dec : EqDecision FrameworkId.
Proof. solve_decision. Defined.
Global Instance RuleCategory_eq_dec : EqDecision RuleCategory.
Proof. solve_decision. Defined.
Global Instance GitIgnoreRule_eq_dec : EqDecision GitIgnoreRule.
Proof. solve_decision. Defined.

(** ** The regular expressions the glob translations produce *)

Module RegExp.

(** One character position: a literal, [.] (anything but a line
    terminator) or the class [[^/]]. *)
Inductive cls := Lit (c : ascii) | AnyChar | NotSlash.

Inductive quant := Once | Star | Opt.

(** How a match may start: anywhere (no anchor), at the start of the
    input ([^]), or at the start or right after a slash ([(^|/)]). *)
Inductive left_anchor := Unanchored | Caret | CaretOrSlash.

Record t := {
  start : left_anchor;
  body : list (cls * quant);
  dollar : bool;
}.

Inductive token :=
  | TCls (a : cls) | TStar | TQuest | TCaret | TDollar | TCaretOrSlash.

(** The characters with a meaning of their own in a pattern source. *)
Definition syntaxChar (c : ascii) : bool :=
  match nat_of_ascii c with
  | 36 (* $ *) | 40 | 41 (* ( ) *) | 42 (* * *) | 43 (* + *) | 46 (* . *)
  | 63 (* ? *) | 91 | 92 | 93 (* [ \ ] *) | 94 (* ^ *)
  | 123 | 124 | 125 (* { | } *) => true
  | _ => false
  end.

Fixpoint lex (s : string) : option (list token) :=
  match s with
  | EmptyString => Some []
  | String c r =>
      if Ascii.eqb c "\"%char then
        match r with
        | String d r' =>
            if Ascii.eqb d "."%char then cons (TCls (Lit "."%char)) <$> lex r'
            else None
        | EmptyString => None
        end
      else if Ascii.eqb c "["%char then
        match r with
        | String c1 (String c2 (String c3 r')) =>
            if Ascii.eqb c1 "^"%char && Ascii.eqb c2 "/"%char
               && Ascii.eqb c3 "]"%char
            then cons (TCls NotSlash) <$> lex r'
            else None
        | _ => None
        end
      else if Ascii.eqb c "("%char then
        match r with
        | String c1 (String c2 (String c3 (String c4 r'))) =>
            if Ascii.eqb c1 "^"%char && Ascii.eqb c2 "|"%char
               && Ascii.eqb c3 "/"%char && Ascii.eqb c4 ")"%char
            then cons TCaretOrSlash <$> lex r'
            else None
        | _ => None
        end
      else if Ascii.eqb c "."%char then cons (TCls AnyChar) <$> lex r
      else if Ascii.eqb c "*"%char then cons TStar <$> lex r
      else if Ascii.eqb c "?"%char then cons TQuest <$> lex r
      else if Ascii.eqb c "^"%char then cons TCaret <$> lex r
      else if Ascii.eqb c "$"%char then cons TDollar <$> lex r
      else if syntaxChar c then None
      else cons (TCls (Lit c)) <$> lex r
  end.

Definition withAtom (a : cls * quant)
    (r : option (list (cls * quant) * bool)) :
    option (list (cls * quant) * bool) :=
  match r with
  | Some (b, d) => Some (a :: b, d)
  | None => None
  end.

(** Atoms, each with at most one quantifier, and a final [$]. *)
Fixpoint atoms (ts : list token) : option (list (cls * quant) * bool) :=
  match ts with
  | [] => Some ([], false)
  | TCls a :: r =>
      match r with
      | TStar :: r' => withAtom (a, Star) (atoms r')
      | TQuest :: r' => withAtom (a, Opt) (atoms r')
      | _ => withAtom (a, Once) (atoms r)
      end
  | TDollar :: r => match r with [] => Some ([], true) | _ => None end
  | _ => None
  end.

Definition build (l : left_anchor)
    (r : option (list (cls * quant) * bool)) : option t :=
  match r with
  | Some (b, d) => Some {| start := l; body := b; dollar := d |}
  | None => None
  end.

(** [new RegExp(src)] *)
Definition parse (src : string) : option t :=
  match lex src with
  | Some (TCaretOrSlash :: ts) => build CaretOrSlash (atoms ts)
  | Some (TCaret :: ts) => build Caret (atoms ts)
  | Some ts => build Unanchored (atoms ts)
  | None => None
  end.

Definition lineTerminator (c : ascii) : bool :=
  Ascii.eqb c "010"%char || Ascii.eqb c "013"%char.

Definition clsOk (a : cls) (c : ascii) : bool :=
  match a with
  | Lit x => Ascii.eqb c x
  | AnyChar => negb (lineTerminator c)
  | NotSlash => negb (Ascii.eqb c "/"%char)
  end.

(** Does the body match a prefix of [s] (all of [s] under [$])? *)
Fixpoint matchHere (b : list (cls * quant)) (d : bool) (s : string) : bool :=
  match b with
  | [] => if d then String.eqb s "" else true
  | (a, Once) :: r =>
      match s with
      | String c s' => clsOk a c && matchHere r d s'
      | EmptyString => false
      end
  | (a, Opt) :: r =>
      match s with
      | String c s' => clsOk a c && matchHere r d s'
      | EmptyString => false
      end || matchHere r d s
  | (a, Star) :: r =>
      (fix star (s : string) : bool :=
         matchHere r d s ||
         match s with
         | String c s' => clsOk a c && star s'
         | EmptyString => false
         end) s
  end.

Fixpoint searchFrom (b : list (cls * quant)) (d : bool) (s : string) : bool :=
  matchHere b d s ||
  match s with
  | String _ s' => searchFrom b d s'
  | EmptyString => false
  end.

Fixpoint afterSlash (b : list (cls * quant)) (d : bool) (s : string) : bool :=
  match s with
  | String c s' =>
      (Ascii.eqb c "/"%char && matchHere b d s') || afterSlash b d s'
  | EmptyString => false
  end.

(** [re.test(s)] for a regular expression without flags *)
Definition test (re : t) (s : string) : bool :=
  match start re with
  | Caret => matchHere (body re) (dollar re) s
  | Unanchored => searchFrom (body re) (dollar re) s
  | CaretOrSlash =>
      matchHere (body re) (dollar re) s || afterSlash (body re) (dollar re) s
  end.

End RegExp.

(** ** The three path matchers *)

(** [regex.test(a) || regex.test(b)] on the expression compiled from
    [src]. *)
Definition testEither (src a b : string) : option bool :=
  re ← RegExp.parse src; Some (RegExp.test re a || RegExp.test re b).

(** The loop the callers of the matchers share,
    [for (const x of xs) { if (matches(x)) return x; } return null]:
    the first element that matches. The result is [None] when a test on
    the way has no result. *)
Fixpoint firstMatch {A} (matches : A -> option bool) (xs : list A)
    : option (option A) :=
  match xs with
  | [] => Some None
  | x :: rest =>
      match matches x with
      | None => None
      | Some true => Some (Some x)
      | Some false => firstMatch matches rest
      end
  end.

(** types: a staged file that matches a rule. *)
Module StagedFileWarning.
Record t := {
  filePath : string;
  matchedPattern : string;
  severity : RuleSeverity;
  reason : string;
}.
End StagedFileWarning.

(** git/commitScanner: the matcher of the staged-file scan. *)
Module CommitScanner.

Definition globToRegex (glob : string) : string :=
  "^" +:+
  JS.replaceChar "?"%char "."
    (JS.replaceChar "*"%char "[^/]*"
       (JS.replaceStarStar ".*"
          (JS.replaceChar "."%char "\." glob)))
  +:+ "$".

Definition matchesPattern (fullPath fileName pattern : string) : option bool :=
  let normalizedPattern := JS.stripSlash pattern in
  if String.eqb fileName normalizedPattern then Some true
  else if String.eqb fullPath normalizedPattern then Some true
  else if JS.startsWith fullPath (normalizedPattern +:+ "/") then Some true
  else if JS.includes fullPath ("/" +:+ normalizedPattern +:+ "/") then Some true
  else if JS.includes pattern "*" then
    testEither (globToRegex pattern) fileName fullPath
  else if String.eqb pattern ".env"
          && (String.eqb fileName ".env" || JS.startsWith fileName ".env.")
  then Some true
  else Some false.


(** *** The scan of the staged files *)

(** A staged change: [change.uri.fsPath], and what
    [path.relative(rootPath, filePath)] makes of it. *)
Record Change := {
  fsPath : string;
  relativeToRoot : string;
}.

(** A repository: [rootUri.fsPath] and [state.indexChanges]. *)
Record Repository := {
  rootPath : string;
  indexChanges : list Change;
}.

Definition matchFile (relativePath fileName : string) (rules : list GitIgnoreRule)
    : option (option GitIgnoreRule) :=
  firstMatch (fun rule => matchesPattern relativePath fileName (pattern rule)) rules.

(** The body of the loop over the staged changes. *)
Definition scanChange (rules : list GitIgnoreRule)
    (warnings : list StagedFileWarning.t) (change : Change)
    : option (list StagedFileWarning.t) :=
  let relativePath := JS.replaceChar JS.backslash "/" (relativeToRoot change) in
  let fileName := JS.basename (fsPath change) in
  matchedRule ← matchFile relativePath fileName rules;
  Some match matchedRule with
       | Some matchedRule =>
           warnings ++ [{| StagedFileWarning.filePath := relativePath;
                           StagedFileWarning.matchedPattern := pattern matchedRule;
                           StagedFileWarning.severity := severity matchedRule;
                           StagedFileWarning.reason := reason matchedRule |}]
       | None => warnings
       end.

Definition scanStagedFiles (repository : Repository) (rules : list GitIgnoreRule)
    : option (list StagedFileWarning.t) :=
  foldl (fun acc change => warnings ← acc; scanChange rules warnings change)
        (Some []) (indexChanges repository).

(** [scanAllRepositories] on the repositories [getRepositories]
    returns; the result is the [Map] from root path to warnings. *)
Definition scanAllRepositories (repositories : list Repository)
    (rules : list GitIgnoreRule)
    : option (list (string * list StagedFileWarning.t)) :=
  foldl (fun acc repo =>
           results ← acc;
           warnings ← scanStagedFiles repo rules;
           Some match warnings with
                | [] => results
                | _ :: _ => mapSet (rootPath repo) warnings results
                end)
        (Some []) repositories.

Definition getCriticalWarnings (warnings : list StagedFileWarning.t)
    : list StagedFileWarning.t :=
  filter (fun w => StagedFileWarning.severity w = critical) warnings.

Definition hasStagedFiles (repository : Repository) : bool :=
  bool_decide (0 < length (indexChanges repository)).

End CommitScanner.

(** watcher/fileWatcher: the matcher of the creation events. *)
Module FileWatcher.

Definition regexSource (pattern : string) : string :=
  "(^|/)" +:+
  JS.replaceChar "*"%char "[^/]*"
    (JS.replaceStarStar ".*"
       (JS.replaceChar "."%char "\." pattern))
  +:+ "$".

Definition matchesPattern (fullPath fileName pattern : string) : option bool :=
  let normalizedPattern := JS.stripSlash pattern in
  if String.eqb fileName normalizedPattern then Some true
  else if String.eqb normalizedPattern ".env"
          && (String.eqb fileName ".env" || JS.startsWith fileName ".env.")
  then Some true
  else if JS.includes fullPath ("/" +:+ normalizedPattern +:+ "/") then Some true
  else if JS.startsWith fullPath (normalizedPattern +:+ "/") then Some true
  else if JS.includes pattern "*" then
    testEither (regexSource pattern) fullPath fileName
  else Some false.

(** *** The debounced notification queue *)

Record RiskyFileEvent := {
  filePath : string;
  matchedPattern : string;
  rule : GitIgnoreRule;
}.

Definition debounceDelay : nat := 500.

(** What [processPendingNotifications] shows: the single-file warning
    or the consolidated one. *)
Inductive notification :=
  | Single (event : RiskyFileEvent)
  | Batch (events : list RiskyFileEvent).

(** The watcher's fields together with the host's timer queue, on a
    logical clock in milliseconds: [timers] holds the handle and the
    due time of every timeout that is set and has neither fired nor been
    cleared; [shown] lists the notifications shown so far,
    oldest first. *)
Record state := {
  pendingNotifications : list (string * RiskyFileEvent);
  debounceTimer : option nat;
  timers : list (nat * nat);
  nextHandle : nat;
  shown : list notification;
}.

(** [clearTimeout(handle)] *)
Definition clearTimeout (handle : nat) (ts : list (nat * nat)) : list (nat * nat) :=
  filter (fun t => t.1 ≠ handle) ts.

Definition queueNotification (now : nat) (event : RiskyFileEvent) (st : state) : state :=
  let pending := mapSet (filePath event) event (pendingNotifications st) in
  let live :=
    match debounceTimer st with
    | Some handle => clearTimeout handle (timers st)
    | None => timers st
    end in
  {| pendingNotifications := pending;
     debounceTimer := Some (nextHandle st);
     timers := live ++ [(nextHandle st, now + debounceDelay)];
     nextHandle := S (nextHandle st);
     shown := shown st |}.

Definition processPendingNotifications (st : state) : state :=
  let events := mapValues (pendingNotifications st) in
  let shown' :=
    match events with
    | [] => shown st
    | [event] => shown st ++ [Single event]
    | _ => shown st ++ [Batch events]
    end in
  {| pendingNotifications := [];
     debounceTimer := debounceTimer st;
     timers := timers st;
     nextHandle := nextHandle st;
     shown := shown' |}.

(** The host runs the callback of a timeout that is still set. *)
Definition fire (handle : nat) (st : state) : state :=
  processPendingNotifications
    {| pendingNotifications := pendingNotifications st;
       debounceTimer := debounceTimer st;
       timers := clearTimeout handle (timers st);
       nextHandle := nextHandle st;
       shown := shown st |}.

(** The host's clock reaches [now]: every timeout due by then fires,
    the oldest first. *)
Definition fireDue (now : nat) (st : state) : state :=
  foldl (fun st t => if decide (t.2 <= now) then fire t.1 st else st)
        st (timers st).

(** A qualifying creation event reaches [queueNotification] at [now]. *)
Definition arrive (st : state) (e : nat * RiskyFileEvent) : state :=
  queueNotification e.1 e.2 (fireDue e.1 st).

Definition run (events : list (nat * RiskyFileEvent)) (st : state) : state :=
  foldl arrive st events.

(** No further event: the timeouts still set fire. *)
Definition settle (st : state) : state :=
  foldl (fun st t => fire t.1 st) st (timers st).

(** The watcher right after [start]. *)
Definition started : state :=
  {| pendingNotifications := []; debounceTimer := None; timers := [];
     nextHandle := 0; shown := [] |}.

(** [stop()], as far as the queue goes. *)
Definition stop (st : state) : state :=
  {| pendingNotifications := [];
     debounceTimer := None;
     timers := match debounceTimer st with
               | Some handle => clearTimeout handle (timers st)
               | None => timers st
               end;
     nextHandle := nextHandle st;
     shown := shown st |}.


Definition matchAgainstRules (activeRules : list GitIgnoreRule)
    (relativePath fileName : string) : option (option GitIgnoreRule) :=
  firstMatch (fun rule => matchesPattern relativePath fileName (pattern rule))
             activeRules.

End FileWatcher.

(** ** rules/index: the rule engine *)

Module RuleEngine.

(** One of node.json, python.json, java.json. *)
Record RuleSet := {
  rules : list GitIgnoreRule;
  frameworks : option (gmap string (list GitIgnoreRule));
}.

(** The three imported rule sets. The JSON files are data of the
    repository that the functions below only read; they are taken as
    a parameter. *)
Record Catalog := {
  nodeRules : RuleSet;
  pythonRules : RuleSet;
  javaRules : RuleSet;
}.

(** The string a [FrameworkId] is. *)
Definition idString (i : FrameworkId) : string :=
  match i with
  | node => "node" | react => "react" | nextjs => "nextjs" | vue => "vue"
  | angular => "angular" | vite => "vite" | svelte => "svelte"
  | python => "python" | django => "django" | flask => "flask"
  | fastapi => "fastapi" | maven => "maven" | gradle => "gradle"
  end.

Section WithCatalog.
Variable catalog : Catalog.

(** [this.ruleSets.get(category)] *)
Definition ruleSet (category : RuleCategory) : RuleSet :=
  match category with
  | cat_node => nodeRules catalog
  | cat_python => pythonRules catalog
  | cat_java => javaRules catalog
  end.

Definition getRulesForCategory (category : RuleCategory) : list GitIgnoreRule :=
  rules (ruleSet category).

Definition getFrameworkRules (category : RuleCategory) (frameworkId : FrameworkId)
    : list GitIgnoreRule :=
  match frameworks (ruleSet category) with
  | None => []
  | Some fw => default [] (fw !! idString frameworkId)
  end.

(** The loop body shared by the base and the framework rules: push a
    rule unless its pattern was seen. *)
Definition pushUnseen (st : list GitIgnoreRule * gset string) (rule : GitIgnoreRule)
    : list GitIgnoreRule * gset string :=
  let '(allRules, seenPatterns) := st in
  if decide (pattern rule ∈ seenPatterns) then st
  else (allRules ++ [rule], {[pattern rule]} ∪ seenPatterns).

Definition groupStep (byCategory : list (RuleCategory * list DetectedFramework))
    (detection : DetectedFramework) : list (RuleCategory * list DetectedFramework) :=
  let existing := default [] (mapGet (ruleCategory detection) byCategory) in
  mapSet (ruleCategory detection) (existing ++ [detection]) byCategory.

Definition categoryStep (st : list GitIgnoreRule * gset string)
    (entry : RuleCategory * list DetectedFramework)
    : list GitIgnoreRule * gset string :=
  let '(category, categoryDetections) := entry in
  let st1 := foldl pushUnseen st (getRulesForCategory category) in
  foldl
    (fun st detection =>
       foldl pushUnseen st (getFrameworkRules category (id detection)))
    st1 categoryDetections.

Definition getRulesForDetections (detections : list DetectedFramework)
    : list GitIgnoreRule :=
  let byCategory := foldl groupStep [] detections in
  fst (foldl categoryStep ([], ∅) byCategory).

End WithCatalog.

Definition severityIndex (s : RuleSeverity) : nat :=
  match s with critical => 0 | recommended => 1 | optional => 2 end.

Definition filterBySeverity (rs : list GitIgnoreRule) (minSeverity : RuleSeverity)
    : list GitIgnoreRule :=
  filter (fun rule => severityIndex (severity rule) <= severityIndex minSeverity) rs.

Definition globToRegex (glob : string) : string :=
  JS.replaceChar "?"%char "."
    (JS.replaceChar "*"%char ".*"
       (JS.replaceChar "."%char "\." glob)).

Definition matchesPattern (fullPath fileName pattern : string) : option bool :=
  let normalizedPattern := JS.stripSlash pattern in
  if String.eqb fileName normalizedPattern then Some true
  else if JS.includes fullPath normalizedPattern then Some true
  else if JS.includes pattern "*" then
    testEither (globToRegex pattern) fileName fullPath
  else if JS.endsWithChar pattern "/"%char then
    let dirName := JS.dropLast pattern in
    Some (JS.includes fullPath ("/" +:+ dirName +:+ "/")
          || JS.startsWith fullPath (dirName +:+ "/"))
  else Some false.


Definition getCriticalRules (rs : list GitIgnoreRule) : list GitIgnoreRule :=
  filter (fun rule => severity rule = critical) rs.

Definition matchesAnyRule (filePath : string) (rs : list GitIgnoreRule)
    : option (option GitIgnoreRule) :=
  let normalizedPath := JS.replaceChar JS.backslash "/" filePath in
  let fileName := JS.basename normalizedPath in
  firstMatch (fun rule => matchesPattern normalizedPath fileName (pattern rule)) rs.

End RuleEngine.

(** ** git/gitignore: the append-only ignore-file handler *)

Module GitIgnoreHandler.

(** What a failing host call throws: an [Error] carrying a message, or
    some other value. *)
Inductive thrown := ErrorObject (message : string) | OtherValue.

(** The part of the host the handler touches: the ignore file of the
    workspace folder ([None]: there is no such file); what [readFile]
    and [stat] throw on a file that is there, if anything (a file that
    cannot be read, a file system that fails); what [writeFile]
    throws, if anything; and how often [writeFile] was called. *)
Record world := {
  gitignore : option string;
  readFault : option thrown;
  statFault : option thrown;
  writeFault : option thrown;
  writeCalls : nat;
}.

(** Computations that read and write the world and may throw. *)
Definition M (A : Type) : Type := world -> (A + thrown) * world.

Definition ret {A} (a : A) : M A := fun w => (inl a, w).

Definition bind {A B} (m : M A) (k : A -> M B) : M B :=
  fun w =>
    match m w with
    | (inl a, w') => k a w'
    | (inr e, w') => (inr e, w')
    end.

(** [try { body } catch (error) { handler }] *)
Definition tryCatch {A} (body : M A) (handler : thrown -> M A) : M A :=
  fun w =>
    match body w with
    | (inl a, w') => (inl a, w')
    | (inr e, w') => handler e w'
    end.

Notation "'let*' x ':=' m 'in' k" := (bind m (fun x => k))
  (at level 10, x pattern, m at level 100, k at level 200).

(** [vscode.workspace.fs.readFile] followed by the UTF-8 decoding *)
Definition readFile : M string :=
  fun w =>
    match gitignore w with
    | Some content =>
        match readFault w with
        | Some e => (inr e, w)
        | None => (inl content, w)
        end
    | None => (inr (ErrorObject "FileNotFound"), w)
    end.

(** [vscode.workspace.fs.writeFile] *)
Definition writeFile (content : string) : M unit :=
  fun w =>
    match writeFault w with
    | Some e =>
        (inr e, {| gitignore := gitignore w; readFault := readFault w;
                   statFault := statFault w; writeFault := writeFault w;
                   writeCalls := S (writeCalls w) |})
    | None =>
        (inl (), {| gitignore := Some content; readFault := readFault w;
                    statFault := statFault w; writeFault := writeFault w;
                    writeCalls := S (writeCalls w) |})
    end.

Record GitIgnoreModificationResult := {
  success : bool;
  addedPatterns : list string;
  existingPatterns : list string;
  error : option string;
}.

Definition read : M (option string) :=
  tryCatch (let* content := readFile in ret (Some content))
           (fun _ => ret None).

Definition normalizePattern (pattern : string) : string :=
  JS.stripSlashes (JS.trim pattern).

(** The body of the loop over the lines. *)
Definition addLine (patterns : gset string) (line : string) : gset string :=
  let trimmed := JS.trim line in
  if String.eqb trimmed "" || JS.startsWith trimmed "#" then patterns
  else {[normalizePattern trimmed]} ∪ patterns.

Definition parsePatterns (content : string) : gset string :=
  foldl addLine ∅ (JS.split content).

Definition getExistingPatterns : M (gset string) :=
  let* content := read in
  match content with
  | None => ret ∅
  | Some content =>
      if String.eqb content "" then ret ∅ else ret (parsePatterns content)
  end.

Definition findMissingPatterns (rules : list GitIgnoreRule) : M (list GitIgnoreRule) :=
  let* existing := getExistingPatterns in
  ret (filter (fun rule => normalizePattern (pattern rule) ∉ existing) rules).

(** The first loop of [addPatterns]: the rules to add, and the
    patterns already there. *)
Definition classify (existing : gset string) (rules : list GitIgnoreRule)
    : list GitIgnoreRule * list string :=
  foldl
    (fun '(toAdd, alreadyExists) rule =>
       if decide (normalizePattern (pattern rule) ∈ existing)
       then (toAdd, alreadyExists ++ [pattern rule])
       else (toAdd ++ [rule], alreadyExists))
    ([], []) rules.

Definition header (frameworkName : option string) : string :=
  match frameworkName with
  | Some n =>
      if String.eqb n "" then "# Added by GitGuard"
      else "# Added by GitGuard (" +:+ n +:+ ")"
  | None => "# Added by GitGuard"
  end.

Definition ruleLines (rule : GitIgnoreRule) : list string :=
  (if decide (severity rule = critical) then ["# " +:+ reason rule] else [])
  ++ [pattern rule].

Definition errorMessageOf (e : thrown) : string :=
  match e with
  | ErrorObject message => message
  | OtherValue => "Unknown error"
  end.

Definition addPatterns (rules : list GitIgnoreRule) (frameworkName : option string)
    : M GitIgnoreModificationResult :=
  let* existing := getExistingPatterns in
  let '(toAdd, alreadyExists) := classify existing rules in
  match toAdd with
  | [] =>
      ret {| success := true; addedPatterns := [];
             existingPatterns := alreadyExists; error := None |}
  | _ :: _ =>
      tryCatch
        (let* content := read in
         let currentContent := default "" content in
         let currentContent :=
           if negb (String.eqb currentContent "")
              && negb (JS.endsWithChar currentContent JS.LF)
           then currentContent +:+ String JS.LF ""
           else currentContent in
         let separator :=
           if String.eqb (JS.trim currentContent) "" then [] else [""] in
         let newLines :=
           separator ++ [header frameworkName] ++ (toAdd ≫= ruleLines) in
         let newContent :=
           currentContent +:+ JS.join newLines +:+ String JS.LF "" in
         let* _ := writeFile newContent in
         ret {| success := true; addedPatterns := pattern <$> toAdd;
                existingPatterns := alreadyExists; error := None |})
        (fun e =>
           ret {| success := false; addedPatterns := [];
                  existingPatterns := alreadyExists;
                  error := Some (errorMessageOf e) |})
  end.

(** [addPattern]: one rule, severity recommended. *)
Definition addPattern (p : string) (why : option string)
    : M GitIgnoreModificationResult :=
  let r := match why with
           | Some t => if String.eqb t "" then "Added by user" else t
           | None => "Added by user"
           end in
  addPatterns [{| pattern := p; severity := recommended; reason := r |}] None.


(** *** Creating the file, and asking whether a path is ignored *)

(** [vscode.workspace.fs.stat] on the ignore file *)
Definition stat : M unit :=
  fun w =>
    match gitignore w with
    | Some _ =>
        match statFault w with
        | Some e => (inr e, w)
        | None => (inl (), w)
        end
    | None => (inr (ErrorObject "FileNotFound"), w)
    end.

(** [exists] *)
Definition exists_ : M bool :=
  tryCatch (let* _ := stat in ret true) (fun _ => ret false).

(** [create]; [now] is what [new Date().toISOString()] gives. *)
Definition create (rules : list GitIgnoreRule) (detections : list DetectedFramework)
    (now : string) : M GitIgnoreModificationResult :=
  let* present := exists_ in
  if present : bool then
    let frameworks := JS.joinWith ", " (name <$> detections) in
    addPatterns rules (Some frameworks)
  else
    tryCatch
      (let lines :=
         ["# GitGuard - Auto-generated .gitignore";
          "# Detected frameworks: " +:+ JS.joinWith ", " (name <$> detections);
          "# Generated on: " +:+ now;
          ""] in
       let criticalRules := filter (fun r => severity r = critical) rules in
       let recommendedRules := filter (fun r => severity r = recommended) rules in
       let optionalRules := filter (fun r => severity r = optional) rules in
       let lines :=
         match criticalRules with
         | [] => lines
         | _ :: _ =>
             lines ++ ["# === Critical (Security) ==="]
             ++ (criticalRules ≫= fun rule => ["# " +:+ reason rule; pattern rule])
             ++ [""]
         end in
       let lines :=
         match recommendedRules with
         | [] => lines
         | _ :: _ =>
             lines ++ ["# === Recommended ==="]
             ++ (pattern <$> recommendedRules) ++ [""]
         end in
       let lines :=
         match optionalRules with
         | [] => lines
         | _ :: _ =>
             lines ++ ["# === Optional ==="]
             ++ (pattern <$> optionalRules) ++ [""]
         end in
       let content := JS.join lines in
       let* _ := writeFile content in
       ret {| success := true; addedPatterns := pattern <$> rules;
              existingPatterns := []; error := None |})
      (fun e =>
         ret {| success := false; addedPatterns := [];
                existingPatterns := [];
                error := Some (errorMessageOf e) |}).

(** The handler's own matcher, used by [isIgnored]. *)
Definition matchesPattern (fullPath fileName pattern : string) : option bool :=
  let normalizedPattern := JS.stripSlash pattern in
  if String.eqb fileName normalizedPattern then Some true
  else if JS.includes fullPath normalizedPattern then Some true
  else if JS.includes pattern "*" then
    testEither
      ("^" +:+ JS.replaceChar "*"%char ".*" (JS.replaceChar "."%char "\." pattern)
       +:+ "$")
      fileName fullPath
  else Some false.

(** [getExistingPatterns] once more, with the order in which the [Set]
    it returns is iterated: the order of first insertion. *)
Definition addLineInOrder (patterns : list string) (line : string) : list string :=
  let trimmed := JS.trim line in
  if String.eqb trimmed "" || JS.startsWith trimmed "#" then patterns
  else if decide (normalizePattern trimmed ∈ patterns) then patterns
  else patterns ++ [normalizePattern trimmed].

Definition getExistingPatternsInOrder : M (list string) :=
  let* content := read in
  match content with
  | None => ret []
  | Some content =>
      if String.eqb content "" then ret []
      else ret (foldl addLineInOrder [] (JS.split content))
  end.

(** [isIgnored]; [relativeToFolder] is what
    [path.relative(workspaceFolder.uri.fsPath, filePath)] gives. The
    inner [None] stands for a pattern whose expression is outside the
    fragment. *)
Definition isIgnored (relativeToFolder : string) : M (option bool) :=
  let* patterns := getExistingPatternsInOrder in
  let normalizedPath := JS.replaceChar JS.backslash "/" relativeToFolder in
  let fileName := JS.basename normalizedPath in
  ret match firstMatch (matchesPattern normalizedPath fileName) patterns with
      | None => None
      | Some (Some _) => Some true
      | Some None => Some false
      end.

End GitIgnoreHandler.

(** ** Paths of manifests *)

Module Path.

Fixpoint dirnameAux (s : string) : string :=
  match s with
  | EmptyString => EmptyString
  | String a r => if JS.includes r "/" then String a (dirnameAux r) else EmptyString
  end.

(** [path.dirname(p)] for a relative path without a trailing
    separator *)
Definition dirname (p : string) : string :=
  let d := dirnameAux p in if String.eqb d "" then "." else d.

(** [path.join(dir, file)] for a directory as [dirname] returns it
    and a plain file name *)
Definition join (dir file : string) : string :=
  if String.eqb dir "." then file else dir +:+ "/" +:+ file.

Fixpoint countSep (s : string) : nat :=
  match s with
  | EmptyString => 0
  | String a r => (if Ascii.eqb a "/"%char then 1 else 0) + countSep r
  end.

(** [p.split(path.sep).length] *)
Definition segments (p : string) : nat := S (countSep p).

End Path.

(** [Math.min(a, b)], signed zeros apart *)
Definition mathMin (a b : float) : float :=
  if (PrimFloat.is_nan a || PrimFloat.is_nan b)%bool then PrimFloat.nan
  else if (b <? a)%float then b else a.

(** detector/base: [createDetection] *)
Definition createDetection (category : RuleCategory) (i : FrameworkId)
    (n detectedAt_ : string) (c : float) : DetectedFramework :=
  {| id := i; name := n; detectedAt := detectedAt_; confidence := c;
     ruleCategory := category |}.

(** ** detector/node *)

Module NodeDetector.

Record PackageJson := {
  dependencies : option (gmap string string);
  devDependencies : option (gmap string string);
}.

Record FrameworkPattern := {
  fpId : FrameworkId;
  fpName : string;
  fpDependencies : list string;
  configFiles : list string;
  fpConfidence : float;
}.

Definition frameworkPatterns : list FrameworkPattern := [
  {| fpId := nextjs; fpName := "Next.js"; fpDependencies := ["next"];
     configFiles := ["next.config.js"; "next.config.mjs"; "next.config.ts"];
     fpConfidence := 0.95 |};
  {| fpId := angular; fpName := "Angular"; fpDependencies := ["@angular/core"];
     configFiles := ["angular.json"]; fpConfidence := 0.95 |};
  {| fpId := vue; fpName := "Vue"; fpDependencies := ["vue"];
     configFiles := ["vue.config.js"; "vite.config.ts"; "nuxt.config.js"];
     fpConfidence := 0.9 |};
  {| fpId := svelte; fpName := "Svelte"; fpDependencies := ["svelte"];
     configFiles := ["svelte.config.js"]; fpConfidence := 0.95 |};
  {| fpId := vite; fpName := "Vite"; fpDependencies := ["vite"];
     configFiles := ["vite.config.js"; "vite.config.ts"]; fpConfidence := 0.9 |};
  {| fpId := react; fpName := "React"; fpDependencies := ["react"; "react-dom"];
     configFiles := []; fpConfidence := 0.85 |}
].

(** What [JSON.parse] makes of a manifest, other than [null], as far
    as the detector looks at it: a falsy value ([false], [0], the
    empty string), or a truthy one, with the keys of its
    [dependencies] and of its [devDependencies]. *)
Inductive Parsed := Falsy | Truthy (packageJson : PackageJson).

(** The workspace folder as the detector sees it: the package.json
    files [findFiles] returns, relative to the folder; what
    [readJsonFile] returns for a file ([None] for [null]: the file is
    unreadable, empty or unparsable, or holds [null]); which relative
    paths exist. *)
Record workspace := {
  packageJsons : list string;
  readJsonFile : string -> option Parsed;
  fileExists : string -> bool;
}.

(** [{...dependencies, ...devDependencies}] *)
Definition allDepsOf (packageJson : PackageJson) : gmap string string :=
  default ∅ (devDependencies packageJson) ∪ default ∅ (dependencies packageJson).

(** [dep in allDeps] *)
Definition hasKey (allDeps : gmap string string) (dep : string) : bool :=
  bool_decide (is_Some (allDeps !! dep)).

Definition confidenceOf (ws : workspace) (relativeDir : string)
    (framework : FrameworkPattern) : float :=
  if existsb (fun configFile => fileExists ws (Path.join relativeDir configFile))
             (configFiles framework)
  then mathMin 1 (fpConfidence framework + 0.05)
  else fpConfidence framework.

Definition frameworkStep (ws : workspace) (relativePath relativeDir : string)
    (allDeps : gmap string string)
    (detected : list DetectedFramework) (framework : FrameworkPattern)
    : list DetectedFramework :=
  if existsb (hasKey allDeps) (fpDependencies framework)
  then detected ++ [createDetection cat_node (fpId framework) (fpName framework)
                      relativePath (confidenceOf ws relativeDir framework)]
  else detected.

Definition manifestStep (ws : workspace) (detected : list DetectedFramework)
    (relativePath : string) : list DetectedFramework :=
  match readJsonFile ws relativePath with
  | None | Some Falsy => detected
  | Some (Truthy packageJson) =>
      let relativeDir := Path.dirname relativePath in
      let allDeps := allDepsOf packageJson in
      let detected :=
        detected ++ [createDetection cat_node node "Node.js" relativePath 0.8] in
      foldl (frameworkStep ws relativePath relativeDir allDeps)
            detected frameworkPatterns
  end.

Definition dedupStep (byId : list (FrameworkId * DetectedFramework))
    (detection : DetectedFramework) : list (FrameworkId * DetectedFramework) :=
  match mapGet (id detection) byId with
  | None => mapSet (id detection) detection byId
  | Some existing =>
      if (confidence existing <? confidence detection)%float
      then mapSet (id detection) detection byId
      else byId
  end.

Definition deduplicateDetections (detections : list DetectedFramework)
    : list DetectedFramework :=
  mapValues (foldl dedupStep [] detections).

Definition detect (ws : workspace) : list DetectedFramework :=
  deduplicateDetections (foldl (manifestStep ws) [] (packageJsons ws)).

End NodeDetector.

(** ** detector/java *)

Module JavaDetector.

Definition dedupStep (byId : list (FrameworkId * DetectedFramework))
    (detection : DetectedFramework) : list (FrameworkId * DetectedFramework) :=
  match mapGet (id detection) byId with
  | None => mapSet (id detection) detection byId
  | Some existing =>
      let existingDepth := Path.segments (detectedAt existing) in
      let newDepth := Path.segments (detectedAt detection) in
      if decide (newDepth < existingDepth)
      then mapSet (id detection) detection byId
      else byId
  end.

Definition deduplicateByProximity (detections : list DetectedFramework)
    : list DetectedFramework :=
  mapValues (foldl dedupStep [] detections).

(** [detect] on the pom.xml and build.gradle(.kts) files [findFiles]
    returns, relative to the folder. *)
Definition detect (pomFiles gradleFiles : list string) : list DetectedFramework :=
  deduplicateByProximity
    (((fun p => createDetection cat_java maven "Maven" p 0.95) <$> pomFiles)
     ++ ((fun p => createDetection cat_java gradle
                     (if JS.endsWith p ".kts" then "Gradle (Kotlin DSL)" else "Gradle")
                     p 0.95) <$> gradleFiles)).

End JavaDetector.

(** ** detector/python *)

Module PythonDetector.

Record FrameworkPattern := {
  fpId : FrameworkId;
  fpName : string;
  packages : list string;
  configFiles : list string;
  configDirs : list string;
  fpConfidence : float;
}.

Definition frameworkPatterns : list FrameworkPattern := [
  {| fpId := django; fpName := "Django"; packages := ["django"; "Django"];
     configFiles := ["manage.py"; "settings.py"];
     configDirs := ["*/settings.py"; "*/wsgi.py"]; fpConfidence := 0.9 |};
  {| fpId := flask; fpName := "Flask"; packages := ["flask"; "Flask"];
     configFiles := ["app.py"; "wsgi.py"]; configDirs := [];
     fpConfidence := 0.85 |};
  {| fpId := fastapi; fpName := "FastAPI"; packages := ["fastapi"; "FastAPI"];
     configFiles := ["main.py"]; configDirs := []; fpConfidence := 0.85 |}
].

(** The workspace folder as the detector sees it: the
    requirements*.txt files [findFiles] returns, relative to the folder;
    the pyproject.toml it returns, if any; whether it returns a Python
    source file; what [readFile] makes of a relative path ([None] for
    unreadable); what [parsePyprojectToml] extracts from the file at a
    relative path (its regular expressions are outside the fragment
    modelled here, so its result is part of the input); which relative
    paths exist. *)
Record workspace := {
  requirementFiles : list string;
  pyprojectToml : option string;
  hasPythonSourceFiles : bool;
  readFile : string -> option string;
  parsePyprojectToml : string -> list string;
  fileExists : string -> bool;
}.

(** The class [[a-zA-Z0-9_-]] *)
Definition nameChar (c : ascii) : bool :=
  let n := nat_of_ascii c in
  (97 <=? n) && (n <=? 122) || (65 <=? n) && (n <=? 90)
  || (48 <=? n) && (n <=? 57) || (n =? 95) || (n =? 45).

(** What the group of [/^([a-zA-Z0-9_-]+)/] captures when the
    expression matches: the longest run of name characters the text
    starts with. *)
Fixpoint nameRun (s : string) : string :=
  match s with
  | EmptyString => EmptyString
  | String a r => if nameChar a then String a (nameRun r) else EmptyString
  end.

(** The body of the loop over the lines of a requirements file. *)
Definition requirementLine (packages : list string) (line : string) : list string :=
  let trimmed := JS.trim line in
  if String.eqb trimmed "" || JS.startsWith trimmed "#" then packages
  else if JS.startsWith trimmed "-" then packages
  else match nameRun trimmed with
       | EmptyString => packages
       | name => packages ++ [name]
       end.

Definition parseRequirementsTxt (ws : workspace) (relativePath : string)
    : list string :=
  match readFile ws relativePath with
  | None => []
  | Some content =>
      if String.eqb content "" then []
      else foldl requirementLine [] (JS.split content)
  end.

(** [packages.forEach(pkg => allPackages.add(pkg.toLowerCase()))] *)
Definition addAll (allPackages : gset string) (pkgs : list string) : gset string :=
  foldl (fun allPackages pkg => {[JS.toLowerCase pkg]} ∪ allPackages)
        allPackages pkgs.

Definition confidenceOf (ws : workspace) (framework : FrameworkPattern) : float :=
  let confidence :=
    if existsb (fileExists ws) (configFiles framework)
    then mathMin 1 (fpConfidence framework + 0.05)
    else fpConfidence framework in
  if decide (fpId framework = django) then
    if fileExists ws "manage.py" then 0.98%float else confidence
  else confidence.

Definition frameworkStep (ws : workspace) (allPackages : gset string)
    (detectionSource : string)
    (detected : list DetectedFramework) (framework : FrameworkPattern)
    : list DetectedFramework :=
  if existsb (fun pkg => bool_decide (JS.toLowerCase pkg ∈ allPackages))
             (packages framework)
  then detected ++ [createDetection cat_python (fpId framework) (fpName framework)
                      detectionSource (confidenceOf ws framework)]
  else detected.

Definition detect (ws : workspace) : list DetectedFramework :=
  let requirementsPath := requirementFiles ws in
  let pyprojectPath := pyprojectToml ws in
  let hasPythonFiles := hasPythonSourceFiles ws in
  let '(isPythonProject, allPackages) :=
    foldl (fun '(_, allPackages) reqPath =>
             (true, addAll allPackages (parseRequirementsTxt ws reqPath)))
          (false, ∅) requirementsPath in
  let '(isPythonProject, allPackages) :=
    match pyprojectPath with
    | Some p =>
        if String.eqb p "" then (isPythonProject, allPackages)
        else (true, addAll allPackages (parsePyprojectToml ws p))
    | None => (isPythonProject, allPackages)
    end in
  let isPythonProject :=
    if hasPythonFiles && negb isPythonProject then true else isPythonProject in
  if negb isPythonProject then []
  else
    let detectionSource :=
      match requirementsPath with
      | first :: _ => first
      | [] =>
          match pyprojectPath with
          | Some p => if String.eqb p "" then "*.py files" else p
          | None => "*.py files"
          end
      end in
    let detected := [createDetection cat_python python "Python" detectionSource 0.8] in
    let detected :=
      foldl (frameworkStep ws allPackages detectionSource) detected frameworkPatterns in
    if negb (existsb (fun d => bool_decide (id d = django)) detected)
       && fileExists ws "manage.py"
    then detected ++ [createDetection cat_python django "Django" "manage.py" 0.95]
    else detected.

End PythonDetector.

(** ** detector/index: the detection engine *)

Module DetectionEngine.

(** What the [detect] of a detector does on a folder, given by its
    path: it returns detections, or it throws ([None]). *)
Definition Detector : Type := string -> option (list DetectedFramework).

(** The loop over the detectors, with its [try] and [catch]. *)
Definition runDetectors (detectors : list Detector) (folder : string)
    : list DetectedFramework :=
  foldl (fun folderDetections detector =>
           match detector folder with
           | Some detected => folderDetections ++ detected
           | None => folderDetections
           end)
        [] detectors.

(** The engine's field [cachedResults]. *)
Definition Cache : Type := list (string * list DetectedFramework).

(** [detectAll]; [workspaceFolders] is [vscode.workspace.workspaceFolders],
    a list of folder paths or [undefined]. *)
Definition detectAll (detectors : list Detector)
    (workspaceFolders : option (list string)) (forceRefresh : bool)
    (cachedResults : Cache) : list DetectedFramework * Cache :=
  match workspaceFolders with
  | None => ([], cachedResults)
  | Some [] => ([], cachedResults)
  | Some folders =>
      foldl (fun '(allDetections, cachedResults) cacheKey =>
               match (if forceRefresh then None else mapGet cacheKey cachedResults) with
               | Some hit => (allDetections ++ hit, cachedResults)
               | None =>
                   let folderDetections := runDetectors detectors cacheKey in
                   (allDetections ++ folderDetections,
                    mapSet cacheKey folderDetections cachedResults)
               end)
            ([], cachedResults) folders
  end.

Definition detectInFolder (detectors : list Detector) (folder : string)
    (cachedResults : Cache) : list DetectedFramework * Cache :=
  let detections := runDetectors detectors folder in
  (detections, mapSet folder detections cachedResults).

Definition clearCache (cachedResults : Cache) : Cache := [].

End DetectionEngine.

(** ** ui/notifications: the answers to the warnings

    The texts shown are left out; the button the user picks is an
    input, [None] when the message is dismissed. *)

Module NotificationManager.

Inductive UserDecision :=
  add_to_gitignore | ignore_once | disable_warnings | cancel.

Inductive PreCommitDecision := Block | Fix | Proceed | Cancel.

(** [showRiskyFileWarning] on the manager's field [sessionSuppressed] *)
Definition showRiskyFileWarning (event : FileWatcher.RiskyFileEvent)
    (answer : option string) (sessionSuppressed : gset string)
    : UserDecision * gset string :=
  if decide (FileWatcher.matchedPattern event ∈ sessionSuppressed)
  then (ignore_once, sessionSuppressed)
  else
    match answer with
    | Some result =>
        if String.eqb result "Add to .gitignore" then
          (add_to_gitignore, sessionSuppressed)
        else if String.eqb result "Ignore Once" then
          (ignore_once, sessionSuppressed)
        else if String.eqb result "Don't Warn Again" then
          (disable_warnings,
           {[FileWatcher.matchedPattern event]} ∪ sessionSuppressed)
        else (cancel, sessionSuppressed)
    | None => (cancel, sessionSuppressed)
    end.

Definition showPreCommitWarning (warnings : list StagedFileWarning.t)
    (answer : option string) : PreCommitDecision :=
  let criticalWarnings :=
    filter (fun w => StagedFileWarning.severity w = critical) warnings in
  match criticalWarnings with
  | _ :: _ =>
      match answer with
      | Some result =>
          if String.eqb result "Fix & Add to .gitignore" then Fix
          else if String.eqb result "View Details" then Cancel
          else if String.eqb result "Proceed Anyway" then Proceed
          else Cancel
      | None => Cancel
      end
  | [] =>
      match answer with
      | Some result =>
          if String.eqb result "Add to .gitignore" then Fix
          else if String.eqb result "View Details" then Cancel
          else if String.eqb result "Proceed" then Proceed
          else Cancel
      | None => Cancel
      end
  end.

(** [showRuleSelection]; [selected] is what the quick pick returns:
    the labels of the picked items, or [undefined]. *)
Definition showRuleSelection (rules : list GitIgnoreRule)
    (selected : option (list string)) : list GitIgnoreRule :=
  match selected with
  | None => []
  | Some selected =>
      let selectedPatterns : gset string := list_to_set selected in
      filter (fun r => pattern r ∈ selectedPatterns) rules
  end.

End NotificationManager.

(** ** watcher/fileWatcher: the handlers

    The watcher's fields beside the queue, the manager's
    [sessionSuppressed] and the workspace setting
    [gitGuard.suppressedWarnings]; the ignore file is in the world of
    the handler. *)

Module WatcherSession.
Import GitIgnoreHandler.

Record session := {
  activeRules : list GitIgnoreRule;
  permanentlyDismissed : gset string;
  sessionSuppressed : gset string;
  suppressedWarnings : list string;
  queue : FileWatcher.state;
}.

(** A creation event: [uri.fsPath], and what [path.relative] makes of
    it for the workspace folder that holds it; [None] when
    [getWorkspaceFolder(uri)] finds none. *)
Record Created := {
  fsPath : string;
  relativeToFolder : option string;
}.

(** [start(rules)] and [updateRules(rules)] *)
Definition start (rules : list GitIgnoreRule) (s : session) : session :=
  {| activeRules := rules;
     permanentlyDismissed := permanentlyDismissed s;
     sessionSuppressed := sessionSuppressed s;
     suppressedWarnings := suppressedWarnings s;
     queue := FileWatcher.stop (queue s) |}.

Definition updateRules (rules : list GitIgnoreRule) (s : session) : session :=
  {| activeRules := rules;
     permanentlyDismissed := permanentlyDismissed s;
     sessionSuppressed := sessionSuppressed s;
     suppressedWarnings := suppressedWarnings s;
     queue := queue s |}.

(** [handleFileCreated] at the time [now]. The inner [None] stands for
    a pattern whose expression is outside the fragment. *)
Definition handleFileCreated (now : nat) (file : Created) (s : session)
    : M (option session) :=
  match activeRules s with
  | [] => ret (Some s)
  | _ :: _ =>
      match relativeToFolder file with
      | None => ret (Some s)
      | Some relativePath =>
          let normalizedPath := JS.replaceChar JS.backslash "/" relativePath in
          let fileName := JS.basename (fsPath file) in
          let* ignored := isIgnored relativePath in
          match ignored with
          | None => ret None
          | Some true => ret (Some s)
          | Some false =>
              match FileWatcher.matchAgainstRules (activeRules s)
                      normalizedPath fileName with
              | None => ret None
              | Some None => ret (Some s)
              | Some (Some matchedRule) =>
                  if decide (pattern matchedRule ∈ permanentlyDismissed s)
                  then ret (Some s)
                  else if decide (pattern matchedRule ∈ suppressedWarnings s)
                  then ret (Some s)
                  else
                    let event :=
                      {| FileWatcher.filePath := normalizedPath;
                         FileWatcher.matchedPattern := pattern matchedRule;
                         FileWatcher.rule := matchedRule |} in
                    ret (Some
                      {| activeRules := activeRules s;
                         permanentlyDismissed := permanentlyDismissed s;
                         sessionSuppressed := sessionSuppressed s;
                         suppressedWarnings := suppressedWarnings s;
                         queue := FileWatcher.arrive (queue s) (now, event) |})
              end
          end
      end
  end.

(** [addToSuppressedWarnings] on the setting *)
Definition addToSuppressedWarnings (p : string) (current : list string)
    : list string :=
  if decide (p ∈ current) then current else current ++ [p].

(** [showSingleNotification]; [hasFolder] tells whether
    [workspaceFolders?.[0]] is there. *)
Definition showSingleNotification (hasFolder : bool) (answer : option string)
    (event : FileWatcher.RiskyFileEvent) (s : session) : M session :=
  if negb hasFolder then ret s
  else
    let '(decision, suppressed) :=
      NotificationManager.showRiskyFileWarning event answer (sessionSuppressed s) in
    let s :=
      {| activeRules := activeRules s;
         permanentlyDismissed := permanentlyDismissed s;
         sessionSuppressed := suppressed;
         suppressedWarnings := suppressedWarnings s;
         queue := queue s |} in
    match decision with
    | NotificationManager.add_to_gitignore =>
        let* _ := addPattern (pattern (FileWatcher.rule event))
                             (Some (reason (FileWatcher.rule event))) in
        ret s
    | NotificationManager.disable_warnings =>
        ret {| activeRules := activeRules s;
               permanentlyDismissed :=
                 {[FileWatcher.matchedPattern event]} ∪ permanentlyDismissed s;
               sessionSuppressed := sessionSuppressed s;
               suppressedWarnings :=
                 addToSuppressedWarnings (FileWatcher.matchedPattern event)
                                         (suppressedWarnings s);
               queue := queue s |}
    | _ => ret s
    end.

(** The grouping by pattern of [showBatchNotification]. *)
Definition byPatternStep
    (byPattern : list (string * list FileWatcher.RiskyFileEvent))
    (event : FileWatcher.RiskyFileEvent)
    : list (string * list FileWatcher.RiskyFileEvent) :=
  let existing := default [] (mapGet (FileWatcher.matchedPattern event) byPattern) in
  mapSet (FileWatcher.matchedPattern event) (existing ++ [event]) byPattern.

(** [Array.from(byPattern.keys()).map(pattern => byPattern.get(pattern)![0].rule)];
    [None] when a group is empty, where the code throws. *)
Definition uniqueRules (byPattern : list (string * list FileWatcher.RiskyFileEvent))
    : option (list GitIgnoreRule) :=
  mapM (fun p => events ← mapGet p byPattern;
                 event ← head events;
                 Some (FileWatcher.rule event))
       (mapKeys byPattern).

(** [showBatchNotification] *)
Definition showBatchNotification (hasFolder : bool) (answer : option string)
    (events : list FileWatcher.RiskyFileEvent) (s : session) : M session :=
  if negb hasFolder then ret s
  else
    let byPattern := foldl byPatternStep [] events in
    match answer with
    | Some result =>
        if String.eqb result "Add All to .gitignore" then
          match uniqueRules byPattern with
          | Some rules => let* _ := addPatterns rules None in ret s
          | None => fun w => (inr (ErrorObject "TypeError"), w)
          end
        else ret s
    | None => ret s
    end.

End WatcherSession.

(** ** extension: the check before a commit *)

Module Extension.
Import GitIgnoreHandler.

(** [performPreCommitCheck]; [allWarnings] is what
    [scanAllRepositories(applicableRules)] returned, [preCommitCheck]
    the setting, [hasFolder] whether [workspaceFolders?.[0]] is there,
    [answer] the button picked in the warning, if one is shown. *)
Definition performPreCommitCheck (preCommitCheck : bool)
    (allWarnings : list (string * list StagedFileWarning.t))
    (hasFolder : bool) (answer : option string) : M bool :=
  if negb preCommitCheck then ret true
  else
    let warnings := concat (mapValues allWarnings) in
    match warnings with
    | [] => ret true
    | _ :: _ =>
        let criticalWarnings :=
          filter (fun w => StagedFileWarning.severity w = critical) warnings in
        match criticalWarnings with
        | _ :: _ =>
            match NotificationManager.showPreCommitWarning warnings answer with
            | NotificationManager.Fix =>
                if hasFolder then
                  let rules :=
                    (fun w => {| pattern := StagedFileWarning.matchedPattern w;
                                 severity := StagedFileWarning.severity w;
                                 reason := StagedFileWarning.reason w |})
                    <$> criticalWarnings in
                  let* _ := addPatterns rules None in
                  ret false
                else ret false
            | NotificationManager.Proceed => ret true
            | _ => ret false
            end
        | [] => ret true
        end
    end.

End Extension.

(** ** Notions the properties are stated with *)

(** [p] is an initial part of [s]. *)
Definition IsPrefix (p s : string) : Prop := exists t, s = p +:+ t.

(** [sub] occurs in [s]. *)
Definition Contains (s sub : string) : Prop := exists u v, s = u +:+ sub +:+ v.

(** A pattern without a star. *)
Definition StarFree (p : string) : Prop := ~ Contains p "*".

(** The rule for star-free patterns as the specification words it:
    the base name is the pattern, or the path contains [/p/], or the
    path starts with [p/]. *)
Definition specStarFreeMatch (f p : string) : bool :=
  String.eqb (JS.basename f) p
  || JS.includes f ("/" +:+ p +:+ "/")
  || JS.startsWith f (p +:+ "/").

(** *** Globs *)

(** A glob is read as a sequence of literal characters and of runs: a
    run stands for any number of characters that satisfy a test. *)
Inductive gtoken := GChar (c : ascii) | GRun (ok : ascii -> bool).

Definition anyChar (c : ascii) : bool := true.
Definition notSlash (c : ascii) : bool := negb (Ascii.eqb c "/"%char).
Definition notLineEnd (c : ascii) : bool := negb (RegExp.lineTerminator c).

Definition starOr (ok : ascii -> bool) (a : ascii) : gtoken :=
  if Ascii.eqb a "*"%char then GRun ok else GChar a.

(** The reading of the specification: [**] crosses separators, a single
    [*] stays within one path segment. *)
Fixpoint specTokens (p : string) : list gtoken :=
  match p with
  | EmptyString => []
  | String a r =>
      match r with
      | String b r' =>
          if Ascii.eqb a "*"%char && Ascii.eqb b "*"%char
          then GRun anyChar :: specTokens r'
          else starOr notSlash a :: specTokens r
      | EmptyString => [starOr notSlash a]
      end
  end.

(** Every star a run of characters of one line, separators included. *)
Fixpoint crossTokens (p : string) : list gtoken :=
  match p with
  | EmptyString => []
  | String a r => starOr notLineEnd a :: crossTokens r
  end.

(** The whole of [s] is an instance of the glob. *)
Fixpoint gmatch (g : list gtoken) (s : string) : bool :=
  match g with
  | [] => String.eqb s ""
  | GChar c :: g' =>
      match s with
      | String d s' => Ascii.eqb d c && gmatch g' s'
      | EmptyString => false
      end
  | GRun ok :: g' =>
      (fix run (s : string) : bool :=
         gmatch g' s ||
         match s with
         | String d s' => ok d && run s'
         | EmptyString => false
         end) s
  end.

(** The glob branch as the specification words it: the anchored
    expression is tried on the base name and on the path. *)
Definition specGlobBranch (f b p : string) : bool :=
  gmatch (specTokens p) b || gmatch (specTokens p) f.

(** [s] as a whole, or what follows one of its slashes, is an instance. *)
Definition AtSegment (m : string -> bool) (s : string) : Prop :=
  m s = true \/ exists u v, s = u +:+ "/" +:+ v /\ m v = true.

(** Some part of [s] is an instance. *)
Definition Somewhere (m : string -> bool) (s : string) : Prop :=
  exists u v w, s = u +:+ v +:+ w /\ m v = true.

(** Globs made of stars, dots and characters that mean nothing to a
    regular expression, with no two stars in a row. *)
Definition plainChar (c : ascii) : bool :=
  negb (RegExp.syntaxChar c) || Ascii.eqb c "."%char || Ascii.eqb c "*"%char.

Fixpoint simpleGlob (p : string) : bool :=
  match p with
  | EmptyString => true
  | String a r =>
      plainChar a
      && match r with
         | String b _ => negb (Ascii.eqb a "*"%char && Ascii.eqb b "*"%char)
         | EmptyString => true
         end
      && simpleGlob r
  end.

(** *** The ignore file *)

(** The text of the ignore file, empty when there is no file. *)
Definition content (w : GitIgnoreHandler.world) : string :=
  default "" (GitIgnoreHandler.gitignore w).

(** The world as [read] shows it: a file that cannot be read is as good
    as absent. *)
Definition asRead (w : GitIgnoreHandler.world) : GitIgnoreHandler.world :=
  match GitIgnoreHandler.readFault w with
  | None => w
  | Some _ =>
      {| GitIgnoreHandler.gitignore := None;
         GitIgnoreHandler.readFault := GitIgnoreHandler.readFault w;
         GitIgnoreHandler.statFault := GitIgnoreHandler.statFault w;
         GitIgnoreHandler.writeFault := GitIgnoreHandler.writeFault w;
         GitIgnoreHandler.writeCalls := GitIgnoreHandler.writeCalls w |}
  end.

(** The lines of a text: each line feed ends a line, and so does the end
    of a text that does not end in a line feed. *)
Fixpoint linesOf (s : string) : list string :=
  match s with
  | EmptyString => []
  | String a r =>
      if Ascii.eqb a JS.LF then EmptyString :: linesOf r
      else match linesOf r with
           | l :: ls => String a l :: ls
           | [] => [String a EmptyString]
           end
  end.

(** A line that holds a pattern: not blank, not a comment. *)
Definition PatternLine (line : string) : Prop :=
  JS.trim line <> "" /\ ~ IsPrefix "#" (JS.trim line).

(** The normalized pattern [x] is present in the text [c]. *)
Definition Listed (c x : string) : Prop :=
  exists line, line ∈ JS.split c /\ PatternLine line
               /\ GitIgnoreHandler.normalizePattern line = x.

(** A pattern that, written on a line of its own, is read back as a
    pattern. *)
Definition ProperPattern (p : string) : Prop :=
  PatternLine p /\ ~ Contains p (String JS.LF "").

(** The text [addPatterns] starts from when it has read the file of
    [w], closed by a line feed, and the text it writes for the rules
    [toAdd]. *)
Definition currentContentOf (w : GitIgnoreHandler.world) : string :=
  if negb (String.eqb (content w) "")
     && negb (JS.endsWithChar (content w) JS.LF)
  then content w +:+ String JS.LF ""
  else content w.

Definition newContentOf (frameworkName : option string)
    (toAdd : list GitIgnoreRule) (w : GitIgnoreHandler.world) : string :=
  currentContentOf w
  +:+ JS.join ((if String.eqb (JS.trim (currentContentOf w)) "" then [] else [""])
               ++ [GitIgnoreHandler.header frameworkName]
               ++ (toAdd ≫= GitIgnoreHandler.ruleLines))
  +:+ String JS.LF "".

(** *** Bursts of creation events *)

(** Every event of the burst arrives less than the debounce delay after
    the one before it. *)
Fixpoint closeGaps (events : list (nat * FileWatcher.RiskyFileEvent)) : Prop :=
  match events with
  | e1 :: (e2 :: _) as rest =>
      e1.1 <= e2.1 /\ e2.1 < e1.1 + FileWatcher.debounceDelay /\ closeGaps rest
  | _ => True
  end.

(** The notification a flush of [events] shows. *)
Definition notify (events : list FileWatcher.RiskyFileEvent) : FileWatcher.notification :=
  match events with
  | [event] => FileWatcher.Single event
  | _ => FileWatcher.Batch events
  end.

(** When the last event of a burst that starts with [e0] arrives. *)
Definition lastTime (e0 : nat * FileWatcher.RiskyFileEvent)
    (rest : list (nat * FileWatcher.RiskyFileEvent)) : nat :=
  (List.last rest e0).1.

(** *** Rules for detections *)

(** The elements of a list, each once, in the order of their first
    occurrence. *)
Fixpoint firstOccurrences {A} `{EqDecision A} (l : list A) : list A :=
  match l with
  | [] => []
  | x :: r => x :: filter (fun y => y <> x) (firstOccurrences r)
  end.

(** The first rule of each pattern, in order. *)
Fixpoint firstPerPattern (rs : list GitIgnoreRule) : list GitIgnoreRule :=
  match rs with
  | [] => []
  | r :: rest =>
      r :: filter (fun r' => pattern r' <> pattern r) (firstPerPattern rest)
  end.

(** What one ecosystem contributes: its base rules, then the rules of
    its detected frameworks in detection order. *)
Definition blockOf (catalog : RuleEngine.Catalog)
    (detections : list DetectedFramework) (c : RuleCategory) : list GitIgnoreRule :=
  RuleEngine.getRulesForCategory catalog c
  ++ (filter (fun d => ruleCategory d = c) detections
        ≫= fun d => RuleEngine.getFrameworkRules catalog c (id d)).

(** The candidate rules in the order the specification gives: ecosystem
    by ecosystem, in the order in which the ecosystems first appear among
    the detections. *)
Definition emitted (catalog : RuleEngine.Catalog)
    (detections : list DetectedFramework) : list GitIgnoreRule :=
  firstOccurrences (ruleCategory <$> detections) ≫= blockOf catalog detections.

(** The list-only reading of the loop body [pushUnseen]. *)
Definition addNew (all : list GitIgnoreRule) (rs : list GitIgnoreRule)
    : list GitIgnoreRule :=
  foldl (fun all r => if decide (pattern r ∈ pattern <$> all) then all else all ++ [r])
        all rs.

(** *** Deduplication *)

(** Among the detections of its framework, [k] is the first that none
    beats: none after it is better, none before it is better or as
    good. *)
Definition FirstBest (better tie : DetectedFramework -> DetectedFramework -> bool)
    (ds : list DetectedFramework) (k : DetectedFramework) : Prop :=
  exists pre post,
    ds = pre ++ k :: post
    /\ (forall d, d ∈ pre -> id d = id k -> better d k = false /\ tie d k = false)
    /\ (forall d, d ∈ post -> id d = id k -> better d k = false).

Definition moreConfident (d k : DetectedFramework) : bool :=
  (confidence k <? confidence d)%float.

Definition asConfident (d k : DetectedFramework) : bool :=
  (confidence d =? confidence k)%float.

Definition closerToRoot (d k : DetectedFramework) : bool :=
  bool_decide (Path.segments (detectedAt d) < Path.segments (detectedAt k)).

Definition asCloseToRoot (d k : DetectedFramework) : bool :=
  bool_decide (Path.segments (detectedAt d) = Path.segments (detectedAt k)).

(** The loop body both deduplications share: a detection replaces the
    one kept for its framework when it is better. *)
Definition keepBetter (better : DetectedFramework -> DetectedFramework -> bool)
    (byId : list (FrameworkId * DetectedFramework)) (d : DetectedFramework)
    : list (FrameworkId * DetectedFramework) :=
  match mapGet (id d) byId with
  | None => mapSet (id d) d byId
  | Some existing => if better d existing then mapSet (id d) d byId else byId
  end.

(** What [deduplicateDetections] and [deduplicateByProximity] promise
    about their result. *)
Definition Deduplicated (better tie : DetectedFramework -> DetectedFramework -> bool)
    (ds out : list DetectedFramework) : Prop :=
  NoDup (id <$> out)
  /\ (forall d, d ∈ ds -> exists k, k ∈ out /\ id k = id d)
  /\ (forall k, k ∈ out -> FirstBest better tie ds k).

(** *** Auxiliary notions of the proofs *)

(** What the replacements make of one character of a simple glob, with
    [star] the text a star becomes. *)
Definition encChar (star : string) (c : ascii) : string :=
  if Ascii.eqb c "."%char then "\."
  else if Ascii.eqb c "*"%char then star
  else String c "".

Fixpoint encode (star : string) (p : string) : string :=
  match p with
  | EmptyString => EmptyString
  | String a r => encChar star a +:+ encode star r
  end.

(** The tokens and the atoms of the expression of a simple glob, with
    [sc] the class a star repeats. *)
Fixpoint toks (sc : RegExp.cls) (p : string) : list RegExp.token :=
  match p with
  | EmptyString => []
  | String a r =>
      (if Ascii.eqb a "*"%char then [RegExp.TCls sc; RegExp.TStar]
       else [RegExp.TCls (RegExp.Lit a)]) ++ toks sc r
  end.

Fixpoint items (sc : RegExp.cls) (p : string) : list (RegExp.cls * RegExp.quant) :=
  match p with
  | EmptyString => []
  | String a r =>
      (if Ascii.eqb a "*"%char then (sc, RegExp.Star)
       else (RegExp.Lit a, RegExp.Once)) :: items sc r
  end.

(** The queue with one timeout set, due at [due], the entries [pending]
    waiting and the notifications [log] shown. *)
Definition Armed (st : FileWatcher.state)
    (pending : list (string * FileWatcher.RiskyFileEvent))
    (due : nat) (log : list FileWatcher.notification) : Prop :=
  FileWatcher.pendingNotifications st = pending
  /\ (exists h, FileWatcher.debounceTimer st = Some h
                /\ FileWatcher.timers st = [(h, due)])
  /\ FileWatcher.shown st = log.

(** Every event comes before the timeout set last is due. *)
Fixpoint within (due : nat) (events : list (nat * FileWatcher.RiskyFileEvent)) : Prop :=
  match events with
  | [] => True
  | e :: rest => e.1 < due /\ within (e.1 + FileWatcher.debounceDelay) rest
  end.

(** What the deduplication loop maintains after the detections [ds]. *)
Definition Kept (better tie : DetectedFramework -> DetectedFramework -> bool)
    (ds : list DetectedFramework)
    (byId : list (FrameworkId * DetectedFramework)) : Prop :=
  NoDup byId.*1
  /\ (forall i k, (i, k) ∈ byId -> id k = i /\ FirstBest better tie ds k)
  /\ (forall d, d ∈ ds -> id d ∈ byId.*1).

(** Where a detection of the Node detector comes from, before the
    deduplication: the manifest [p] was read, and the detection is the
    one of Node.js or that of a framework the manifest depends on. *)
Definition FromManifest (ws : NodeDetector.workspace) (p : string)
    (d : DetectedFramework) : Prop :=
  exists packageJson,
    NodeDetector.readJsonFile ws p = Some (NodeDetector.Truthy packageJson)
    /\ (d = createDetection cat_node node "Node.js" p 0.8
        \/ exists framework,
             framework ∈ NodeDetector.frameworkPatterns
             /\ existsb (NodeDetector.hasKey (NodeDetector.allDepsOf packageJson))
                        (NodeDetector.fpDependencies framework) = true
             /\ d = createDetection cat_node (NodeDetector.fpId framework)
                      (NodeDetector.fpName framework) p
                      (NodeDetector.confidenceOf ws (Path.dirname p) framework)).

(** *** Sample inputs *)

Definition sampleRule (p : string) (s : RuleSeverity) (why : string) : GitIgnoreRule :=
  {| pattern := p; severity := s; reason := why |}.

Definition sampleRules : list GitIgnoreRule :=
  [sampleRule "node_modules/" recommended "Dependencies";
   sampleRule ".env" critical "Environment variables"].

Definition sampleWorld : GitIgnoreHandler.world :=
  {| GitIgnoreHandler.gitignore := Some "dist";
     GitIgnoreHandler.readFault := None;
     GitIgnoreHandler.statFault := None;
     GitIgnoreHandler.writeFault := None;
     GitIgnoreHandler.writeCalls := 0 |}.


Definition sampleEvent (path : string) : FileWatcher.RiskyFileEvent :=
  {| FileWatcher.filePath := path; FileWatcher.matchedPattern := ".env";
     FileWatcher.rule := sampleRule ".env" critical "Environment variables" |}.

Definition sampleCatalog : RuleEngine.Catalog :=
  {| RuleEngine.nodeRules :=
       {| RuleEngine.rules :=
            [sampleRule "node_modules/" recommended "Dependencies";
             sampleRule ".env" critical "Environment variables"];
          RuleEngine.frameworks :=
            Some {[ "react" := [sampleRule "build/" recommended "Build output";
                                sampleRule "coverage/" recommended "Jest coverage"] ]} |};
     RuleEngine.pythonRules :=
       {| RuleEngine.rules :=
            [sampleRule "__pycache__/" recommended "Bytecode";
             sampleRule "coverage/" optional "Coverage reports";
             sampleRule ".env" critical "Environment variables"];
          RuleEngine.frameworks := None |};
     RuleEngine.javaRules :=
       {| RuleEngine.rules := []; RuleEngine.frameworks := None |} |}.

Definition sampleDetections : list DetectedFramework :=
  [createDetection cat_node react "React" "package.json" 0.85;
   createDetection cat_python python "Python" "requirements.txt" 0.8].

(** A project with [next] among its dependencies and a
    [next.config.js] at its root. *)
Definition nextPackageJson : NodeDetector.PackageJson :=
  {| NodeDetector.dependencies := Some {[ "next" := "^14.0" ]};
     NodeDetector.devDependencies := None |}.

Definition nextWorkspace : NodeDetector.workspace :=
  {| NodeDetector.packageJsons := ["package.json"];
     NodeDetector.readJsonFile := fun p =>
       if String.eqb p "package.json"
       then Some (NodeDetector.Truthy nextPackageJson) else None;
     NodeDetector.fileExists := fun p => String.eqb p "next.config.js" |}.

(** ** Notions for the scanner and the rule engine *)

(** [x] is the first element of [xs] that the test accepts: the test
    rejects the elements before it. *)
Definition FirstMatch {A} (matches : A -> option bool) (xs : list A) (x : A) : Prop :=
  exists pre post,
    xs = pre ++ x :: post
    /\ (forall y, y ∈ pre -> matches y = Some false)
    /\ matches x = Some true.

(** The stricter of two severities. *)
Definition stricter (a b : RuleSeverity) : RuleSeverity :=
  if decide (RuleEngine.severityIndex a <= RuleEngine.severityIndex b) then a else b.

(** The pattern of [rule], less one trailing slash, occurs in [path]. *)
Definition OccursIn (path : string) (rule : GitIgnoreRule) : Prop :=
  Contains path (JS.stripSlash (pattern rule)).

(** The path and the name the scanner tests for a staged change, and
    the warning it makes of a change and the rule that matches it. *)
Definition stagedPath (change : CommitScanner.Change) : string :=
  JS.replaceChar JS.backslash "/" (CommitScanner.relativeToRoot change).

Definition stagedName (change : CommitScanner.Change) : string :=
  JS.basename (CommitScanner.fsPath change).

Definition warningOf (change : CommitScanner.Change) (rule : GitIgnoreRule)
    : StagedFileWarning.t :=
  {| StagedFileWarning.filePath := stagedPath change;
     StagedFileWarning.matchedPattern := pattern rule;
     StagedFileWarning.severity := severity rule;
     StagedFileWarning.reason := reason rule |}.

(** The scanner's test of a rule on a staged change. *)
Definition stagedTest (change : CommitScanner.Change) (rule : GitIgnoreRule)
    : option bool :=
  CommitScanner.matchesPattern (stagedPath change) (stagedName change) (pattern rule).

(** A repository with three staged files. *)
Definition sampleRepository : CommitScanner.Repository :=
  {| CommitScanner.rootPath := "/work/app";
     CommitScanner.indexChanges :=
       [{| CommitScanner.fsPath := "/work/app/src/app.ts";
           CommitScanner.relativeToRoot := "src/app.ts" |};
        {| CommitScanner.fsPath := "/work/app/.env.local";
           CommitScanner.relativeToRoot := ".env.local" |};
        {| CommitScanner.fsPath := "/work/app/node_modules/x/index.js";
           CommitScanner.relativeToRoot := "node_modules/x/index.js" |}] |}.

Definition cleanRepository : CommitScanner.Repository :=
  {| CommitScanner.rootPath := "/work/lib";
     CommitScanner.indexChanges :=
       [{| CommitScanner.fsPath := "/work/lib/index.ts";
           CommitScanner.relativeToRoot := "index.ts" |}] |}.

Definition sampleWarnings : list StagedFileWarning.t :=
  [{| StagedFileWarning.filePath := ".env.local";
      StagedFileWarning.matchedPattern := ".env";
      StagedFileWarning.severity := critical;
      StagedFileWarning.reason := "Environment variables" |};
   {| StagedFileWarning.filePath := "node_modules/x/index.js";
      StagedFileWarning.matchedPattern := "node_modules/";
      StagedFileWarning.severity := recommended;
      StagedFileWarning.reason := "Dependencies" |}].

(** ** Notions for the ignore file *)

(** The listed pattern [x] makes [isIgnored] accept [path]: it occurs in
    the path, or it holds a star and the base name or the path is an
    instance of the glob whose stars stand for any characters of one
    line. *)
Definition IgnoredBy (path x : string) : Prop :=
  Contains path x
  \/ (Contains x "*"
      /\ (gmatch (crossTokens x) (JS.basename path) = true
          \/ gmatch (crossTokens x) path = true)).

(** The lines [create] writes into a new file: the header, then one
    block for each severity that has rules. *)
Definition createdBlock (title : string) (body : list string) : list string :=
  match body with
  | [] => []
  | _ :: _ => [title] ++ body ++ [""]
  end.

Definition createdLines (rules : list GitIgnoreRule)
    (detections : list DetectedFramework) (now : string) : list string :=
  ["# GitGuard - Auto-generated .gitignore";
   "# Detected frameworks: " +:+ JS.joinWith ", " (name <$> detections);
   "# Generated on: " +:+ now;
   ""]
  ++ createdBlock "# === Critical (Security) ==="
       (filter (fun r => severity r = critical) rules
          ≫= fun rule => ["# " +:+ reason rule; pattern rule])
  ++ createdBlock "# === Recommended ==="
       (pattern <$> filter (fun r => severity r = recommended) rules)
  ++ createdBlock "# === Optional ==="
       (pattern <$> filter (fun r => severity r = optional) rules).

(** An ignore file with a directory, a glob and a comment. *)
Definition sampleIgnoreFile : GitIgnoreHandler.world :=
  {| GitIgnoreHandler.gitignore :=
       Some ("node_modules/" +:+ String JS.LF ("# logs" +:+ String JS.LF "*.log"));
     GitIgnoreHandler.readFault := None;
     GitIgnoreHandler.statFault := None;
     GitIgnoreHandler.writeFault := None;
     GitIgnoreHandler.writeCalls := 0 |}.

(** ** Notions for the queue of the watcher *)



(** An event for [path] whose rule has the pattern [pat]. *)
Definition sampleEventFor (path pat : string) : FileWatcher.RiskyFileEvent :=
  {| FileWatcher.filePath := path; FileWatcher.matchedPattern := pat;
     FileWatcher.rule := sampleRule pat critical "Secrets" |}.

(** ** Notions for the detectors *)

(** [p] is the first of the paths [ps] with the fewest segments. *)
Definition Shallowest (ps : list string) (p : string) : Prop :=
  exists pre post,
    ps = pre ++ p :: post
    /\ (forall q, q ∈ pre -> Path.segments p < Path.segments q)
    /\ (forall q, q ∈ post -> Path.segments p <= Path.segments q).

(** The name the Java detector gives to a Gradle build file. *)
Definition gradleName (p : string) : string :=
  if JS.endsWith p ".kts" then "Gradle (Kotlin DSL)" else "Gradle".

(** [n] is the run of name characters the text [t] starts with: what
    follows it, if anything, starts with another character. *)
Definition NamePrefix (t n : string) : Prop :=
  exists rest,
    t = n +:+ rest
    /\ (forall c, c ∈ String.list_ascii_of_string n -> PythonDetector.nameChar c = true)
    /\ match rest with
       | String c _ => PythonDetector.nameChar c = false
       | EmptyString => True
       end.

(** The workspace shows a Python project: a requirements file, a
    pyproject.toml or a Python source file was found. *)
Definition IsPythonProject (ws : PythonDetector.workspace) : Prop :=
  PythonDetector.requirementFiles ws <> []
  \/ (exists p, PythonDetector.pyprojectToml ws = Some p /\ p <> "")
  \/ PythonDetector.hasPythonSourceFiles ws = true.

(** Where the Python detector says it found the project. *)
Definition detectionSourceOf (ws : PythonDetector.workspace) : string :=
  match PythonDetector.requirementFiles ws with
  | first :: _ => first
  | [] =>
      match PythonDetector.pyprojectToml ws with
      | Some p => if String.eqb p "" then "*.py files" else p
      | None => "*.py files"
      end
  end.

(** A package whose name in lower case is [x] is listed in a
    requirements file or in the pyproject.toml of the workspace. *)
Definition PackageListed (ws : PythonDetector.workspace) (x : string) : Prop :=
  (exists r n, r ∈ PythonDetector.requirementFiles ws
               /\ n ∈ PythonDetector.parseRequirementsTxt ws r
               /\ JS.toLowerCase n = x)
  \/ (exists p n, PythonDetector.pyprojectToml ws = Some p /\ p <> ""
                  /\ n ∈ PythonDetector.parsePyprojectToml ws p
                  /\ JS.toLowerCase n = x).

(** A workspace with one requirements file and no manage.py. *)
Definition samplePythonWorkspace : PythonDetector.workspace :=
  {| PythonDetector.requirementFiles := ["requirements.txt"];
     PythonDetector.pyprojectToml := None;
     PythonDetector.hasPythonSourceFiles := true;
     PythonDetector.readFile := fun p =>
       if String.eqb p "requirements.txt"
       then Some ("# web" +:+ String JS.LF
                  ("Django>=4.2" +:+ String JS.LF
                   ("-r base.txt" +:+ String JS.LF "gunicorn")))
       else None;
     PythonDetector.parsePyprojectToml := fun _ => [];
     PythonDetector.fileExists := fun _ => false |}.

(** ** Notions for the detection engine *)

(** The body of the loop of [detectAll]. *)
Definition engineStep (detectors : list DetectionEngine.Detector) (forceRefresh : bool)
    (st : list DetectedFramework * DetectionEngine.Cache) (cacheKey : string)
    : list DetectedFramework * DetectionEngine.Cache :=
  match (if forceRefresh then None else mapGet cacheKey st.2) with
  | Some hit => (st.1 ++ hit, st.2)
  | None =>
      (st.1 ++ DetectionEngine.runDetectors detectors cacheKey,
       mapSet cacheKey (DetectionEngine.runDetectors detectors cacheKey) st.2)
  end.

(** ** Notions for the watcher session *)

(** What happens to a watcher session: a file is created, the user
    answers a warning, the watcher is started again or given other
    rules. *)
Inductive action :=
  | FileCreated (now : nat) (file : WatcherSession.Created)
  | SingleAnswered (hasFolder : bool) (answer : option string)
      (event : FileWatcher.RiskyFileEvent)
  | BatchAnswered (hasFolder : bool) (answer : option string)
      (events : list FileWatcher.RiskyFileEvent)
  | Started (rules : list GitIgnoreRule)
  | RulesUpdated (rules : list GitIgnoreRule).

Definition step (a : action) (s : WatcherSession.session)
    : GitIgnoreHandler.M (option WatcherSession.session) :=
  match a with
  | FileCreated now file => WatcherSession.handleFileCreated now file s
  | SingleAnswered hasFolder answer event =>
      GitIgnoreHandler.bind
        (WatcherSession.showSingleNotification hasFolder answer event s)
        (fun s' => GitIgnoreHandler.ret (Some s'))
  | BatchAnswered hasFolder answer events =>
      GitIgnoreHandler.bind
        (WatcherSession.showBatchNotification hasFolder answer events s)
        (fun s' => GitIgnoreHandler.ret (Some s'))
  | Started rules => GitIgnoreHandler.ret (Some (WatcherSession.start rules s))
  | RulesUpdated rules =>
      GitIgnoreHandler.ret (Some (WatcherSession.updateRules rules s))
  end.

Fixpoint steps (actions : list action) (s : WatcherSession.session)
    : GitIgnoreHandler.M (option WatcherSession.session) :=
  match actions with
  | [] => GitIgnoreHandler.ret (Some s)
  | a :: rest =>
      GitIgnoreHandler.bind (step a s)
        (fun r => match r with
                  | Some s' => steps rest s'
                  | None => GitIgnoreHandler.ret None
                  end)
  end.

(** The path and the name the watcher tests for a created file that
    lies in a workspace folder. *)
Definition createdPath (relativePath : string) : string :=
  JS.replaceChar JS.backslash "/" relativePath.

(** [e] is the first of [events] that matched the pattern [p]. *)
Definition FirstFor (events : list FileWatcher.RiskyFileEvent) (p : string)
    (e : FileWatcher.RiskyFileEvent) : Prop :=
  exists pre post,
    events = pre ++ e :: post
    /\ FileWatcher.matchedPattern e = p
    /\ forall x, x ∈ pre -> FileWatcher.matchedPattern x <> p.

(** A session that watches for the sample rules, and a file created
    in the folder [app]. *)
Definition sampleSession : WatcherSession.session :=
  {| WatcherSession.activeRules := sampleRules;
     WatcherSession.permanentlyDismissed := ∅;
     WatcherSession.sessionSuppressed := ∅;
     WatcherSession.suppressedWarnings := [];
     WatcherSession.queue := FileWatcher.started |}.


(** * Proofs *)

Local Arguments String.append : simpl nomatch.

(** ** Facts about strings *)

Local Arguments String.append : simpl nomatch.


Lemma sapp_nil_r (s : string) : s +:+ "" = s.
Proof. induction s; simpl; [done | by f_equal]. Qed.

Lemma sapp_assoc (a b c : string) : (a +:+ b) +:+ c = a +:+ b +:+ c.
Proof. induction a; simpl; [done | by f_equal]. Qed.

Lemma prefix_spec (p s : string) : String.prefix p s = true <-> IsPrefix p s.
Proof.
  revert s. induction p as [|c p IH]; intros s; simpl.
  - split; [intros _; by exists s | by destruct s].
  - destruct s as [|d s]; simpl.
    + split; [done | intros [t Ht]; discriminate].
    + destruct (ascii_dec c d) as [->|Hne].
      * rewrite IH. split; intros [t Ht]; exists t; simpl in *; congruence.
      * split; [done | intros [t Ht]; simpl in Ht; congruence].
Qed.

Lemma includes_nil (sub : string) :
  JS.includes "" sub = String.prefix sub "".
Proof. unfold JS.includes. by rewrite orb_false_r. Qed.

Lemma includes_cons (c : ascii) (s sub : string) :
  JS.includes (String c s) sub = String.prefix sub (String c s) || JS.includes s sub.
Proof. reflexivity. Qed.

Lemma includes_spec (s sub : string) : JS.includes s sub = true <-> Contains s sub.
Proof.
  induction s as [|c s IH].
  - rewrite includes_nil, prefix_spec. split.
    + intros [t Ht]. exists "", t. done.
    + intros [u [v H]]. destruct u; simpl in H.
      * by exists v.
      * discriminate.
  - rewrite includes_cons, orb_true_iff, prefix_spec, IH. split.
    + intros [[t Ht] | [u [v H]]].
      * exists "", t. done.
      * exists (String c u), v. simpl. by f_equal.
    + intros [u [v H]]. destruct u as [|d u]; simpl in H.
      * left. by exists v.
      * right. exists u, v. congruence.
Qed.

Lemma starFree_includes (p : string) : StarFree p -> JS.includes p "*" = false.
Proof.
  intros H. destruct (JS.includes p "*") eqn:E; [|done].
  apply includes_spec in E. contradiction.
Qed.

Lemma stripSlash_dir (p : string) :
  JS.endsWithChar p "/"%char = true -> JS.dropLast p = JS.stripSlash p.
Proof. intros H. unfold JS.stripSlash. by rewrite H. Qed.

Lemma contains_mid (f a n b : string) :
  Contains f (a +:+ n +:+ b) -> Contains f n.
Proof.
  intros [u [v H]]. exists (u +:+ a), (b +:+ v).
  rewrite H, !sapp_assoc. done.
Qed.

Lemma prefix_contains (f n b : string) :
  IsPrefix (n +:+ b) f -> Contains f n.
Proof.
  intros [t H]. exists "", (b +:+ t). rewrite H, !sapp_assoc. done.
Qed.

Ltac bool_cases :=
  repeat match goal with
  | |- context [String.eqb ?a ?b] =>
      let E := fresh "E" in
      destruct (String.eqb a b) eqn:E;
      [apply String.eqb_eq in E | apply String.eqb_neq in E]
  | |- context [JS.startsWith ?a ?b] =>
      let E := fresh "E" in
      destruct (JS.startsWith a b) eqn:E;
      [apply prefix_spec in E
      | assert (~ IsPrefix b a) by (rewrite <- prefix_spec; unfold JS.startsWith in E; congruence); clear E]
  | |- context [JS.includes ?a ?b] =>
      let E := fresh "E" in
      destruct (JS.includes a b) eqn:E;
      [apply includes_spec in E
      | assert (~ Contains a b) by (rewrite <- includes_spec; congruence); clear E]
  end.


Lemma watcher_star_free (f b p : string) :
  StarFree p ->
  (FileWatcher.matchesPattern f b p = Some true
   \/ FileWatcher.matchesPattern f b p = Some false)
  /\ (FileWatcher.matchesPattern f b p = Some true <->
      b = JS.stripSlash p
      \/ (JS.stripSlash p = ".env" /\ IsPrefix ".env." b)
      \/ Contains f ("/" +:+ JS.stripSlash p +:+ "/")
      \/ IsPrefix (JS.stripSlash p +:+ "/") f).
Proof.
  intros Hp. unfold FileWatcher.matchesPattern.
  rewrite (starFree_includes p Hp). cbv zeta.
  bool_cases; simpl; (split; [first [by left | by right] | split; [intros; try discriminate; try tauto | intros; try done]]).
  all: intuition congruence.
Qed.

Lemma scanner_star_free (f b p : string) :
  StarFree p ->
  (CommitScanner.matchesPattern f b p = Some true
   \/ CommitScanner.matchesPattern f b p = Some false)
  /\ (CommitScanner.matchesPattern f b p = Some true <->
      b = JS.stripSlash p
      \/ f = JS.stripSlash p
      \/ IsPrefix (JS.stripSlash p +:+ "/") f
      \/ Contains f ("/" +:+ JS.stripSlash p +:+ "/")
      \/ (p = ".env" /\ IsPrefix ".env." b)).
Proof.
  intros Hp. unfold CommitScanner.matchesPattern.
  rewrite (starFree_includes p Hp). cbv zeta.
  bool_cases; simpl; (split; [first [by left | by right] | split; [intros; try discriminate; try tauto | intros; try done]]).
  all: try (intuition congruence).
  all: subst; exfalso; intuition (try congruence).
Qed.

Lemma engine_star_free (f b p : string) :
  StarFree p ->
  (RuleEngine.matchesPattern f b p = Some true
   \/ RuleEngine.matchesPattern f b p = Some false)
  /\ (RuleEngine.matchesPattern f b p = Some true <->
      b = JS.stripSlash p \/ Contains f (JS.stripSlash p)).
Proof.
  intros Hp. unfold RuleEngine.matchesPattern.
  rewrite (starFree_includes p Hp). cbv zeta.
  destruct (JS.endsWithChar p "/") eqn:Hd.
  - rewrite (stripSlash_dir p Hd).
    bool_cases; simpl; (split; [first [by left | by right] | split; [intros; try discriminate; try tauto | intros; try done]]).
    all: try (intuition congruence).
    all: exfalso; eauto using contains_mid, prefix_contains.
  - bool_cases; simpl; (split; [first [by left | by right] | split; [intros; try discriminate; try tauto | intros; try done]]).
    all: intuition congruence.
Qed.

Lemma stripSlashes_prefix (s : string) : IsPrefix (JS.stripSlashes s) s.
Proof.
  induction s as [|a r [t IH]]; [by exists ""|].
  simpl. destruct (Ascii.eqb a "/"%char && String.eqb (JS.stripSlashes r) "").
  - by eexists.
  - exists t. simpl. by f_equal.
Qed.

Lemma lastSegment_suffix (s : string) : exists u, s = u +:+ JS.lastSegment s.
Proof.
  induction s as [|a r [u IH]]; [by exists ""|].
  simpl. destruct (JS.includes r "/").
  - exists (String a u). simpl. by f_equal.
  - destruct (Ascii.eqb a "/"%char) eqn:E.
    + apply Ascii.eqb_eq in E as ->. by exists "/".
    + by exists "".
Qed.

Lemma basename_contained (f : string) : Contains f (JS.basename f).
Proof.
  unfold JS.basename.
  destruct (stripSlashes_prefix f) as [t Ht].
  destruct (lastSegment_suffix (JS.stripSlashes f)) as [u Hu].
  exists u, t. rewrite <- sapp_assoc, <- Hu. done.
Qed.

Lemma contains_prefix_of (f b p : string) :
  Contains f b -> IsPrefix p b -> Contains f p.
Proof.
  intros [u [v H]] [t Ht]. exists u, (t +:+ v).
  rewrite H, Ht, !sapp_assoc. done.
Qed.

Lemma starFree_dotenv : StarFree ".env".
Proof. unfold StarFree. rewrite <- includes_spec. by vm_compute. Qed.

(** Claim C1, as amended. With the pattern [.env], a file whose base
    name is [.env] or starts with [.env.] matches in the scanner, in the
    watcher and in the rule engine. A file whose base name is
    [.environment] and that lies in no directory called [.env] matches
    neither in the scanner nor in the watcher. (The rule engine is left
    out of the second half: it matches every path in which [.env]
    occurs.) *)
Theorem dotenv_family (f : string) :
  (JS.basename f = ".env" \/ IsPrefix ".env." (JS.basename f) ->
   CommitScanner.matchesPattern f (JS.basename f) ".env" = Some true
   /\ FileWatcher.matchesPattern f (JS.basename f) ".env" = Some true
   /\ RuleEngine.matchesPattern f (JS.basename f) ".env" = Some true)
  /\ (JS.basename f = ".environment" ->
      ~ IsPrefix ".env/" f -> ~ Contains f "/.env/" ->
      CommitScanner.matchesPattern f (JS.basename f) ".env" = Some false
      /\ FileWatcher.matchesPattern f (JS.basename f) ".env" = Some false).
Proof.
  pose proof (scanner_star_free f (JS.basename f) ".env" starFree_dotenv) as [Hs1 Hs2].
  pose proof (watcher_star_free f (JS.basename f) ".env" starFree_dotenv) as [Hw1 Hw2].
  pose proof (engine_star_free f (JS.basename f) ".env" starFree_dotenv) as [_ He2].
  change (JS.stripSlash ".env") with ".env" in *.
  change (".env" +:+ "/") with ".env/" in *.
  change ("/" +:+ ".env/") with "/.env/" in *.
  split.
  - intros H. split; [|split].
    + apply Hs2. destruct H; [by left | by do 4 right].
    + apply Hw2. destruct H; [by left | by right; left].
    + apply He2. destruct H as [H|H]; [by left | right].
      eapply contains_prefix_of; [apply basename_contained|].
      destruct H as [t Ht]. exists ("." +:+ t). by rewrite Ht.
  - intros Hb Hp Hc.
    assert (Hne : ~ IsPrefix ".env." (JS.basename f)).
    { rewrite Hb, <- prefix_spec. by vm_compute. }
    assert (Hf : f <> ".env").
    { intros ->. vm_compute in Hb. discriminate. }
    split.
    + destruct Hs1 as [Hs1|Hs1]; [|done]. apply Hs2 in Hs1.
      rewrite Hb in Hs1. intuition (try congruence); discriminate.
    + destruct Hw1 as [Hw1|Hw1]; [|done]. apply Hw2 in Hw1.
      rewrite Hb in Hw1. intuition (try congruence); discriminate.
Qed.

(** Claim C1: [config/.env.production] matches [.env] in the three
    matchers; [src/.environment] does not in the scanner and the watcher. *)
Lemma dotenv_family_witness :
  (CommitScanner.matchesPattern "config/.env.production" (JS.basename "config/.env.production") ".env" = Some true
   /\ FileWatcher.matchesPattern "config/.env.production" (JS.basename "config/.env.production") ".env" = Some true
   /\ RuleEngine.matchesPattern "config/.env.production" (JS.basename "config/.env.production") ".env" = Some true)
  /\ (CommitScanner.matchesPattern "src/.environment" (JS.basename "src/.environment") ".env" = Some false
      /\ FileWatcher.matchesPattern "src/.environment" (JS.basename "src/.environment") ".env" = Some false).
Proof.
  split.
  - apply (proj1 (dotenv_family "config/.env.production")).
    right. exists "production". reflexivity.
  - apply (proj2 (dotenv_family "src/.environment")).
    + reflexivity.
    + rewrite <- prefix_spec. vm_compute. discriminate.
    + rewrite <- includes_spec. vm_compute. discriminate.
Defined.

(** Claim C1 as stated fails: the rule engine matches [.environment]
    against [.env]. *)
Lemma dotenv_engine_counterexample :
  JS.basename ".environment" = ".environment"
  /\ RuleEngine.matchesPattern ".environment" (JS.basename ".environment") ".env" = Some true.
Proof. by vm_compute. Qed.

(** Claim C2, as amended. For a pattern [p] without a star, with [n]
    the pattern less one trailing slash, each matcher returns, and
    - the watcher returns true exactly when the base name is [n], or [n]
      is [.env] and the base name starts with [.env.], or the path
      contains [/n/], or the path starts with [n/];
    - the scanner returns true exactly when the base name is [n], or the
      path is [n], or the path starts with [n/], or the path contains
      [/n/], or [p] is [.env] and the base name starts with [.env.];
    - the rule engine returns true exactly when the base name is [n] or
      [n] occurs in the path. *)
Theorem star_free_matching (f b p : string) :
  StarFree p ->
  (FileWatcher.matchesPattern f b p = Some true <->
     b = JS.stripSlash p
     \/ (JS.stripSlash p = ".env" /\ IsPrefix ".env." b)
     \/ Contains f ("/" +:+ JS.stripSlash p +:+ "/")
     \/ IsPrefix (JS.stripSlash p +:+ "/") f)
  /\ (CommitScanner.matchesPattern f b p = Some true <->
        b = JS.stripSlash p
        \/ f = JS.stripSlash p
        \/ IsPrefix (JS.stripSlash p +:+ "/") f
        \/ Contains f ("/" +:+ JS.stripSlash p +:+ "/")
        \/ (p = ".env" /\ IsPrefix ".env." b))
  /\ (RuleEngine.matchesPattern f b p = Some true <->
        b = JS.stripSlash p \/ Contains f (JS.stripSlash p))
  /\ (FileWatcher.matchesPattern f b p = Some true
      \/ FileWatcher.matchesPattern f b p = Some false)
  /\ (CommitScanner.matchesPattern f b p = Some true
      \/ CommitScanner.matchesPattern f b p = Some false)
  /\ (RuleEngine.matchesPattern f b p = Some true
      \/ RuleEngine.matchesPattern f b p = Some false).
Proof.
  intros Hp.
  destruct (watcher_star_free f b p Hp) as [? ?].
  destruct (scanner_star_free f b p Hp) as [? ?].
  destruct (engine_star_free f b p Hp) as [? ?].
  tauto.
Qed.

(** Claim C2: a file below [node_modules/]. *)
Lemma star_free_matching_witness :
  FileWatcher.matchesPattern "node_modules/x.js" "x.js" "node_modules/" = Some true
  /\ CommitScanner.matchesPattern "node_modules/x.js" "x.js" "node_modules/" = Some true
  /\ RuleEngine.matchesPattern "node_modules/x.js" "x.js" "node_modules/" = Some true.
Proof.
  assert (Hp : StarFree "node_modules/").
  { unfold StarFree. rewrite <- includes_spec. vm_compute. discriminate. }
  pose proof (star_free_matching "node_modules/x.js" "x.js" "node_modules/" Hp)
    as (Hw & Hs & He & _).
  split; [|split].
  - apply Hw. do 3 right. by exists "x.js".
  - apply Hs. do 2 right. left. by exists "x.js".
  - apply He. right. by exists "", "/x.js".
Defined.

(** Claim C2 as stated fails in four ways: the carve-out for [.env] in
    the watcher, the trailing slash of a pattern, the whole path as a
    pattern in the scanner, and a pattern that occurs inside a name in
    the rule engine. *)
Lemma star_free_counterexample :
  (JS.includes ".env" "*" = false
   /\ FileWatcher.matchesPattern ".env.local" (JS.basename ".env.local") ".env" = Some true
   /\ specStarFreeMatch ".env.local" ".env" = false)
  /\ (JS.includes "node_modules/" "*" = false
      /\ FileWatcher.matchesPattern "node_modules/x.js" (JS.basename "node_modules/x.js")
           "node_modules/" = Some true
      /\ specStarFreeMatch "node_modules/x.js" "node_modules/" = false)
  /\ (JS.includes "config/app.json" "*" = false
      /\ CommitScanner.matchesPattern "config/app.json" (JS.basename "config/app.json")
           "config/app.json" = Some true
      /\ specStarFreeMatch "config/app.json" "config/app.json" = false)
  /\ (JS.includes "env" "*" = false
      /\ RuleEngine.matchesPattern "src/environment.ts" (JS.basename "src/environment.ts")
           "env" = Some true
      /\ specStarFreeMatch "src/environment.ts" "env" = false).
Proof. by vm_compute. Qed.

(** ** From a glob to its regular expression *)

Lemma replaceChar_app (c : ascii) (by_ a b : string) :
  JS.replaceChar c by_ (a +:+ b) = JS.replaceChar c by_ a +:+ JS.replaceChar c by_ b.
Proof.
  induction a as [|x a IH]; simpl; [done|].
  by rewrite IH, sapp_assoc.
Qed.

Lemma replaceStarStar_skip (by_ : string) (a : ascii) (r : string) :
  a <> "*"%char ->
  JS.replaceStarStar by_ (String a r) = String a (JS.replaceStarStar by_ r).
Proof.
  intros Ha. simpl. destruct r as [|b r]; [done|].
  destruct (Ascii.eqb_spec a "*"%char) as [->|_]; [done|]. done.
Qed.

Lemma simpleGlob_tail (a : ascii) (r : string) :
  simpleGlob (String a r) = true -> simpleGlob r = true.
Proof. simpl. intros H. by repeat (apply andb_prop in H as [H ?]). Qed.

Lemma simpleGlob_head (a : ascii) (r : string) :
  simpleGlob (String a r) = true -> plainChar a = true.
Proof. simpl. intros H. by repeat (apply andb_prop in H as [H ?]). Qed.

Lemma simpleGlob_no_pair (r : string) :
  simpleGlob (String "*" r) = true ->
  r = "" \/ exists b r', r = String b r' /\ b <> "*"%char.
Proof.
  simpl. intros H. destruct r as [|b r']; [by left|right].
  exists b, r'. split; [done|].
  apply andb_prop in H as [H _]. simpl in H.
  intros ->. discriminate.
Qed.

(** The pair replacement finds nothing to replace. *)
Lemma replaceStarStar_simple (by_ p : string) :
  simpleGlob p = true ->
  JS.replaceStarStar by_ (JS.replaceChar "." "\." p) = JS.replaceChar "." "\." p.
Proof.
  induction p as [|a r IH]; intros Hs; [done|].
  specialize (IH (simpleGlob_tail _ _ Hs)).
  change (JS.replaceChar "." "\." (String a r))
    with ((if Ascii.eqb a "."%char then "\." else String a "")
            +:+ JS.replaceChar "." "\." r).
  destruct (Ascii.eqb_spec a "."%char) as [->|Hdot].
  - change ("\." +:+ JS.replaceChar "." "\." r)
      with (String "\" (String "." (JS.replaceChar "." "\." r))).
    rewrite !replaceStarStar_skip by done. by rewrite IH.
  - change (String a "" +:+ JS.replaceChar "." "\." r)
      with (String a (JS.replaceChar "." "\." r)).
    destruct (Ascii.eqb_spec a "*"%char) as [->|Hstar].
    + destruct (simpleGlob_no_pair _ Hs) as [->|(b & r' & -> & Hb)]; [done|].
      revert IH.
      change (JS.replaceChar "." "\." (String b r'))
        with ((if Ascii.eqb b "."%char then "\." else String b "")
                +:+ JS.replaceChar "." "\." r').
      destruct (Ascii.eqb_spec b "."%char) as [->|Hbd].
      * change ("\." +:+ JS.replaceChar "." "\." r')
          with (String "\" (String "." (JS.replaceChar "." "\." r'))).
        intros IH. simpl in *. by rewrite IH.
      * change (String b "" +:+ JS.replaceChar "." "\." r')
          with (String b (JS.replaceChar "." "\." r')).
        intros IH.
        change (JS.replaceStarStar by_ (String "*" (String b (JS.replaceChar "." "\." r'))))
          with (if Ascii.eqb "*" "*" && Ascii.eqb b "*"
                then by_ +:+ JS.replaceStarStar by_ (JS.replaceChar "." "\." r')
                else String "*" (JS.replaceStarStar by_ (String b (JS.replaceChar "." "\." r')))).
        destruct (Ascii.eqb_spec b "*"%char) as [->|_]; [done|].
        simpl andb. cbv iota. by rewrite IH.
    + rewrite replaceStarStar_skip by done. by rewrite IH.
Qed.

Lemma replaceStar_dots (star p : string) :
  JS.replaceChar "*" star (JS.replaceChar "." "\." p) = encode star p.
Proof.
  induction p as [|a r IH]; [done|].
  change (JS.replaceChar "." "\." (String a r))
    with ((if Ascii.eqb a "."%char then "\." else String a "")
            +:+ JS.replaceChar "." "\." r).
  rewrite replaceChar_app, IH. simpl. unfold encChar. f_equal.
  destruct (Ascii.eqb_spec a "."%char) as [->|Hdot]; [done|].
  simpl. by rewrite sapp_nil_r.
Qed.

Ltac by_char a :=
  destruct a as [[] [] [] [] [] [] [] []]; try discriminate; try reflexivity.

Lemma replaceQuest_enc_scoped (a : ascii) :
  plainChar a = true ->
  JS.replaceChar "?" "." (encChar "[^/]*" a) = encChar "[^/]*" a.
Proof. intros H. by_char a. Qed.

Lemma replaceQuest_enc_cross (a : ascii) :
  plainChar a = true ->
  JS.replaceChar "?" "." (encChar ".*" a) = encChar ".*" a.
Proof. intros H. by_char a. Qed.

Lemma replaceQuest_encode (star p : string) :
  (forall a, plainChar a = true ->
     JS.replaceChar "?" "." (encChar star a) = encChar star a) ->
  simpleGlob p = true ->
  JS.replaceChar "?" "." (encode star p) = encode star p.
Proof.
  intros Hc. induction p as [|a r IH]; intros Hs; [done|].
  simpl. rewrite replaceChar_app, IH by (by eapply simpleGlob_tail).
  by rewrite Hc by (by eapply simpleGlob_head).
Qed.

Lemma lex_enc_scoped (a : ascii) (x : string) :
  plainChar a = true ->
  RegExp.lex (encChar "[^/]*" a +:+ x)
  = ((if Ascii.eqb a "*"%char then [RegExp.TCls RegExp.NotSlash; RegExp.TStar]
      else [RegExp.TCls (RegExp.Lit a)]) ++.) <$> RegExp.lex x.
Proof.
  intros H. by_char a.
  all: cbn; destruct (RegExp.lex x); reflexivity.
Qed.

Lemma lex_enc_cross (a : ascii) (x : string) :
  plainChar a = true ->
  RegExp.lex (encChar ".*" a +:+ x)
  = ((if Ascii.eqb a "*"%char then [RegExp.TCls RegExp.AnyChar; RegExp.TStar]
      else [RegExp.TCls (RegExp.Lit a)]) ++.) <$> RegExp.lex x.
Proof.
  intros H. by_char a.
  all: cbn; destruct (RegExp.lex x); reflexivity.
Qed.

Lemma lex_encode (star : string) (sc : RegExp.cls) (p x : string) :
  (forall a y, plainChar a = true ->
     RegExp.lex (encChar star a +:+ y)
     = ((if Ascii.eqb a "*"%char then [RegExp.TCls sc; RegExp.TStar]
         else [RegExp.TCls (RegExp.Lit a)]) ++.) <$> RegExp.lex y) ->
  simpleGlob p = true ->
  RegExp.lex (encode star p +:+ x) = (toks sc p ++.) <$> RegExp.lex x.
Proof.
  intros Hc. induction p as [|a r IH]; intros Hs.
  - simpl. by destruct (RegExp.lex x).
  - simpl. rewrite sapp_assoc, Hc by (by eapply simpleGlob_head).
    rewrite IH by (by eapply simpleGlob_tail).
    destruct (RegExp.lex x); simpl; [|done].
    by rewrite <- (assoc_L (++)).
Qed.

Lemma atoms_toks (sc : RegExp.cls) (p : string) (d : bool) :
  RegExp.atoms (toks sc p ++ (if d then [RegExp.TDollar] else []))
  = Some (items sc p, d).
Proof.
  induction p as [|a r IH].
  - by destruct d.
  - simpl. destruct (Ascii.eqb a "*"%char).
    + simpl. by rewrite IH.
    + simpl. destruct r as [|b r'].
      * by destruct d.
      * revert IH. simpl. destruct (Ascii.eqb b "*"%char); simpl; by intros ->.
Qed.

Lemma specTokens_simple (p : string) :
  simpleGlob p = true ->
  specTokens p = (fix go (p : string) : list gtoken :=
                    match p with
                    | EmptyString => []
                    | String a r => starOr notSlash a :: go r
                    end) p.
Proof.
  induction p as [|a r IH]; intros Hs; [done|].
  specialize (IH (simpleGlob_tail _ _ Hs)).
  simpl. destruct r as [|b r']; [done|].
  simpl in Hs. destruct (Ascii.eqb a "*"%char && Ascii.eqb b "*"%char).
  - rewrite andb_false_r in Hs. discriminate.
  - by rewrite IH.
Qed.

(** The compiled body accepts what the glob describes. *)
Lemma matchHere_scoped (p s : string) :
  simpleGlob p = true ->
  RegExp.matchHere (items RegExp.NotSlash p) true s = gmatch (specTokens p) s.
Proof.
  intros Hs. rewrite (specTokens_simple p Hs). clear Hs.
  revert s. induction p as [|a r IH]; intros s; [done|].
  simpl. unfold starOr. destruct (Ascii.eqb a "*"%char).
  - induction s as [|c s IHs]; simpl.
    + by rewrite IH.
    + simpl in IHs. rewrite IHs. by rewrite IH.
  - destruct s as [|c s]; [done|]. simpl. by rewrite IH.
Qed.

Lemma matchHere_cross (p s : string) :
  RegExp.matchHere (items RegExp.AnyChar p) true s = gmatch (crossTokens p) s.
Proof.
  revert s. induction p as [|a r IH]; intros s; [done|].
  simpl. unfold starOr. destruct (Ascii.eqb a "*"%char).
  - induction s as [|c s IHs]; simpl.
    + by rewrite IH.
    + simpl in IHs. rewrite IHs. by rewrite IH.
  - destruct s as [|c s]; [done|]. simpl. by rewrite IH.
Qed.

(** Without [$] the body may stop before the end of the text. *)
Lemma matchHere_open (b : list (RegExp.cls * RegExp.quant)) (s : string) :
  RegExp.matchHere b false s = true
  <-> exists v w, s = v +:+ w /\ RegExp.matchHere b true v = true.
Proof.
  revert s. induction b as [|[a q] r IH]; intros s.
  - simpl. split; [intros _; by exists "", s|done].
  - destruct q; simpl.
    + destruct s as [|c s].
      * split; [done|]. intros (v & w & Hs & Hv). by destruct v.
      * rewrite andb_true_iff, IH. split.
        -- intros [Hc (v & w & -> & Hv)]. exists (String c v), w.
           split; [done|]. by rewrite Hc.
        -- intros (v & w & Hs & Hv). destruct v as [|c' v]; [done|].
           simpl in Hs. injection Hs as -> ->.
           apply andb_prop in Hv as [Hc Hv]. eauto.
    + induction s as [|c s IHs].
      * rewrite orb_false_r, IH. split.
        -- intros (v & w & Hs & Hv). exists v, w. split; [done|].
           destruct v; [|done]. by rewrite orb_false_r.
        -- intros (v & w & Hs & Hv). destruct v; [|done].
           rewrite orb_false_r in Hv. by exists "", w.
      * rewrite orb_true_iff, andb_true_iff, IH, IHs. split.
        -- intros [(v & w & Hs & Hv) | [Hc (v & w & -> & Hv)]].
           ++ exists v, w. split; [done|]. destruct v; by rewrite Hv.
           ++ exists (String c v), w. split; [done|].
              rewrite Hc. simpl. rewrite orb_true_iff. by right.
        -- intros (v & w & Hs & Hv). destruct v as [|c' v].
           ++ rewrite orb_false_r in Hv. left. by exists "", w.
           ++ simpl in Hs. injection Hs as -> ->.
              apply orb_prop in Hv as [Hv|Hv].
              ** left. exists (String c' v), w. done.
              ** apply andb_prop in Hv as [Hc Hv]. right. eauto.
    + destruct s as [|c s].
      * simpl. rewrite IH. split.
        -- intros (v & w & Hs & Hv). exists v, w. split; [done|].
           by destruct v.
        -- intros (v & w & Hs & Hv). destruct v; [|done]. by exists "", w.
      * rewrite orb_true_iff, andb_true_iff, !IH. split.
        -- intros [[Hc (v & w & -> & Hv)] | (v & w & Hs & Hv)].
           ++ exists (String c v), w. split; [done|]. by rewrite Hc, Hv.
           ++ exists v, w. split; [done|]. destruct v; rewrite Hv; [done|].
              by rewrite orb_true_r.
        -- intros (v & w & Hs & Hv). destruct v as [|c' v].
           ++ right. by exists "", w.
           ++ simpl in Hs. injection Hs as -> ->.
              apply orb_prop in Hv as [Hv|Hv].
              ** apply andb_prop in Hv as [Hc Hv]. left. eauto.
              ** right. exists (String c' v), w. done.
Qed.

Lemma searchFrom_spec (b : list (RegExp.cls * RegExp.quant)) (d : bool) (s : string) :
  RegExp.searchFrom b d s = true
  <-> exists u t, s = u +:+ t /\ RegExp.matchHere b d t = true.
Proof.
  induction s as [|c s IH]; simpl.
  - rewrite orb_false_r. split.
    + intros H. by exists "", "".
    + intros (u & t & Hs & Ht). destruct u; [|done]. simpl in Hs. by subst.
  - rewrite orb_true_iff, IH. split.
    + intros [H | (u & t & -> & Ht)].
      * by exists "", (String c s).
      * by exists (String c u), t.
    + intros (u & t & Hs & Ht). destruct u as [|c' u]; simpl in Hs.
      * left. by subst.
      * injection Hs as -> ->. right. eauto.
Qed.

Lemma afterSlash_spec (b : list (RegExp.cls * RegExp.quant)) (d : bool) (s : string) :
  RegExp.afterSlash b d s = true
  <-> exists u v, s = u +:+ "/" +:+ v /\ RegExp.matchHere b d v = true.
Proof.
  induction s as [|c s IH]; simpl.
  - split; [done|]. intros (u & v & Hs & _). by destruct u.
  - rewrite orb_true_iff, andb_true_iff, IH. split.
    + intros [[Hc Hm] | (u & v & -> & Hv)].
      * apply Ascii.eqb_eq in Hc as ->. by exists "", s.
      * by exists (String c u), v.
    + intros (u & v & Hs & Hv). destruct u as [|c' u]; simpl in Hs.
      * injection Hs as -> ->. left. by rewrite Ascii.eqb_refl.
      * injection Hs as -> ->. right. eauto.
Qed.

Lemma scanner_source (p : string) :
  simpleGlob p = true ->
  CommitScanner.globToRegex p = "^" +:+ encode "[^/]*" p +:+ "$".
Proof.
  intros Hs. unfold CommitScanner.globToRegex.
  rewrite replaceStarStar_simple, replaceStar_dots by done.
  by rewrite replaceQuest_encode by auto using replaceQuest_enc_scoped.
Qed.

Lemma watcher_source (p : string) :
  simpleGlob p = true ->
  FileWatcher.regexSource p = "(^|/)" +:+ encode "[^/]*" p +:+ "$".
Proof.
  intros Hs. unfold FileWatcher.regexSource.
  by rewrite replaceStarStar_simple, replaceStar_dots by done.
Qed.

Lemma engine_source (p : string) :
  simpleGlob p = true ->
  RuleEngine.globToRegex p = encode ".*" p.
Proof.
  intros Hs. unfold RuleEngine.globToRegex. rewrite replaceStar_dots.
  by rewrite replaceQuest_encode by auto using replaceQuest_enc_cross.
Qed.

Lemma scanner_parse (p : string) :
  simpleGlob p = true ->
  RegExp.parse (CommitScanner.globToRegex p)
  = Some {| RegExp.start := RegExp.Caret;
            RegExp.body := items RegExp.NotSlash p;
            RegExp.dollar := true |}.
Proof.
  intros Hs. rewrite scanner_source by done. unfold RegExp.parse.
  change (RegExp.lex ("^" +:+ encode "[^/]*" p +:+ "$"))
    with (cons RegExp.TCaret <$> RegExp.lex (encode "[^/]*" p +:+ "$")).
  rewrite (lex_encode _ RegExp.NotSlash) by auto using lex_enc_scoped.
  change (RegExp.lex "$") with (Some [RegExp.TDollar]). simpl.
  by rewrite (atoms_toks _ _ true).
Qed.

Lemma watcher_parse (p : string) :
  simpleGlob p = true ->
  RegExp.parse (FileWatcher.regexSource p)
  = Some {| RegExp.start := RegExp.CaretOrSlash;
            RegExp.body := items RegExp.NotSlash p;
            RegExp.dollar := true |}.
Proof.
  intros Hs. rewrite watcher_source by done. unfold RegExp.parse.
  change (RegExp.lex ("(^|/)" +:+ encode "[^/]*" p +:+ "$"))
    with (cons RegExp.TCaretOrSlash <$> RegExp.lex (encode "[^/]*" p +:+ "$")).
  rewrite (lex_encode _ RegExp.NotSlash) by auto using lex_enc_scoped.
  change (RegExp.lex "$") with (Some [RegExp.TDollar]). simpl.
  by rewrite (atoms_toks _ _ true).
Qed.

Lemma engine_parse (p : string) :
  simpleGlob p = true ->
  RegExp.parse (RuleEngine.globToRegex p)
  = Some {| RegExp.start := RegExp.Unanchored;
            RegExp.body := items RegExp.AnyChar p;
            RegExp.dollar := false |}.
Proof.
  intros Hs. rewrite engine_source by done. unfold RegExp.parse.
  rewrite <- (sapp_nil_r (encode ".*" p)).
  rewrite (lex_encode _ RegExp.AnyChar) by auto using lex_enc_cross.
  change (RegExp.lex "") with (Some (@nil RegExp.token)). simpl.
  pose proof (atoms_toks RegExp.AnyChar p false) as Ha. simpl in Ha.
  destruct p as [|a r]; [done|].
  revert Ha. simpl. destruct (Ascii.eqb a "*"%char); simpl; by intros ->.
Qed.

Lemma stripSlash_cases (p : string) :
  p = JS.stripSlash p \/ p = JS.stripSlash p +:+ "/".
Proof.
  unfold JS.stripSlash. destruct (JS.endsWithChar p "/") eqn:E; [right|by left].
  induction p as [|a r IH]; [done|].
  destruct r as [|b r']; simpl in *.
  - apply Ascii.eqb_eq in E as ->. done.
  - f_equal. by apply IH.
Qed.

Lemma star_not_dotenv (p : string) :
  Contains p "*" -> JS.stripSlash p <> ".env".
Proof.
  intros Hc He. apply includes_spec in Hc.
  destruct (stripSlash_cases p) as [H|H]; rewrite He in H; subst p;
    vm_compute in Hc; discriminate.
Qed.

(** Claim C3, as amended. For a pattern that contains a star and is
    made of stars, dots and characters without a meaning in a regular
    expression, no two stars in a row, each matcher compiles the pattern,
    dots escaped, and tries the expression on the base name and on the
    path; none of them fails. Besides the rules that come before the
    glob branch,
    - the scanner returns true exactly when the base name or the path is,
      as a whole, an instance of the glob whose stars stay within one
      path segment;
    - the watcher returns true exactly when the base name or the path, or
      what follows one of their slashes, is such an instance;
    - the rule engine returns true exactly when some part of the base
      name or of the path is an instance of the glob whose stars stand
      for any characters of one line, separators included.
    Nothing is said here about two stars in a row. *)
Theorem glob_branch (f b p : string) :
  simpleGlob p = true -> Contains p "*" ->
  (CommitScanner.matchesPattern f b p = Some true <->
     b = JS.stripSlash p \/ f = JS.stripSlash p
     \/ IsPrefix (JS.stripSlash p +:+ "/") f
     \/ Contains f ("/" +:+ JS.stripSlash p +:+ "/")
     \/ gmatch (specTokens p) b = true \/ gmatch (specTokens p) f = true)
  /\ (FileWatcher.matchesPattern f b p = Some true <->
        b = JS.stripSlash p
        \/ Contains f ("/" +:+ JS.stripSlash p +:+ "/")
        \/ IsPrefix (JS.stripSlash p +:+ "/") f
        \/ AtSegment (gmatch (specTokens p)) f
        \/ AtSegment (gmatch (specTokens p)) b)
  /\ (RuleEngine.matchesPattern f b p = Some true <->
        b = JS.stripSlash p \/ Contains f (JS.stripSlash p)
        \/ Somewhere (gmatch (crossTokens p)) b
        \/ Somewhere (gmatch (crossTokens p)) f)
  /\ (CommitScanner.matchesPattern f b p <> None
      /\ FileWatcher.matchesPattern f b p <> None
      /\ RuleEngine.matchesPattern f b p <> None).
Proof.
  intros Hs Hc.
  assert (Hi : JS.includes p "*" = true) by by apply includes_spec.
  pose proof (star_not_dotenv p Hc) as Hne.
  assert (Hseg : forall s,
    RegExp.matchHere (items RegExp.NotSlash p) true s
    || RegExp.afterSlash (items RegExp.NotSlash p) true s = true
    <-> AtSegment (gmatch (specTokens p)) s).
  { intros s. rewrite orb_true_iff, afterSlash_spec, matchHere_scoped by done.
    unfold AtSegment. split; (intros [H|(u & v & Hu & Hv)]; [by left|right]);
      exists u, v; split; try done.
    - by rewrite <- matchHere_scoped.
    - by rewrite matchHere_scoped. }
  assert (Hany : forall s,
    RegExp.searchFrom (items RegExp.AnyChar p) false s = true
    <-> Somewhere (gmatch (crossTokens p)) s).
  { intros s. rewrite searchFrom_spec. unfold Somewhere. split.
    - intros (u & t & -> & Ht). apply matchHere_open in Ht as (v & w & -> & Hv).
      exists u, v, w. split; [done|]. by rewrite <- matchHere_cross.
    - intros (u & v & w & -> & Hv). exists u, (v +:+ w). split; [done|].
      apply matchHere_open. exists v, w. split; [done|].
      by rewrite matchHere_cross. }
  repeat split.
  - unfold CommitScanner.matchesPattern, testEither.
    rewrite Hi, scanner_parse by done. cbv zeta. simpl.
    unfold RegExp.test. simpl. rewrite !matchHere_scoped by done.
    bool_cases; simpl; try (intros _; tauto).
    all: intros Hx; injection Hx as Hx; apply orb_prop in Hx; tauto.
  - unfold CommitScanner.matchesPattern, testEither.
    rewrite Hi, scanner_parse by done. cbv zeta. simpl.
    unfold RegExp.test. simpl. rewrite !matchHere_scoped by done.
    bool_cases; simpl; try done.
    all: intros Hx; f_equal; apply orb_true_iff; intuition congruence.
  - unfold FileWatcher.matchesPattern, testEither.
    rewrite Hi, watcher_parse by done. cbv zeta. simpl.
    unfold RegExp.test. simpl.
    bool_cases; simpl; try (intros _; tauto); try contradiction.
    all: intros Hx; injection Hx as Hx; apply orb_prop in Hx;
      rewrite !Hseg in Hx; tauto.
  - unfold FileWatcher.matchesPattern, testEither.
    rewrite Hi, watcher_parse by done. cbv zeta. simpl.
    unfold RegExp.test. simpl.
    bool_cases; simpl; try done; try contradiction.
    all: intros Hx; f_equal; apply orb_true_iff; rewrite !Hseg; intuition congruence.
  - unfold RuleEngine.matchesPattern, testEither.
    rewrite Hi, engine_parse by done. cbv zeta. simpl.
    unfold RegExp.test. simpl.
    bool_cases; simpl; try (intros _; tauto).
    all: intros Hx; injection Hx as Hx; apply orb_prop in Hx;
      rewrite !Hany in Hx; tauto.
  - unfold RuleEngine.matchesPattern, testEither.
    rewrite Hi, engine_parse by done. cbv zeta. simpl.
    unfold RegExp.test. simpl.
    bool_cases; simpl; try done.
    all: intros Hx; f_equal; apply orb_true_iff; rewrite !Hany; intuition congruence.
  - unfold CommitScanner.matchesPattern, testEither.
    rewrite Hi, scanner_parse by done. cbv zeta. simpl.
    bool_cases; simpl; done.
  - unfold FileWatcher.matchesPattern, testEither.
    rewrite Hi, watcher_parse by done. cbv zeta. simpl.
    bool_cases; simpl; done.
  - unfold RuleEngine.matchesPattern, testEither.
    rewrite Hi, engine_parse by done. cbv zeta. simpl.
    bool_cases; simpl; done.
Qed.

(** Claim C3: [*.log] and [logs/app.log]. *)
Lemma glob_branch_witness :
  CommitScanner.matchesPattern "logs/app.log" "app.log" "*.log" = Some true
  /\ FileWatcher.matchesPattern "logs/app.log" "app.log" "*.log" = Some true
  /\ RuleEngine.matchesPattern "logs/app.log" "app.log" "*.log" = Some true.
Proof.
  assert (Hc : Contains "*.log" "*") by (by exists "", ".log").
  pose proof (glob_branch "logs/app.log" "app.log" "*.log" eq_refl Hc)
    as (Hs & Hw & He & _).
  split; [|split].
  - apply Hs. do 4 right. left. reflexivity.
  - apply Hw. do 4 right. left. reflexivity.
  - apply He. do 2 right. left. exists "", "app.log", "". split; reflexivity.
Defined.

(** Claim C3 as stated fails: the rule engine accepts [a.logx] for
    [*.log], and the watcher accepts [a/b/c.log] for [b/*.log], where
    the anchored expression of the specification matches neither the base
    name nor the path, and no earlier rule applies. *)
Lemma glob_branch_counterexample :
  (JS.includes "*.log" "*" = true
   /\ RuleEngine.matchesPattern "a.logx" "a.logx" "*.log" = Some true
   /\ specGlobBranch "a.logx" "a.logx" "*.log" = false
   /\ String.eqb "a.logx" (JS.stripSlash "*.log") = false
   /\ JS.includes "a.logx" (JS.stripSlash "*.log") = false)
  /\ (JS.includes "b/*.log" "*" = true
      /\ FileWatcher.matchesPattern "a/b/c.log" "c.log" "b/*.log" = Some true
      /\ specGlobBranch "a/b/c.log" "c.log" "b/*.log" = false
      /\ String.eqb "c.log" (JS.stripSlash "b/*.log") = false
      /\ JS.includes "a/b/c.log" ("/" +:+ JS.stripSlash "b/*.log" +:+ "/") = false
      /\ JS.startsWith "a/b/c.log" (JS.stripSlash "b/*.log" +:+ "/") = false).
Proof. by vm_compute. Qed.

Section IgnoreFile.
Import GitIgnoreHandler.

(** ** The ignore-file handler *)

Lemma trimEnd_idem (s : string) : JS.trimEnd (JS.trimEnd s) = JS.trimEnd s.
Proof.
  induction s as [|a r IH]; [done|].
  simpl. destruct (JS.isWhite a && String.eqb (JS.trimEnd r) "") eqn:E; [done|].
  simpl. by rewrite IH, E.
Qed.

Lemma trimStart_fixed (s : string) :
  match s with String a _ => JS.isWhite a = false | EmptyString => True end ->
  JS.trimStart s = s.
Proof. destruct s as [|a r]; [done|]. simpl. by intros ->. Qed.

Lemma trimStart_head (s : string) :
  match JS.trimStart s with
  | String a _ => JS.isWhite a = false
  | EmptyString => True
  end.
Proof.
  induction s as [|a r IH]; [done|].
  simpl. destruct (JS.isWhite a) eqn:E; [done|]. done.
Qed.

Lemma trim_idem (s : string) : JS.trim (JS.trim s) = JS.trim s.
Proof.
  unfold JS.trim. rewrite (trimStart_fixed (JS.trimEnd _)).
  - apply trimEnd_idem.
  - pose proof (trimStart_head s) as H.
    destruct (JS.trimStart s) as [|a r]; [done|].
    simpl. by rewrite H.
Qed.

Lemma normalizePattern_trim (s : string) :
  normalizePattern (JS.trim s) = normalizePattern s.
Proof. unfold normalizePattern. by rewrite trim_idem. Qed.

Lemma patternLine_dec (line : string) :
  String.eqb (JS.trim line) "" || JS.startsWith (JS.trim line) "#" = false
  <-> PatternLine line.
Proof.
  unfold PatternLine. rewrite orb_false_iff, String.eqb_neq.
  unfold JS.startsWith. rewrite <- prefix_spec.
  destruct (String.prefix "#" (JS.trim line)); intuition congruence.
Qed.

Lemma foldl_addLine (acc : gset string) (ls : list string) (x : string) :
  x ∈ foldl addLine acc ls
  <-> x ∈ acc \/ exists line, line ∈ ls /\ PatternLine line /\ normalizePattern line = x.
Proof.
  revert acc. induction ls as [|l ls IH]; intros acc; simpl.
  - split; [by left|]. intros [H|(line & H & _)]; [done|]. by apply elem_of_nil in H.
  - rewrite IH. unfold addLine.
    destruct (String.eqb (JS.trim l) "" || JS.startsWith (JS.trim l) "#") eqn:E.
    + split.
      * intros [H|(line & H1 & H2)]; [by left|right].
        exists line. split; [by right|done].
      * intros [H|(line & H1 & H2 & H3)]; [by left|].
        apply elem_of_cons in H1 as [->|H1].
        -- apply patternLine_dec in H2. congruence.
        -- right. eauto.
    + apply patternLine_dec in E. rewrite normalizePattern_trim. split.
      * intros [H|(line & H1 & H2)].
        -- apply elem_of_union in H as [H|H]; [|by left].
           apply elem_of_singleton in H as ->. right. exists l.
           split; [by left|done].
        -- right. exists line. split; [by right|done].
      * intros [H|(line & H1 & H2 & H3)].
        -- left. set_solver.
        -- apply elem_of_cons in H1 as [->|H1].
           ++ left. set_solver.
           ++ right. eauto.
Qed.

Lemma parsePatterns_spec (c x : string) : x ∈ parsePatterns c <-> Listed c x.
Proof.
  unfold parsePatterns, Listed. rewrite foldl_addLine. set_solver.
Qed.

Lemma asRead_readable (w : world) : readFault w = None -> asRead w = w.
Proof. intros H. unfold asRead. by rewrite H. Qed.

(** [read] returns the text of a file that is there and can be read,
    and null otherwise. *)
Lemma read_seen (w : world) : read w = (inl (gitignore (asRead w)), w).
Proof.
  unfold read, tryCatch, bind, readFile, ret, asRead. cbv beta.
  destruct (gitignore w) eqn:Eg, (readFault w) eqn:Er; simpl; by rewrite ?Eg.
Qed.

Lemma read_eq (w : world) :
  readFault w = None -> read w = (inl (gitignore w), w).
Proof. intros H. by rewrite read_seen, asRead_readable. Qed.

(** What [getExistingPatterns] returns in a world. *)
Lemma getExistingPatterns_seen (w : world) :
  getExistingPatterns w = (inl (parsePatterns (content (asRead w))), w).
Proof.
  unfold getExistingPatterns, bind. rewrite read_seen. unfold content, ret.
  destruct (gitignore (asRead w)) as [c|]; simpl; [|done].
  by destruct (String.eqb_spec c "") as [->|_].
Qed.

Lemma getExistingPatterns_eq (w : world) :
  readFault w = None ->
  getExistingPatterns w = (inl (parsePatterns (content w)), w).
Proof. intros H. by rewrite getExistingPatterns_seen, asRead_readable. Qed.

(** Nothing is listed in a file that cannot be read. *)
Lemma listed_seen (w : world) (x : string) :
  Listed (content (asRead w)) x -> readFault w = None /\ Listed (content w) x.
Proof.
  unfold asRead. destruct (readFault w) as [e|]; [|done].
  intros (line & Hin & [Hp _] & _). apply list_elem_of_singleton in Hin as ->.
  by destruct Hp.
Qed.

Lemma classify_eq (existing : gset string) (rules : list GitIgnoreRule) :
  classify existing rules
  = (filter (fun rule => normalizePattern (pattern rule) ∉ existing) rules,
     pattern <$> filter (fun rule => normalizePattern (pattern rule) ∈ existing) rules).
Proof.
  unfold classify.
  assert (H : forall toAdd already,
    foldl (fun '(toAdd, alreadyExists) rule =>
             if decide (normalizePattern (pattern rule) ∈ existing)
             then (toAdd, alreadyExists ++ [pattern rule])
             else (toAdd ++ [rule], alreadyExists))
          (toAdd, already) rules
    = (toAdd ++ filter (fun rule => normalizePattern (pattern rule) ∉ existing) rules,
       already ++ (pattern <$> filter (fun rule => normalizePattern (pattern rule) ∈ existing) rules))).
  { induction rules as [|r rs IH]; intros toAdd already; simpl.
    - by rewrite !app_nil_r.
    - rewrite filter_cons, (filter_cons (fun rule => _ ∈ _)).
      destruct (decide (normalizePattern (pattern r) ∈ existing)) as [Hin|Hin].
      + rewrite IH, decide_False by (intros ?; contradiction).
        by rewrite fmap_cons, <- (assoc_L (++)).
      + rewrite IH, decide_True by done.
        by rewrite <- (assoc_L (++)). }
  apply (H [] []).
Qed.

(** [addPatterns] in closed form: it works on the file as [read] shows
    it. *)
Lemma addPatterns_seen (rules : list GitIgnoreRule) (label : option string) (w : world) :
  addPatterns rules label w =
  let existing := parsePatterns (content (asRead w)) in
  let toAdd := filter (fun rule => normalizePattern (pattern rule) ∉ existing) rules in
  let already :=
    pattern <$> filter (fun rule => normalizePattern (pattern rule) ∈ existing) rules in
  match toAdd with
  | [] =>
      (inl {| success := true; addedPatterns := [];
              existingPatterns := already; error := None |}, w)
  | _ :: _ =>
      match writeFault w with
      | Some e =>
          (inl {| success := false; addedPatterns := [];
                  existingPatterns := already;
                  error := Some (errorMessageOf e) |},
           {| gitignore := gitignore w; readFault := readFault w;
              statFault := statFault w; writeFault := writeFault w;
              writeCalls := S (writeCalls w) |})
      | None =>
          (inl {| success := true; addedPatterns := pattern <$> toAdd;
                  existingPatterns := already; error := None |},
           {| gitignore := Some (newContentOf label toAdd (asRead w));
              readFault := readFault w; statFault := statFault w;
              writeFault := writeFault w;
              writeCalls := S (writeCalls w) |})
      end
  end.
Proof.
  unfold addPatterns, bind at 1. rewrite getExistingPatterns_seen, classify_eq.
  cbv zeta.
  destruct (filter _ rules) as [|r toAdd] eqn:E; [done|].
  unfold tryCatch, bind. rewrite read_seen.
  unfold writeFile, ret, newContentOf, currentContentOf, content.
  by destruct (writeFault w).
Qed.

(** [addPatterns] in closed form, for a file that can be read. *)
Lemma addPatterns_eq (rules : list GitIgnoreRule) (label : option string) (w : world) :
  readFault w = None ->
  addPatterns rules label w =
  let existing := parsePatterns (content w) in
  let toAdd := filter (fun rule => normalizePattern (pattern rule) ∉ existing) rules in
  let already :=
    pattern <$> filter (fun rule => normalizePattern (pattern rule) ∈ existing) rules in
  match toAdd with
  | [] =>
      (inl {| success := true; addedPatterns := [];
              existingPatterns := already; error := None |}, w)
  | _ :: _ =>
      match writeFault w with
      | Some e =>
          (inl {| success := false; addedPatterns := [];
                  existingPatterns := already;
                  error := Some (errorMessageOf e) |},
           {| gitignore := gitignore w; readFault := readFault w;
              statFault := statFault w; writeFault := writeFault w;
              writeCalls := S (writeCalls w) |})
      | None =>
          (inl {| success := true; addedPatterns := pattern <$> toAdd;
                  existingPatterns := already; error := None |},
           {| gitignore := Some (newContentOf label toAdd w);
              readFault := readFault w; statFault := statFault w;
              writeFault := writeFault w;
              writeCalls := S (writeCalls w) |})
      end
  end.
Proof. intros H. by rewrite addPatterns_seen, asRead_readable. Qed.

(** Claim C9. [addPatterns] never throws: it returns a result. When
    [writeFile] throws and some rule is missing from what was read (the
    read failed, or the normalized pattern of the rule is not listed in
    the file), the result has [success = false], its error is the
    message of what was thrown when that is an [Error] and
    [Unknown error] otherwise, no pattern is reported as added,
    [writeFile] was called once and the ignore file is as before. *)
Theorem write_failure_is_reported
    (rules : list GitIgnoreRule) (label : option string) (w : world) :
  exists r w',
    addPatterns rules label w = (inl r, w')
    /\ forall e rule,
         writeFault w = Some e ->
         rule ∈ rules ->
         (readFault w = None ->
          ~ Listed (content w) (normalizePattern (pattern rule))) ->
         success r = false
         /\ error r = Some (match e with
                            | ErrorObject message => message
                            | OtherValue => "Unknown error"
                            end)
         /\ addedPatterns r = []
         /\ gitignore w' = gitignore w
         /\ writeCalls w' = S (writeCalls w).
Proof.
  rewrite addPatterns_seen. cbv zeta.
  destruct (filter _ rules) as [|r0 toAdd] eqn:E.
  - eexists _, _. split; [done|]. intros e rule _ Hr Hmiss. exfalso.
    assert (Hf : rule ∈ filter (fun rule => normalizePattern (pattern rule)
                                  ∉ parsePatterns (content (asRead w))) rules).
    { apply list_elem_of_filter. split; [|done].
      rewrite parsePatterns_spec. intros Hl.
      apply listed_seen in Hl as [Hread Hl]. by apply Hmiss. }
    rewrite E in Hf. by apply elem_of_nil in Hf.
  - destruct (writeFault w) as [e0|] eqn:Ew; eexists _, _; (split; [done|]);
      intros e rule [= <-] _ _. by destruct e0.
Qed.

(** Claim C9: the sample rules, and a [writeFile] that throws an
    [Error]. *)
Lemma write_failure_is_reported_witness :
  exists r w',
    addPatterns sampleRules None
      {| gitignore := Some "dist"; readFault := None; statFault := None;
         writeFault := Some (ErrorObject "EACCES: permission denied");
         writeCalls := 0 |} = (inl r, w')
    /\ success r = false
    /\ error r = Some "EACCES: permission denied"
    /\ gitignore w' = Some "dist".
Proof.
  destruct (write_failure_is_reported sampleRules None
              {| gitignore := Some "dist"; readFault := None; statFault := None;
                 writeFault := Some (ErrorObject "EACCES: permission denied");
                 writeCalls := 0 |}) as (r & w' & H & Hf).
  exists r, w'. split; [exact H|].
  destruct (Hf (ErrorObject "EACCES: permission denied")
               (sampleRule ".env" critical "Environment variables"))
    as (H1 & H2 & _ & H4 & _).
  - reflexivity.
  - right. left.
  - intros _ (line & Hin & _ & Hx).
    apply list_elem_of_singleton in Hin as ->. vm_compute in Hx. discriminate.
  - split; [exact H1|]. split; [exact H2|exact H4].
Defined.

Lemma addPatterns_all_present
    (rules : list GitIgnoreRule) (label : option string) (w : world) :
  readFault w = None ->
  (forall rule, rule ∈ rules -> Listed (content w) (normalizePattern (pattern rule))) ->
  addPatterns rules label w
  = (inl {| success := true; addedPatterns := [];
            existingPatterns := pattern <$> rules; error := None |}, w).
Proof.
  intros Hread H. rewrite addPatterns_eq by done. cbv zeta.
  assert (Hin : Forall (fun rule => normalizePattern (pattern rule)
                                    ∈ parsePatterns (content w)) rules).
  { apply Forall_forall. intros rule Hr. apply parsePatterns_spec. by apply H. }
  assert (E1 : filter (fun rule => normalizePattern (pattern rule)
                                   ∉ parsePatterns (content w)) rules = []).
  { clear H. induction Hin as [|r rs Hr _ IH]; [done|].
    rewrite filter_cons, decide_False by (intros ?; contradiction). done. }
  assert (E2 : filter (fun rule => normalizePattern (pattern rule)
                                   ∈ parsePatterns (content w)) rules = rules).
  { clear H E1. induction Hin as [|r rs Hr _ IH]; [done|].
    rewrite filter_cons, decide_True by done. by rewrite IH. }
  by rewrite E1, E2.
Qed.

(** Claim C10. If the ignore file can be read and the normalized
    pattern of every rule is present in it, [addPatterns] returns
    success with no added pattern and every pattern of the rules among
    the existing ones, and the host is as before: the file is untouched
    and [writeFile] is not called. *)
Theorem nothing_to_add_leaves_file
    (rules : list GitIgnoreRule) (label : option string) (w : world) :
  readFault w = None ->
  (forall rule, rule ∈ rules -> Listed (content w) (normalizePattern (pattern rule))) ->
  addPatterns rules label w
  = (inl {| success := true; addedPatterns := [];
            existingPatterns := pattern <$> rules; error := None |}, w).
Proof. apply addPatterns_all_present. Qed.

(** Claim C10: both patterns are present, one without its slash, one
    with spaces around it; [writeFile] would throw, and is not called. *)
Lemma nothing_to_add_leaves_file_witness :
  addPatterns
    [{| pattern := "node_modules/"; severity := recommended; reason := "Dependencies" |};
     {| pattern := ".env"; severity := critical; reason := "Secrets" |}]
    None
    {| gitignore := Some ("# mine" +:+ String JS.LF (" .env/ " +:+ String JS.LF "node_modules"));
       readFault := None; statFault := None;
       writeFault := Some OtherValue; writeCalls := 0 |}
  = (inl {| success := true; addedPatterns := [];
            existingPatterns := ["node_modules/"; ".env"]; error := None |},
     {| gitignore := Some ("# mine" +:+ String JS.LF (" .env/ " +:+ String JS.LF "node_modules"));
        readFault := None; statFault := None;
        writeFault := Some OtherValue; writeCalls := 0 |}).
Proof.
  apply (nothing_to_add_leaves_file
           [{| pattern := "node_modules/"; severity := recommended; reason := "Dependencies" |};
            {| pattern := ".env"; severity := critical; reason := "Secrets" |}]).
  { reflexivity. }
  intros rule Hr.
  apply elem_of_cons in Hr as [->|Hr]; [|apply elem_of_cons in Hr as [->|Hr]].
  - exists "node_modules". split; [|split].
    + right. right. left.
    + split; [discriminate|]. rewrite <- prefix_spec. vm_compute. discriminate.
    + reflexivity.
  - exists " .env/ ". split; [|split].
    + right. left.
    + split; [discriminate|]. rewrite <- prefix_spec. vm_compute. discriminate.
    + reflexivity.
  - by apply elem_of_nil in Hr.
Defined.

(** *** Lines *)

Lemma endsWithChar_snoc (c : string) (x : ascii) :
  JS.endsWithChar (c +:+ String x "") x = true.
Proof.
  induction c as [|a r IH]; simpl; [apply Ascii.eqb_refl|].
  destruct (r +:+ String x "") eqn:E; [by destruct r|]. done.
Qed.

Lemma endsWithChar_inv (c : string) (x : ascii) :
  JS.endsWithChar c x = true -> exists c0, c = c0 +:+ String x "".
Proof.
  induction c as [|a r IH]; [done|].
  simpl. destruct r as [|b r'].
  - intros H. apply Ascii.eqb_eq in H as ->. by exists "".
  - intros H. destruct (IH H) as [c0 ->]. by exists (String a c0).
Qed.

Lemma linesOf_app_closed (c x : string) :
  c = "" \/ JS.endsWithChar c JS.LF = true ->
  linesOf (c +:+ x) = linesOf c ++ linesOf x.
Proof.
  induction c as [|a r IH]; [done|]. intros [H|H]; [done|].
  destruct r as [|b r'].
  - simpl in H. apply Ascii.eqb_eq in H as ->. done.
  - specialize (IH (or_intror H)).
    change (String a (String b r') +:+ x) with (String a (String b r' +:+ x)).
    change (linesOf (String a (String b r' +:+ x)))
      with (if Ascii.eqb a JS.LF then "" :: linesOf (String b r' +:+ x)
            else match linesOf (String b r' +:+ x) with
                 | l :: ls => String a l :: ls
                 | [] => [String a ""]
                 end).
    change (linesOf (String a (String b r')))
      with (if Ascii.eqb a JS.LF then "" :: linesOf (String b r')
            else match linesOf (String b r') with
                 | l :: ls => String a l :: ls
                 | [] => [String a ""]
                 end).
    rewrite IH. destruct (Ascii.eqb a JS.LF); [done|].
    destruct (linesOf (String b r')) as [|l ls] eqn:E; [|done].
    exfalso. revert E. simpl. destruct (Ascii.eqb b JS.LF); [done|].
    by destruct (linesOf r').
Qed.

Lemma linesOf_close (c : string) :
  c <> "" -> JS.endsWithChar c JS.LF = false ->
  linesOf (c +:+ String JS.LF "") = linesOf c.
Proof.
  induction c as [|a r IH]; [done|]. intros _ H.
  destruct r as [|b r'].
  - simpl in *. by rewrite H.
  - specialize (IH ltac:(done) H).
    change (String a (String b r') +:+ String JS.LF "")
      with (String a (String b r' +:+ String JS.LF "")).
    change (linesOf (String a (String b r' +:+ String JS.LF "")))
      with (if Ascii.eqb a JS.LF then "" :: linesOf (String b r' +:+ String JS.LF "")
            else match linesOf (String b r' +:+ String JS.LF "") with
                 | l :: ls => String a l :: ls
                 | [] => [String a ""]
                 end).
    by rewrite IH.
Qed.

Lemma currentContent_closed (w : world) :
  currentContentOf w = "" \/ JS.endsWithChar (currentContentOf w) JS.LF = true.
Proof.
  unfold currentContentOf.
  destruct (String.eqb_spec (content w) "") as [->|Hne]; [by left|].
  destruct (JS.endsWithChar (content w) JS.LF) eqn:E; simpl; right; [done|].
  apply endsWithChar_snoc.
Qed.

Lemma currentContent_lines (w : world) :
  linesOf (currentContentOf w) = linesOf (content w).
Proof.
  unfold currentContentOf.
  destruct (String.eqb_spec (content w) "") as [->|Hne]; [done|].
  destruct (JS.endsWithChar (content w) JS.LF) eqn:E; simpl; [done|].
  by apply linesOf_close.
Qed.

Lemma currentContent_prefix (w : world) : IsPrefix (content w) (currentContentOf w).
Proof.
  unfold currentContentOf.
  destruct (negb _ && negb _); [by eexists|].
  exists "". by rewrite sapp_nil_r.
Qed.

Lemma newContent_prefix (label : option string) (toAdd : list GitIgnoreRule) (w : world) :
  IsPrefix (content w) (newContentOf label toAdd w).
Proof.
  unfold newContentOf. destruct (currentContent_prefix w) as [t ->].
  eexists. by rewrite sapp_assoc.
Qed.

Lemma newContent_lines (label : option string) (toAdd : list GitIgnoreRule) (w : world) :
  linesOf (content w) `prefix_of` linesOf (newContentOf label toAdd w).
Proof.
  unfold newContentOf.
  rewrite linesOf_app_closed by apply currentContent_closed.
  rewrite currentContent_lines. by eexists.
Qed.

Lemma split_nonempty (s : string) : JS.split s <> [].
Proof.
  destruct s as [|a r]; [done|]. simpl.
  destruct (Ascii.eqb a JS.LF); [done|]. by destruct (JS.split r).
Qed.

Lemma split_app_LF (a b : string) :
  JS.split (a +:+ String JS.LF b) = JS.split a ++ JS.split b.
Proof.
  induction a as [|x r IH].
  - reflexivity.
  - change (String x r +:+ String JS.LF b) with (String x (r +:+ String JS.LF b)).
    change (JS.split (String x (r +:+ String JS.LF b)))
      with (if Ascii.eqb x JS.LF then "" :: JS.split (r +:+ String JS.LF b)
            else match JS.split (r +:+ String JS.LF b) with
                 | l :: ls => String x l :: ls
                 | [] => [String x ""]
                 end).
    rewrite IH. simpl. destruct (Ascii.eqb x JS.LF); [done|].
    pose proof (split_nonempty r). by destruct (JS.split r).
Qed.

Lemma split_single (l : string) :
  ~ Contains l (String JS.LF "") -> JS.split l = [l].
Proof.
  induction l as [|a r IH]; intros H; [done|].
  simpl. destruct (Ascii.eqb_spec a JS.LF) as [->|Hne].
  - exfalso. apply H. by exists "", r.
  - rewrite IH; [done|]. intros (u & v & ->). apply H.
    by exists (String a u), v.
Qed.

Lemma in_split_join (l t : string) (ls : list string) :
  l ∈ ls -> ~ Contains l (String JS.LF "") ->
  l ∈ JS.split (JS.join ls +:+ String JS.LF t).
Proof.
  intros Hin Hl. induction ls as [|l0 ls IH]; [by apply elem_of_nil in Hin|].
  destruct ls as [|l1 ls].
  - apply list_elem_of_singleton in Hin as ->.
    simpl. rewrite split_app_LF, split_single by done. by left.
  - change (JS.join (l0 :: l1 :: ls))
      with (l0 +:+ String JS.LF (JS.join (l1 :: ls))).
    rewrite sapp_assoc.
    change (String JS.LF (JS.join (l1 :: ls)) +:+ String JS.LF t)
      with (String JS.LF (JS.join (l1 :: ls) +:+ String JS.LF t)).
    rewrite split_app_LF. apply elem_of_app.
    apply elem_of_cons in Hin as [->|Hin].
    + left. rewrite split_single by done. by left.
    + right. by apply IH.
Qed.

Lemma blank_not_patternLine : ~ PatternLine "".
Proof. by intros [H _]. Qed.

Lemma currentContent_cases (w : world) :
  (content w = "" /\ currentContentOf w = "")
  \/ exists c0, currentContentOf w = c0 +:+ String JS.LF ""
               /\ (content w = c0 \/ content w = c0 +:+ String JS.LF "").
Proof.
  unfold currentContentOf.
  destruct (String.eqb_spec (content w) "") as [E|Hne]; [by left|right].
  destruct (JS.endsWithChar (content w) JS.LF) eqn:E; simpl.
  - destruct (endsWithChar_inv _ _ E) as [c0 Hc]. exists c0. by split; [|right].
  - exists (content w). by split; [|left].
Qed.

(** What was listed stays listed. *)
Lemma listed_kept (label : option string) (toAdd : list GitIgnoreRule)
    (w : world) (x : string) :
  Listed (content w) x -> Listed (newContentOf label toAdd w) x.
Proof.
  intros (line & Hin & Hp & Hx). exists line. split; [|done].
  unfold newContentOf.
  destruct (currentContent_cases w) as [[E _]|(c0 & -> & Hc)].
  - rewrite E in Hin. apply list_elem_of_singleton in Hin as ->.
    by destruct blank_not_patternLine.
  - rewrite sapp_assoc.
    change (String JS.LF "" +:+ ?y) with (String JS.LF y).
    rewrite split_app_LF. apply elem_of_app. left.
    destruct Hc as [Hc|Hc]; rewrite Hc in Hin; [done|].
    rewrite split_app_LF in Hin.
    apply elem_of_app in Hin as [Hin|Hin]; [done|].
    apply list_elem_of_singleton in Hin as ->.
    by destruct blank_not_patternLine.
Qed.

(** What is added is listed afterwards. *)
Lemma listed_added (label : option string) (toAdd : list GitIgnoreRule)
    (w : world) (rule : GitIgnoreRule) :
  rule ∈ toAdd -> ProperPattern (pattern rule) ->
  Listed (newContentOf label toAdd w) (normalizePattern (pattern rule)).
Proof.
  intros Hin [Hp Hl]. exists (pattern rule). split; [|done].
  assert (Hnl : forall sep, pattern rule ∈ sep ++ [header label] ++ (toAdd ≫= ruleLines)).
  { intros sep. apply elem_of_app. right. apply elem_of_app. right.
    apply list_elem_of_bind. exists rule. split; [|done].
    unfold ruleLines. apply elem_of_app. right. by left. }
  unfold newContentOf.
  destruct (currentContent_closed w) as [->|E].
  - change (JS.trim "") with "". simpl String.eqb. cbv iota.
    change ("" +:+ ?y) with y. by apply in_split_join.
  - destruct (endsWithChar_inv _ _ E) as [c0 ->].
    rewrite sapp_assoc. change (String JS.LF "" +:+ ?y) with (String JS.LF y).
    rewrite split_app_LF. apply elem_of_app. right. by apply in_split_join.
Qed.




End IgnoreFile.

Section Debounce.
Import FileWatcher.

(** ** The debounced queue *)

Lemma clearTimeout_own (h due : nat) : clearTimeout h [(h, due)] = [].
Proof. unfold clearTimeout. rewrite filter_cons, decide_False; [done|]. by intros []. Qed.

Lemma arrive_armed (st : state) (pending : list (string * RiskyFileEvent))
    (due : nat) (log : list notification) (e : nat * RiskyFileEvent) :
  Armed st pending due log -> e.1 < due ->
  Armed (arrive st e) (mapSet (filePath e.2) e.2 pending)
        (e.1 + debounceDelay) log.
Proof.
  intros (Hp & (h & Hd & Ht) & Hs) Hlt.
  unfold arrive, fireDue. rewrite Ht. simpl.
  rewrite decide_False by lia.
  unfold queueNotification, Armed. simpl. rewrite Hd, Ht, Hp, clearTimeout_own.
  eauto.
Qed.

Lemma arrive_started (e : nat * RiskyFileEvent) :
  Armed (arrive started e) [(filePath e.2, e.2)] (e.1 + debounceDelay) [].
Proof. unfold Armed. simpl. eauto. Qed.

Lemma closeGaps_within (e0 : nat * RiskyFileEvent) (rest : list (nat * RiskyFileEvent)) :
  closeGaps (e0 :: rest) -> within (e0.1 + debounceDelay) rest.
Proof.
  revert e0. induction rest as [|e1 rest IH]; intros e0 H; [done|].
  simpl in H. destruct H as (_ & H1 & H2). split; [exact H1|]. by apply IH.
Qed.

Lemma last_default {A} (l : list A) (d d' : A) :
  l <> [] -> List.last l d = List.last l d'.
Proof.
  induction l as [|x r IH]; [done|]. intros _.
  destruct r as [|y r']; [done|].
  change (List.last (x :: y :: r') d) with (List.last (y :: r') d).
  change (List.last (x :: y :: r') d') with (List.last (y :: r') d').
  by apply IH.
Qed.

Lemma lastTime_cons (e0 e : nat * RiskyFileEvent) (rest : list (nat * RiskyFileEvent)) :
  lastTime e0 (e :: rest) = lastTime e rest.
Proof.
  unfold lastTime. f_equal. destruct rest as [|x r]; [done|].
  change (List.last (e :: x :: r) e0) with (List.last (x :: r) e0).
  by apply last_default.
Qed.

Lemma run_armed (events : list (nat * RiskyFileEvent)) (st : state)
    (pending : list (string * RiskyFileEvent)) (due : nat)
    (log : list notification) (e0 : nat * RiskyFileEvent) :
  Armed st pending due log -> within due events ->
  due = e0.1 + debounceDelay ->
  Armed (run events st)
        (foldl (fun m e => mapSet (filePath e.2) e.2 m) pending events)
        (lastTime e0 events + debounceDelay) log.
Proof.
  revert st pending due e0.
  induction events as [|e rest IH]; intros st pending due e0 Ha Hw Hdue.
  - simpl. unfold lastTime. simpl. by rewrite <- Hdue.
  - destruct Hw as [Hlt Hw]. simpl.
    rewrite lastTime_cons.
    eapply IH; [eapply arrive_armed; [exact Ha|exact Hlt]|exact Hw|reflexivity].
Qed.

Lemma mapSet_fresh {V} (k : string) (v : V) (m : list (string * V)) :
  k ∉ m.*1 -> mapSet k v m = m ++ [(k, v)].
Proof.
  induction m as [|[k' v'] m IH]; intros Hk; [done|].
  simpl. rewrite decide_False by set_solver. rewrite IH by set_solver. done.
Qed.

Lemma pending_distinct (events : list (nat * RiskyFileEvent))
    (m : list (string * RiskyFileEvent)) :
  NoDup (m.*1 ++ ((fun e => filePath e.2) <$> events)) ->
  foldl (fun m e => mapSet (filePath e.2) e.2 m) m events
  = m ++ ((fun e => (filePath e.2, e.2)) <$> events).
Proof.
  revert m. induction events as [|e rest IH]; intros m Hn; simpl.
  - by rewrite app_nil_r.
  - apply NoDup_app in Hn as (H1 & H2 & H3).
    apply NoDup_cons in H3 as [H3 H4].
    rewrite mapSet_fresh by (intros Hin; apply (H2 _ Hin); by left).
    rewrite IH.
    + by rewrite <- (assoc_L (++)).
    + rewrite fmap_app. simpl. rewrite <- (assoc_L (++)). simpl.
      apply NoDup_app. split; [done|]. split.
      * intros x Hx. apply H2 in Hx. done.
      * by apply NoDup_cons.
Qed.

Lemma settle_armed (st : state) (pending : list (string * RiskyFileEvent))
    (due : nat) (log : list notification) :
  Armed st pending due log ->
  shown (settle st) =
    match pending with
    | [] => log
    | _ :: _ => log ++ [notify (mapValues pending)]
    end.
Proof.
  intros (Hp & (h & Hd & Ht) & Hs). unfold settle. rewrite Ht. simpl.
  rewrite Hp, Hs. unfold notify, mapValues.
  destruct pending as [|[k v] [|[k' v'] pending]]; done.
Qed.

(** Claim C5. Events for distinct paths that arrive, one after the
    other, each less than the debounce delay after the one before it,
    show nothing while they arrive, leave one timeout set, due one delay
    after the last of them, and are flushed as one notification that
    holds them all, in order. Two events more than the delay apart are
    flushed apart: the first is shown before the second is queued. *)
Theorem debounce_batching
    (e0 : nat * RiskyFileEvent) (rest : list (nat * RiskyFileEvent))
    (t1 t2 : nat) (e1 e2 : RiskyFileEvent) :
  closeGaps (e0 :: rest) ->
  NoDup ((fun e => filePath e.2) <$> e0 :: rest) ->
  t1 + debounceDelay < t2 ->
  (shown (run (e0 :: rest) started) = []
   /\ (exists h, timers (run (e0 :: rest) started)
                 = [(h, lastTime e0 rest + debounceDelay)])
   /\ shown (settle (run (e0 :: rest) started)) = [notify (snd <$> e0 :: rest)])
  /\ (shown (run [(t1, e1); (t2, e2)] started) = [Single e1]
      /\ shown (settle (run [(t1, e1); (t2, e2)] started)) = [Single e1; Single e2]).
Proof.
  intros Hg Hn Hlt. split.
  - assert (Ha : Armed (run (e0 :: rest) started)
                   ((fun e => (filePath e.2, e.2)) <$> e0 :: rest)
                   (lastTime e0 rest + debounceDelay) []).
    { change (run (e0 :: rest) started) with (run rest (arrive started e0)).
      rewrite fmap_cons.
      pose proof (pending_distinct rest [(filePath e0.2, e0.2)] Hn) as Hp.
      simpl in Hp. rewrite <- Hp.
      eapply run_armed; [apply arrive_started|by apply closeGaps_within|done]. }
    split; [apply Ha|]. split; [destruct Ha as (_ & (h & _ & Ht) & _); eauto|].
    rewrite (settle_armed _ _ _ _ Ha). simpl.
    assert (Hv : mapValues ((fun e : nat * RiskyFileEvent => (filePath e.2, e.2)) <$> rest)
                 = snd <$> rest).
    { unfold mapValues. by rewrite <- list_fmap_compose. }
    unfold fmap in Hv. by rewrite Hv.
  - unfold run, settle, arrive, fireDue. simpl.
    rewrite decide_True by (unfold debounceDelay in *; lia). simpl. done.
Qed.

(** Claim C5: five events within the delay of each other, and two
    events 501 ms apart. *)
Lemma debounce_batching_witness :
  shown (settle (run [(0, sampleEvent "a/.env"); (100, sampleEvent "b/.env");
                      (350, sampleEvent "c/.env"); (849, sampleEvent "d/.env");
                      (900, sampleEvent "e/.env")] started))
  = [Batch [sampleEvent "a/.env"; sampleEvent "b/.env"; sampleEvent "c/.env";
            sampleEvent "d/.env"; sampleEvent "e/.env"]]
  /\ shown (settle (run [(0, sampleEvent "a/.env"); (501, sampleEvent "b/.env")] started))
     = [Single (sampleEvent "a/.env"); Single (sampleEvent "b/.env")].
Proof.
  assert (Hg : closeGaps [(0, sampleEvent "a/.env"); (100, sampleEvent "b/.env");
                          (350, sampleEvent "c/.env"); (849, sampleEvent "d/.env");
                          (900, sampleEvent "e/.env")]).
  { simpl. unfold debounceDelay. lia. }
  assert (Hn : NoDup ((fun e : nat * RiskyFileEvent => filePath e.2) <$>
                      [(0, sampleEvent "a/.env"); (100, sampleEvent "b/.env");
                       (350, sampleEvent "c/.env"); (849, sampleEvent "d/.env");
                       (900, sampleEvent "e/.env")])).
  { apply (bool_decide_unpack _). by vm_compute. }
  assert (Hlt : 0 + debounceDelay < 501) by (unfold debounceDelay; lia).
  pose proof (debounce_batching _ _ 0 501 (sampleEvent "a/.env") (sampleEvent "b/.env")
                Hg Hn Hlt) as [(_ & _ & H1) (_ & H2)].
  split; [exact H1|exact H2].
Defined.

End Debounce.

Section Rules.
Import RuleEngine.

(** ** Rules for detections *)

Lemma addNew_firstPerPattern (all rs : list GitIgnoreRule) :
  addNew all rs
  = all ++ filter (fun r => pattern r ∉ pattern <$> all) (firstPerPattern rs).
Proof.
  revert all. induction rs as [|r rs IH]; intros all.
  - by rewrite app_nil_r.
  - unfold addNew in *. simpl. rewrite filter_cons.
    destruct (decide (pattern r ∈ pattern <$> all)) as [Hin|Hout].
    + rewrite IH, decide_False by (intros H; by apply H).
      f_equal. rewrite list_filter_filter. apply list_filter_iff.
      intros x. split; [|by intros []]. intros Hx. split; [done|].
      intros E. apply Hx. by rewrite E.
    + rewrite IH, decide_True by done.
      rewrite <- (assoc_L (++)). simpl. do 2 f_equal.
      rewrite list_filter_filter. apply list_filter_iff.
      intros x. rewrite fmap_app, elem_of_app. simpl.
      rewrite list_elem_of_singleton. tauto.
Qed.

Lemma foldl_pushUnseen (all rs : list GitIgnoreRule) (seen : gset string) :
  seen = list_to_set (pattern <$> all) ->
  foldl pushUnseen (all, seen) rs
  = (addNew all rs, list_to_set (pattern <$> addNew all rs)).
Proof.
  revert all seen. induction rs as [|r rs IH]; intros all seen Hs.
  - simpl. by rewrite Hs.
  - unfold addNew. simpl. unfold pushUnseen at 1.
    destruct (decide (pattern r ∈ seen)) as [Hin|Hout].
    + rewrite decide_True by (rewrite Hs in Hin; by apply elem_of_list_to_set in Hin).
      by apply IH.
    + rewrite decide_False
        by (intros H; apply Hout; rewrite Hs; by apply elem_of_list_to_set).
      apply IH. rewrite Hs, fmap_app, list_to_set_app_L. simpl.
      set_solver.
Qed.

Lemma addNew_app (all a b : list GitIgnoreRule) :
  addNew all (a ++ b) = addNew (addNew all a) b.
Proof. unfold addNew. by rewrite foldl_app. Qed.

Section FirstOccurrences.
Context {A : Type} `{EqDecision A}.

Lemma firstOccurrences_elem (l : list A) (x : A) :
  x ∈ firstOccurrences l <-> x ∈ l.
Proof.
  induction l as [|y r IH]; [done|]. simpl.
  rewrite !elem_of_cons, list_elem_of_filter, IH.
  destruct (decide (x = y)); tauto.
Qed.

Lemma firstOccurrences_NoDup (l : list A) : NoDup (firstOccurrences l).
Proof.
  induction l as [|y r IH]; simpl; [constructor|].
  apply NoDup_cons. split.
  - rewrite list_elem_of_filter. tauto.
  - by apply NoDup_filter.
Qed.

Lemma firstOccurrences_snoc (l : list A) (c : A) :
  firstOccurrences (l ++ [c])
  = if decide (c ∈ l) then firstOccurrences l else firstOccurrences l ++ [c].
Proof.
  induction l as [|x r IH]; [done|].
  simpl. rewrite IH.
  destruct (decide (c ∈ x :: r)) as [H1|H1]; destruct (decide (c ∈ r)) as [H2|H2].
  - done.
  - apply elem_of_cons in H1 as [->|H1]; [|done].
    rewrite filter_app, filter_cons, decide_False by tauto.
    by rewrite filter_nil, app_nil_r.
  - exfalso. apply H1. by right.
  - rewrite filter_app, filter_cons, decide_True;
      [by rewrite filter_nil|].
    intros ->. apply H1. by left.
Qed.
End FirstOccurrences.

Section Keyed.
Context {K V : Type} `{EqDecision K}.

Lemma mapGet_keyed (f : K -> V) (ks : list K) (k : K) :
  mapGet k ((fun k => (k, f k)) <$> ks)
  = if decide (k ∈ ks) then Some (f k) else None.
Proof.
  induction ks as [|x r IH]; [done|]. rewrite fmap_cons. cbn [mapGet].
  destruct (decide (x = k)) as [->|Hne].
  - rewrite decide_True by by left. done.
  - rewrite IH. destruct (decide (k ∈ r)) as [Hin|Hout].
    + rewrite decide_True by by right. done.
    + rewrite decide_False; [done|]. rewrite elem_of_cons. naive_solver.
Qed.

Lemma mapSet_keyed_new (f : K -> V) (ks : list K) (k : K) (v : V) :
  k ∉ ks ->
  mapSet k v ((fun k => (k, f k)) <$> ks)
  = ((fun k => (k, f k)) <$> ks) ++ [(k, v)].
Proof.
  induction ks as [|x r IH]; intros Hk; [done|]. rewrite fmap_cons. cbn [mapSet].
  rewrite decide_False by (intros ->; apply Hk; by left).
  rewrite IH; [done|]. intros H. apply Hk. by right.
Qed.

Lemma mapSet_keyed_old (f g : K -> V) (ks : list K) (k : K) (v : V) :
  k ∈ ks -> NoDup ks -> g k = v -> (forall x, x <> k -> g x = f x) ->
  mapSet k v ((fun k => (k, f k)) <$> ks) = (fun k => (k, g k)) <$> ks.
Proof.
  intros Hin Hnd Hg Hf. induction ks as [|x r IH]; [by apply elem_of_nil in Hin|].
  apply NoDup_cons in Hnd as [Hx Hnd]. rewrite !fmap_cons. cbn [mapSet].
  destruct (decide (x = k)) as [->|Hne].
  - rewrite Hg. f_equal. apply list_fmap_ext. intros i y Hy.
    rewrite Hf; [done|]. intros ->. apply Hx.
    by apply list_elem_of_lookup_2 in Hy.
  - rewrite Hf by done. f_equal. apply IH; [|done].
    apply elem_of_cons in Hin as [->|Hin]; done.
Qed.
End Keyed.

(** The grouping loop builds, for every ecosystem in order of first
    appearance, the list of its detections. *)
Lemma grouping (ds : list DetectedFramework) :
  foldl groupStep [] ds
  = (fun c => (c, filter (fun d => ruleCategory d = c) ds))
      <$> firstOccurrences (ruleCategory <$> ds).
Proof.
  induction ds as [|d ds IH] using rev_ind; [done|].
  rewrite foldl_app. simpl. rewrite IH. unfold groupStep.
  rewrite mapGet_keyed, fmap_app.
  change (ruleCategory <$> [d]) with [ruleCategory d].
  rewrite firstOccurrences_snoc.
  destruct (decide (ruleCategory d ∈ ruleCategory <$> ds)) as [Hin|Hout].
  - rewrite decide_True by by apply firstOccurrences_elem.
    simpl. apply mapSet_keyed_old.
    + by apply firstOccurrences_elem.
    + apply firstOccurrences_NoDup.
    + by rewrite filter_app, filter_cons, decide_True.
    + intros x Hx. by rewrite filter_app, filter_cons, decide_False, app_nil_r.
  - rewrite decide_False by by rewrite firstOccurrences_elem.
    simpl. rewrite mapSet_keyed_new by by rewrite firstOccurrences_elem.
    rewrite fmap_app. simpl. f_equal.
    + apply list_fmap_ext. intros i x Hx.
      rewrite filter_app, filter_cons, decide_False, app_nil_r; [reflexivity|].
      intros E. apply Hout. rewrite E.
      apply list_elem_of_lookup_2 in Hx.
      by apply (proj1 (firstOccurrences_elem _ _)) in Hx.
    + rewrite filter_app, filter_cons, decide_True by done. simpl.
      assert (filter (fun d0 => ruleCategory d0 = ruleCategory d) ds = []) as ->; [|done].
      apply elem_of_nil_inv. intros x Hx.
      apply list_elem_of_filter in Hx as [E Hx].
      apply Hout. rewrite <- E. by apply list_elem_of_fmap_2.
Qed.

Lemma frameworks_loop (catalog : Catalog) (c : RuleCategory)
    (cds : list DetectedFramework) (all : list GitIgnoreRule) (seen : gset string) :
  seen = list_to_set (pattern <$> all) ->
  foldl (fun st d => foldl pushUnseen st (getFrameworkRules catalog c (id d)))
        (all, seen) cds
  = (addNew all (cds ≫= fun d => getFrameworkRules catalog c (id d)),
     list_to_set (pattern <$> addNew all (cds ≫= fun d => getFrameworkRules catalog c (id d)))).
Proof.
  revert all seen. induction cds as [|d cds IH]; intros all seen Hs.
  - simpl. by rewrite Hs.
  - simpl. rewrite (foldl_pushUnseen all _ seen Hs).
    rewrite IH by done. by rewrite addNew_app.
Qed.

Lemma categories_loop (catalog : Catalog)
    (bc : list (RuleCategory * list DetectedFramework))
    (all : list GitIgnoreRule) (seen : gset string) :
  seen = list_to_set (pattern <$> all) ->
  (foldl (categoryStep catalog) (all, seen) bc).1
  = addNew all (bc ≫= fun e => getRulesForCategory catalog e.1
                               ++ (e.2 ≫= fun d => getFrameworkRules catalog e.1 (id d))).
Proof.
  revert all seen. induction bc as [|[c cds] bc IH]; intros all seen Hs; [done|].
  simpl. rewrite (foldl_pushUnseen all _ seen Hs).
  rewrite frameworks_loop by done.
  rewrite IH by done. by rewrite !addNew_app.
Qed.

Lemma bind_keyed {K V B} (f : K -> V) (g : K * V -> list B) (ks : list K) :
  ((fun k => (k, f k)) <$> ks) ≫= g = ks ≫= fun k => g (k, f k).
Proof.
  induction ks as [|k ks IH]; [done|].
  by rewrite fmap_cons, !bind_cons, IH.
Qed.

Lemma getRulesForDetections_eq (catalog : Catalog) (ds : list DetectedFramework) :
  getRulesForDetections catalog ds = firstPerPattern (emitted catalog ds).
Proof.
  unfold getRulesForDetections. rewrite grouping.
  rewrite (categories_loop catalog _ [] ∅) by done.
  rewrite bind_keyed. rewrite addNew_firstPerPattern. simpl.
  unfold emitted, blockOf. simpl.
  induction (firstPerPattern _) as [|r rs IH]; [done|].
  rewrite filter_cons, decide_True by apply not_elem_of_nil. by rewrite IH.
Qed.

Lemma firstPerPattern_elem (rs : list GitIgnoreRule) (r : GitIgnoreRule) :
  r ∈ firstPerPattern rs -> r ∈ rs.
Proof.
  induction rs as [|x rs IH]; [done|]. simpl.
  rewrite !elem_of_cons, list_elem_of_filter. naive_solver.
Qed.

Lemma firstPerPattern_NoDup (rs : list GitIgnoreRule) :
  NoDup (pattern <$> firstPerPattern rs).
Proof.
  induction rs as [|x rs IH]; simpl; [constructor|].
  apply NoDup_cons. split.
  - intros H. apply list_elem_of_fmap in H as (y & Hy & Hin).
    apply list_elem_of_filter in Hin as [Hne _]. by apply Hne.
  - revert IH. generalize (firstPerPattern rs). intros l.
    induction l as [|y l IHl]; intros Hn; [constructor|].
    rewrite fmap_cons in Hn. apply NoDup_cons in Hn as [Hy Hn].
    rewrite filter_cons. destruct (decide (pattern y <> pattern x)).
    + rewrite fmap_cons. apply NoDup_cons. split; [|by apply IHl].
      intros H. apply Hy. apply list_elem_of_fmap in H as (z & Hz & Hin).
      apply list_elem_of_filter in Hin as [_ Hin].
      rewrite Hz. by apply list_elem_of_fmap_2.
    + by apply IHl.
Qed.

(** A pattern that occurs in the first part of the candidates is won
    there. *)
Lemma firstPerPattern_first (a b : list GitIgnoreRule) (r : GitIgnoreRule) :
  r ∈ firstPerPattern (a ++ b) ->
  (exists x, x ∈ a /\ pattern x = pattern r) ->
  r ∈ a.
Proof.
  induction a as [|y a IH]; intros Hr (x & Hx & Hp).
  - by apply elem_of_nil in Hx.
  - simpl in Hr. apply elem_of_cons in Hr as [->|Hr]; [by left|].
    apply list_elem_of_filter in Hr as [Hne Hr]. right. apply IH; [done|].
    exists x. split; [|done].
    apply elem_of_cons in Hx as [->|Hx]; [|done]. by destruct Hne.
Qed.

(** Claim C6, as amended. The rules for a list of detections are the
    candidate rules, ecosystem by ecosystem in the order in which the
    ecosystems first appear, base rules before the rules of the detected
    frameworks in detection order, with only the first rule of each
    pattern kept. So the patterns of the result are pairwise distinct,
    and a rule of the result whose pattern is that of a base rule of an
    ecosystem [c] among the detections is a base rule of [c] or a
    candidate of an ecosystem that first appears before [c]: within an
    ecosystem the base rule wins over the framework rules. *)
Theorem rules_for_detections (catalog : Catalog) (ds : list DetectedFramework) :
  getRulesForDetections catalog ds = firstPerPattern (emitted catalog ds)
  /\ NoDup (pattern <$> getRulesForDetections catalog ds)
  /\ (forall before c after r,
        firstOccurrences (ruleCategory <$> ds) = before ++ c :: after ->
        r ∈ getRulesForDetections catalog ds ->
        (exists b, b ∈ getRulesForCategory catalog c /\ pattern b = pattern r) ->
        r ∈ (before ≫= blockOf catalog ds) ++ getRulesForCategory catalog c).
Proof.
  rewrite getRulesForDetections_eq. split; [done|]. split.
  - apply firstPerPattern_NoDup.
  - intros before c after r Hc Hr (b & Hb & Hp).
    unfold emitted in Hr. rewrite Hc, bind_app, bind_cons in Hr.
    unfold blockOf at 2 in Hr. rewrite !(assoc_L (++)) in Hr.
    rewrite <- (assoc_L (++) _ _ (after ≫= _)) in Hr.
    eapply firstPerPattern_first; [exact Hr|].
    exists b. split; [|done]. apply elem_of_app. by right.
Qed.

(** Claim C6 as stated fails: with React detected before Python, the
    framework rule for [coverage/] of React is kept and the base rule of
    Python for the same pattern is dropped. *)
Lemma rules_for_detections_counterexample :
  getRulesForDetections sampleCatalog sampleDetections
  = [sampleRule "node_modules/" recommended "Dependencies";
     sampleRule ".env" critical "Environment variables";
     sampleRule "build/" recommended "Build output";
     sampleRule "coverage/" recommended "Jest coverage";
     sampleRule "__pycache__/" recommended "Bytecode"]
  /\ getFrameworkRules sampleCatalog cat_node react
     = [sampleRule "build/" recommended "Build output";
        sampleRule "coverage/" recommended "Jest coverage"]
  /\ getRulesForCategory sampleCatalog cat_python
     = [sampleRule "__pycache__/" recommended "Bytecode";
        sampleRule "coverage/" optional "Coverage reports";
        sampleRule ".env" critical "Environment variables"].
Proof. by vm_compute. Qed.

(** Claim C6: the base rule [.env] of the first ecosystem. *)
Lemma rules_for_detections_witness :
  sampleRule ".env" critical "Environment variables"
  ∈ ([] ≫= blockOf sampleCatalog sampleDetections)
    ++ getRulesForCategory sampleCatalog cat_node.
Proof.
  apply (proj2 (proj2 (rules_for_detections sampleCatalog sampleDetections))
           [] cat_node [cat_python] _ eq_refl).
  - apply (bool_decide_unpack _). vm_compute. reflexivity.
  - exists (sampleRule ".env" critical "Environment variables").
    split; [|reflexivity]. right. left.
Defined.

End Rules.

(** ** The order of binary64 numbers *)

Ltac cmp_cases :=
  repeat match goal with
  | H : context [Z.compare ?a ?b] |- _ => destruct (Z.compare_spec a b)
  | |- context [Z.compare ?a ?b] => destruct (Z.compare_spec a b)
  | H : context [Pos.compare ?a ?b] |- _ => destruct (Pos.compare_spec a b)
  | |- context [Pos.compare ?a ?b] => destruct (Pos.compare_spec a b)
  end.

Lemma SFcompare_lt_trans (x y z : spec_float) :
  SFcompare x y = Some Lt -> SFcompare y z = Some Lt -> SFcompare x z = Some Lt.
Proof.
  destruct x as [sx|sx| |sx mx ex], y as [sy|sy| |sy my ey], z as [sz|sz| |sz mz ez];
    simpl; try discriminate;
    try (destruct sx); try (destruct sy); try (destruct sz);
    try discriminate; try reflexivity;
    change (Pos.compare_cont Eq) with Pos.compare;
    intros H1 H2; cmp_cases; simpl in *; try discriminate; try reflexivity;
    lia.
Qed.

Lemma SFcompare_lt_irrefl (x : spec_float) : SFcompare x x <> Some Lt.
Proof.
  destruct x as [sx|sx| |sx mx ex]; simpl; try discriminate;
    destruct sx; try discriminate;
    change (Pos.compare_cont Eq) with Pos.compare;
    rewrite Z.compare_refl, Pos.compare_refl; discriminate.
Qed.

Lemma SFcompare_lt_eq (x d z : spec_float) :
  SFcompare x z = Some Lt -> SFcompare d z = Some Eq -> SFcompare x d = Some Lt.
Proof.
  destruct x as [sx|sx| |sx mx ex], d as [sd|sd| |sd md ed], z as [sz|sz| |sz mz ez];
    simpl; try discriminate;
    try (destruct sx); try (destruct sd); try (destruct sz);
    try discriminate; try reflexivity;
    change (Pos.compare_cont Eq) with Pos.compare;
    intros H1 H2; cmp_cases; simpl in *; try discriminate; try reflexivity;
    lia.
Qed.

Lemma ltb_trans (x y z : float) :
  (x <? y)%float = true -> (y <? z)%float = true -> (x <? z)%float = true.
Proof.
  rewrite !FloatAxioms.ltb_spec. unfold SFltb.
  destruct (SFcompare (Prim2SF x) (Prim2SF y)) as [[]|] eqn:E1; try discriminate.
  destruct (SFcompare (Prim2SF y) (Prim2SF z)) as [[]|] eqn:E2; try discriminate.
  by rewrite (SFcompare_lt_trans _ _ _ E1 E2).
Qed.

Lemma ltb_irrefl (x : float) : (x <? x)%float = false.
Proof.
  rewrite FloatAxioms.ltb_spec. unfold SFltb.
  pose proof (SFcompare_lt_irrefl (Prim2SF x)).
  by destruct (SFcompare (Prim2SF x) (Prim2SF x)) as [[]|].
Qed.

Lemma ltb_eqb (x d z : float) :
  (x <? z)%float = true -> (d =? z)%float = true -> (x <? d)%float = true.
Proof.
  rewrite !FloatAxioms.ltb_spec, FloatAxioms.eqb_spec. unfold SFltb, SFeqb.
  destruct (SFcompare (Prim2SF x) (Prim2SF z)) as [[]|] eqn:E1; try discriminate.
  destruct (SFcompare (Prim2SF d) (Prim2SF z)) as [[]|] eqn:E2; try discriminate.
  by rewrite (SFcompare_lt_eq _ _ _ E1 E2).
Qed.

(** ** Keeping the best detection of each framework *)

Section OrderedMapFacts.
Context {K V : Type} `{EqDecision K}.

Lemma mapGet_None (k : K) (m : list (K * V)) :
  mapGet k m = None <-> k ∉ m.*1.
Proof.
  induction m as [|[k' v] m IH]; simpl.
  - split; [intros _; apply not_elem_of_nil|done].
  - rewrite not_elem_of_cons. destruct (decide (k' = k)) as [->|Hne].
    + split; [done|]. by intros [[] _].
    + rewrite IH. naive_solver.
Qed.

Lemma mapGet_Some (k : K) (v : V) (m : list (K * V)) :
  mapGet k m = Some v -> (k, v) ∈ m.
Proof.
  induction m as [|[k' v'] m IH]; simpl; [done|].
  destruct (decide (k' = k)) as [->|Hne].
  - intros [= ->]. by left.
  - intros H. right. by apply IH.
Qed.

Lemma mapSet_keys_new (k : K) (v : V) (m : list (K * V)) :
  k ∉ m.*1 -> mapSet k v m = m ++ [(k, v)].
Proof.
  induction m as [|[k' v'] m IH]; intros Hk; [done|].
  apply not_elem_of_cons in Hk as [Hne Hk]. simpl.
  rewrite decide_False by done. by rewrite IH.
Qed.

Lemma mapSet_keys_old (k : K) (v : V) (m : list (K * V)) :
  k ∈ m.*1 -> (mapSet k v m).*1 = m.*1.
Proof.
  induction m as [|[k' v'] m IH]; intros Hk; [by apply elem_of_nil in Hk|].
  simpl. destruct (decide (k' = k)) as [->|Hne]; [done|].
  simpl. f_equal. apply IH.
  apply elem_of_cons in Hk as [Hk|Hk]; [by destruct Hne|done].
Qed.

Lemma mapSet_elem (k : K) (v : V) (m : list (K * V)) (i : K) (x : V) :
  NoDup m.*1 ->
  (i, x) ∈ mapSet k v m -> (i = k /\ x = v) \/ (i <> k /\ (i, x) ∈ m).
Proof.
  induction m as [|[k' v'] m IH]; intros Hn; simpl.
  - intros H. apply list_elem_of_singleton in H as [= -> ->]. by left.
  - apply NoDup_cons in Hn as [Hk Hn].
    destruct (decide (k' = k)) as [->|Hne].
    + intros H. apply elem_of_cons in H as [[= -> ->]|H]; [by left|].
      right. split; [|by right]. intros ->. apply Hk.
      by apply (list_elem_of_fmap_2 fst) in H.
    + intros H. apply elem_of_cons in H as [[= -> ->]|H].
      * right. split; [done|by left].
      * destruct (IH Hn H) as [?|[? ?]]; [by left|].
        right. split; [done|by right].
Qed.

Lemma keyed_unique (k : K) (v1 v2 : V) (m : list (K * V)) :
  NoDup m.*1 -> (k, v1) ∈ m -> (k, v2) ∈ m -> v1 = v2.
Proof.
  induction m as [|[i x] m IH]; intros Hn H1 H2; [by apply elem_of_nil in H1|].
  apply NoDup_cons in Hn as [Hi Hn].
  apply elem_of_cons in H1 as [[= <- <-]|H1];
    apply elem_of_cons in H2 as [[= <-]|H2]; try done.
  - destruct Hi. by apply (list_elem_of_fmap_2 fst) in H2.
  - subst. destruct Hi. by apply (list_elem_of_fmap_2 fst) in H1.
  - by apply IH.
Qed.
End OrderedMapFacts.

Section KeepBetter.
Variables better tie : DetectedFramework -> DetectedFramework -> bool.
Hypothesis better_irrefl : forall a, better a a = false.
Hypothesis better_trans :
  forall a b c, better a b = true -> better b c = true -> better a c = true.
Hypothesis better_tie :
  forall d e x, better d e = true -> tie x d = true -> better x e = true.

Lemma firstBest_keep (ds : list DetectedFramework) (k d : DetectedFramework) :
  FirstBest better tie ds k -> (id d = id k -> better d k = false) ->
  FirstBest better tie (ds ++ [d]) k.
Proof.
  intros (pre & post & -> & Hpre & Hpost) Hd.
  exists pre, (post ++ [d]). split; [by rewrite <- (assoc_L (++))|].
  split; [done|]. intros x Hx Hi.
  apply elem_of_app in Hx as [Hx|Hx]; [by apply Hpost|].
  apply list_elem_of_singleton in Hx as ->. by apply Hd.
Qed.

Lemma firstBest_new (ds : list DetectedFramework) (d : DetectedFramework) :
  (forall x, x ∈ ds -> id x <> id d) -> FirstBest better tie (ds ++ [d]) d.
Proof.
  intros Hnew. exists ds, []. split; [done|]. split.
  - intros x Hx Hi. by destruct (Hnew x Hx).
  - intros x Hx. by apply elem_of_nil in Hx.
Qed.

Lemma firstBest_replace (ds : list DetectedFramework) (e d : DetectedFramework) :
  FirstBest better tie ds e -> id e = id d -> better d e = true ->
  FirstBest better tie (ds ++ [d]) d.
Proof.
  intros (pre & post & -> & Hpre & Hpost) Hid Hb.
  exists (pre ++ e :: post), []. split; [done|]. split.
  - intros x Hx Hi.
    assert (Hxe : better x e = true -> False).
    { intros Hbx. apply elem_of_app in Hx as [Hx|Hx].
      - destruct (Hpre x Hx) as [H _]; congruence.
      - apply elem_of_cons in Hx as [->|Hx].
        + by rewrite better_irrefl in Hbx.
        + rewrite Hpost in Hbx; congruence. }
    split.
    + destruct (better x d) eqn:E; [|done].
      destruct Hxe. by apply (better_trans x d e).
    + destruct (tie x d) eqn:E; [|done].
      destruct Hxe. by apply (better_tie d e x).
  - intros x Hx. by apply elem_of_nil in Hx.
Qed.

Lemma keepBetter_kept (ds : list DetectedFramework)
    (byId : list (FrameworkId * DetectedFramework)) (d : DetectedFramework) :
  Kept better tie ds byId -> Kept better tie (ds ++ [d]) (keepBetter better byId d).
Proof.
  intros (Hn & Hk & Hall). unfold keepBetter.
  destruct (mapGet (id d) byId) as [e|] eqn:Hg.
  - apply mapGet_Some in Hg as Hin.
    assert (Hkey : id d ∈ byId.*1) by (by apply (list_elem_of_fmap_2 fst) in Hin).
    destruct (Hk _ _ Hin) as [Hid He].
    assert (Hunique : forall k, (id d, k) ∈ byId -> k = e)
      by (intros k Hk'; by apply (keyed_unique (id d) k e byId)).
    destruct (better d e) eqn:Hb.
    + split; [by rewrite mapSet_keys_old|]. split.
      * intros i k Hik. apply mapSet_elem in Hik; [|done].
        destruct Hik as [[-> ->]|[Hne Hik]].
        -- split; [done|]. by apply (firstBest_replace _ e).
        -- destruct (Hk _ _ Hik) as [Hi Hf]. split; [done|].
           apply firstBest_keep; [done|]. intros E. congruence.
      * intros x Hx. rewrite mapSet_keys_old by done.
        apply elem_of_app in Hx as [Hx|Hx]; [by apply Hall|].
        by apply list_elem_of_singleton in Hx as ->.
    + split; [done|]. split.
      * intros i k Hik. destruct (Hk _ _ Hik) as [Hi Hf]. split; [done|].
        apply firstBest_keep; [done|]. intros E.
        assert (k = e) as -> by (apply Hunique; congruence). done.
      * intros x Hx.
        apply elem_of_app in Hx as [Hx|Hx]; [by apply Hall|].
        by apply list_elem_of_singleton in Hx as ->.
  - apply mapGet_None in Hg. rewrite mapSet_keys_new by done.
    split; [|split].
    + rewrite fmap_app. apply NoDup_app. split; [done|]. split.
      * intros x Hx Hx'. apply list_elem_of_singleton in Hx' as ->. done.
      * apply NoDup_singleton.
    + intros i k Hik. apply elem_of_app in Hik as [Hik|Hik].
      * destruct (Hk _ _ Hik) as [Hi Hf]. split; [done|].
        apply firstBest_keep; [done|]. intros E. destruct Hg.
        rewrite E, Hi. by apply (list_elem_of_fmap_2 fst) in Hik.
      * apply list_elem_of_singleton in Hik as [= -> ->]. split; [done|].
        apply firstBest_new. intros x Hx E. apply Hg. rewrite <- E. by apply Hall.
    + intros x Hx. rewrite fmap_app, elem_of_app.
      apply elem_of_app in Hx as [Hx|Hx]; [left; by apply Hall|right].
      apply list_elem_of_singleton in Hx as ->. by left.
Qed.

Lemma keepBetter_deduplicated (ds : list DetectedFramework) :
  Deduplicated better tie ds (mapValues (foldl (keepBetter better) [] ds)).
Proof.
  assert (Hk : Kept better tie ds (foldl (keepBetter better) [] ds)).
  { induction ds as [|d ds IH] using rev_ind.
    - split; [constructor|]. split.
      + intros i k H. by apply elem_of_nil in H.
      + intros d H. by apply elem_of_nil in H.
    - rewrite foldl_app. by apply keepBetter_kept. }
  destruct Hk as (Hn & Hk & Hall). unfold mapValues. split; [|split].
  - rewrite <- list_fmap_compose.
    rewrite (list_fmap_ext (id ∘ snd) fst (foldl (keepBetter better) [] ds));
      [done|].
    intros i [j k] Hik. simpl. apply list_elem_of_lookup_2 in Hik.
    by destruct (Hk _ _ Hik).
  - intros d Hd. apply Hall in Hd.
    apply list_elem_of_fmap in Hd as ([i k] & Hi & Hik). simpl in Hi.
    exists k. split; [by apply (list_elem_of_fmap_2 snd) in Hik|].
    destruct (Hk _ _ Hik) as [E _]. congruence.
  - intros k Hk'. apply list_elem_of_fmap in Hk' as ([i k'] & -> & Hik).
    by destruct (Hk _ _ Hik).
Qed.
End KeepBetter.

Lemma node_dedup_eq (ds : list DetectedFramework) :
  NodeDetector.deduplicateDetections ds
  = mapValues (foldl (keepBetter moreConfident) [] ds).
Proof. reflexivity. Qed.

Lemma foldl_pointwise {A B} (f g : A -> B -> A) (a : A) (l : list B) :
  (forall a b, f a b = g a b) -> foldl f a l = foldl g a l.
Proof.
  intros H. revert a. induction l as [|b l IH]; intros a; [done|].
  simpl. by rewrite H, IH.
Qed.

Lemma java_dedup_eq (ds : list DetectedFramework) :
  JavaDetector.deduplicateByProximity ds
  = mapValues (foldl (keepBetter closerToRoot) [] ds).
Proof.
  unfold JavaDetector.deduplicateByProximity. f_equal.
  apply foldl_pointwise. intros byId d.
  unfold JavaDetector.dedupStep, keepBetter, closerToRoot.
  destruct (mapGet (id d) byId); [|done].
  destruct (decide _); [by rewrite bool_decide_true|by rewrite bool_decide_false].
Qed.

Lemma node_deduplicated (ds : list DetectedFramework) :
  Deduplicated moreConfident asConfident ds (NodeDetector.deduplicateDetections ds).
Proof.
  rewrite node_dedup_eq. apply keepBetter_deduplicated; unfold moreConfident, asConfident.
  - intros a. apply ltb_irrefl.
  - intros a b c H1 H2. by apply (ltb_trans _ (confidence b)).
  - intros d e x H1 H2. by apply (ltb_eqb _ _ (confidence d)).
Qed.

Lemma java_deduplicated (ds : list DetectedFramework) :
  Deduplicated closerToRoot asCloseToRoot ds (JavaDetector.deduplicateByProximity ds).
Proof.
  rewrite java_dedup_eq. apply keepBetter_deduplicated; unfold closerToRoot, asCloseToRoot.
  - intros a. apply bool_decide_eq_false. lia.
  - intros a b c H1%bool_decide_eq_true H2%bool_decide_eq_true.
    apply bool_decide_eq_true. lia.
  - intros d e x H1%bool_decide_eq_true H2%bool_decide_eq_true.
    apply bool_decide_eq_true. lia.
Qed.

(** Claim C7, as amended. The deduplication of the Node detector keeps
    one detection for each framework identifier among its input: the
    first of those that none exceeds in confidence. The deduplication of
    the Java detector keeps one detection for each identifier: the first
    of those with the fewest path segments. Of two [react] detections at
    0.85 and 0.9, in either order, the Node detector keeps the one at
    0.9. *)
Theorem deduplication (ds : list DetectedFramework) (p1 p2 : string) :
  Deduplicated moreConfident asConfident ds (NodeDetector.deduplicateDetections ds)
  /\ Deduplicated closerToRoot asCloseToRoot ds (JavaDetector.deduplicateByProximity ds)
  /\ NodeDetector.deduplicateDetections
       [createDetection cat_node react "React" p1 0.85;
        createDetection cat_node react "React" p2 0.9]
     = [createDetection cat_node react "React" p2 0.9]
  /\ NodeDetector.deduplicateDetections
       [createDetection cat_node react "React" p2 0.9;
        createDetection cat_node react "React" p1 0.85]
     = [createDetection cat_node react "React" p2 0.9].
Proof.
  split; [apply node_deduplicated|]. split; [apply java_deduplicated|].
  split; reflexivity.
Qed.

(** Claim C7 as stated fails: of two [node] detections at the same
    confidence the Node detector keeps the first, here the one of three
    path segments and not the one at the root. *)
Lemma deduplication_counterexample :
  NodeDetector.deduplicateDetections
    [createDetection cat_node node "Node.js" "packages/app/package.json" 0.8;
     createDetection cat_node node "Node.js" "package.json" 0.8]
  = [createDetection cat_node node "Node.js" "packages/app/package.json" 0.8]
  /\ Path.segments "packages/app/package.json" = 3
  /\ Path.segments "package.json" = 1
  /\ NodeDetector.detect
       {| NodeDetector.packageJsons := ["packages/app/package.json"; "package.json"];
          NodeDetector.readJsonFile := fun _ =>
            Some (NodeDetector.Truthy
                    {| NodeDetector.dependencies := None;
                       NodeDetector.devDependencies := None |});
          NodeDetector.fileExists := fun _ => false |}
     = [createDetection cat_node node "Node.js" "packages/app/package.json" 0.8].
Proof. by vm_compute. Qed.

(** ** The Node detector *)

Section Node.
Import NodeDetector.

Lemma frameworkLoop_elem (ws : workspace) (p dir : string) (deps : gmap string string)
    (fps : list FrameworkPattern) (acc : list DetectedFramework) (d : DetectedFramework) :
  d ∈ foldl (frameworkStep ws p dir deps) acc fps
  <-> d ∈ acc
      \/ exists framework,
           framework ∈ fps
           /\ existsb (hasKey deps) (fpDependencies framework) = true
           /\ d = createDetection cat_node (fpId framework) (fpName framework) p
                    (confidenceOf ws dir framework).
Proof.
  revert acc. induction fps as [|fp fps IH]; intros acc; simpl.
  - split; [by left|]. intros [H|(fp & H & _)]; [done|]. by apply elem_of_nil in H.
  - rewrite IH. unfold frameworkStep.
    destruct (existsb (hasKey deps) (fpDependencies fp)) eqn:E.
    + rewrite elem_of_app, list_elem_of_singleton. split.
      * intros [[H| ->]|(fp' & H1 & H2)].
        -- by left.
        -- right. exists fp. split; [by left|done].
        -- right. exists fp'. split; [by right|done].
      * intros [H|(fp' & H1 & H2 & H3)]; [by left; left|].
        apply elem_of_cons in H1 as [->|H1]; [by left; right|].
        right. eauto.
    + split.
      * intros [H|(fp' & H1 & H2)]; [by left|].
        right. exists fp'. split; [by right|done].
      * intros [H|(fp' & H1 & H2 & H3)]; [by left|].
        apply elem_of_cons in H1 as [->|H1]; [congruence|].
        right. eauto.
Qed.

Lemma manifestLoop_elem (ws : workspace) (ps : list string)
    (acc : list DetectedFramework) (d : DetectedFramework) :
  d ∈ foldl (manifestStep ws) acc ps
  <-> d ∈ acc \/ exists p, p ∈ ps /\ FromManifest ws p d.
Proof.
  revert acc. induction ps as [|p ps IH]; intros acc; simpl.
  - split; [by left|]. intros [H|(p & H & _)]; [done|]. by apply elem_of_nil in H.
  - rewrite IH. unfold manifestStep, FromManifest.
    destruct (readJsonFile ws p) as [[|pj]|] eqn:E; [| |].
    + split.
      * intros [H|(p' & H1 & H2)]; [by left|].
        right. exists p'. split; [by right|done].
      * intros [H|(p' & H1 & pj' & H2 & H3)]; [by left|].
        apply elem_of_cons in H1 as [->|H1]; [congruence|].
        right. exists p'. split; [done|]. eauto.
    + rewrite frameworkLoop_elem, elem_of_app, list_elem_of_singleton. split.
      * intros [[[H| ->]|H]|(p' & H1 & H2)].
        -- by left.
        -- right. exists p. split; [by left|]. rewrite E. eauto.
        -- right. exists p. split; [by left|]. rewrite E. eauto.
        -- right. exists p'. split; [by right|done].
      * intros [H|(p' & H1 & pj' & H2 & H3)]; [by left; left; left|].
        apply elem_of_cons in H1 as [->|H1].
        -- rewrite E in H2. injection H2 as <-. left.
           destruct H3 as [->|H3]; [by left; right|by right].
        -- right. exists p'. split; [done|]. eauto.
    + split.
      * intros [H|(p' & H1 & H2)]; [by left|].
        right. exists p'. split; [by right|done].
      * intros [H|(p' & H1 & pj' & H2 & H3)]; [by left|].
        apply elem_of_cons in H1 as [->|H1]; [congruence|].
        right. exists p'. split; [done|]. eauto.
Qed.

Lemma firstBest_elem (better tie : DetectedFramework -> DetectedFramework -> bool)
    (ds : list DetectedFramework) (k : DetectedFramework) :
  FirstBest better tie ds k -> k ∈ ds.
Proof. intros (pre & post & -> & _). apply elem_of_app. right. by left. Qed.

Lemma firstBest_unbeaten (better tie : DetectedFramework -> DetectedFramework -> bool)
    (ds : list DetectedFramework) (k d : DetectedFramework) :
  (forall a, better a a = false) ->
  FirstBest better tie ds k -> d ∈ ds -> id d = id k -> better d k = false.
Proof.
  intros Hirr (pre & post & -> & Hpre & Hpost) Hd Hi.
  apply elem_of_app in Hd as [Hd|Hd]; [by apply Hpre|].
  apply elem_of_cons in Hd as [->|Hd]; [apply Hirr|by apply Hpost].
Qed.

(** Claim C8. When the [package.json] at the root of the folder is
    among the manifests found, is read, and lists [next] among its
    dependencies, and [next.config.js] exists at the root, the result of
    the Node detector holds a detection of [node] at confidence 0.8 and a
    detection of [nextjs] at confidence 1, and no identifier twice. *)
Theorem next_project_detection
    (ws : workspace) (packageJson : PackageJson) (deps : gmap string string) :
  "package.json" ∈ packageJsons ws ->
  readJsonFile ws "package.json" = Some (Truthy packageJson) ->
  dependencies packageJson = Some deps ->
  is_Some (deps !! "next") ->
  fileExists ws "next.config.js" = true ->
  (exists d, d ∈ detect ws /\ id d = node /\ confidence d = 0.8%float)
  /\ (exists d, d ∈ detect ws /\ id d = nextjs /\ confidence d = 1%float)
  /\ NoDup (id <$> detect ws).
Proof.
  intros Hroot Hread Hdeps Hnext Hconfig.
  destruct (node_deduplicated (foldl (manifestStep ws) [] (packageJsons ws)))
    as (Hn & Hall & Hbest).
  fold (detect ws) in Hn, Hall, Hbest.
  assert (Hkey : existsb (hasKey (allDepsOf packageJson)) ["next"] = true).
  { simpl. rewrite orb_false_r. apply bool_decide_eq_true.
    unfold allDepsOf. rewrite Hdeps. simpl.
    apply lookup_union_is_Some. by right. }
  split; [|split; [|done]].
  - destruct (Hall (createDetection cat_node node "Node.js" "package.json" 0.8))
      as (k & Hk & Hid).
    { apply manifestLoop_elem. right. exists "package.json". split; [done|].
      exists packageJson. split; [done|]. by left. }
    exists k. split; [done|]. split; [done|].
    apply Hbest, firstBest_elem, manifestLoop_elem in Hk as [Hk|(p & _ & pj & _ & Hk)];
      [by apply elem_of_nil in Hk|].
    destruct Hk as [->|(fp & Hfp & _ & ->)]; [done|].
    simpl in Hid. unfold frameworkPatterns in Hfp.
    repeat (apply elem_of_cons in Hfp as [->|Hfp]; [discriminate|]).
    by apply elem_of_nil in Hfp.
  - set (d1 := createDetection cat_node nextjs "Next.js" "package.json" 1).
    assert (Hd1 : d1 ∈ foldl (manifestStep ws) [] (packageJsons ws)).
    { apply manifestLoop_elem. right. exists "package.json". split; [done|].
      exists packageJson. split; [done|]. right. eexists. split; [by left|].
      split; [exact Hkey|]. unfold d1, confidenceOf. simpl.
      change (Path.join (Path.dirname "package.json") "next.config.js")
        with "next.config.js".
      by rewrite Hconfig. }
    destruct (Hall d1 Hd1) as (k & Hk & Hid).
    exists k. split; [done|]. split; [done|].
    pose proof (firstBest_unbeaten _ _ _ k d1
                  (fun a => ltb_irrefl (confidence a)) (Hbest k Hk) Hd1 (eq_sym Hid))
      as Hmax.
    unfold moreConfident in Hmax. simpl in Hmax.
    apply Hbest, firstBest_elem, manifestLoop_elem in Hk as [Hk|(p & _ & pj & _ & Hk)];
      [by apply elem_of_nil in Hk|].
    destruct Hk as [->|(fp & Hfp & _ & ->)]; [done|].
    simpl in Hid. unfold frameworkPatterns in Hfp.
    apply elem_of_cons in Hfp as [->|Hfp].
    + unfold confidenceOf in *.
      clear Hkey.
      destruct (existsb _ _); [reflexivity|]. vm_compute in Hmax. discriminate.
    + repeat (apply elem_of_cons in Hfp as [->|Hfp]; [discriminate|]).
      by apply elem_of_nil in Hfp.
Qed.

(** Claim C8: the project of the example. *)
Lemma next_project_detection_witness :
  (exists d, d ∈ detect nextWorkspace /\ id d = node /\ confidence d = 0.8%float)
  /\ (exists d, d ∈ detect nextWorkspace /\ id d = nextjs /\ confidence d = 1%float).
Proof.
  destruct (next_project_detection nextWorkspace nextPackageJson {[ "next" := "^14.0" ]})
    as (H1 & H2 & _).
  - by left.
  - reflexivity.
  - reflexivity.
  - exists "^14.0". reflexivity.
  - reflexivity.
  - split; [exact H1|exact H2].
Defined.

End Node.

(** ** First matches *)

Lemma firstMatch_Some {A} (matches : A -> option bool) (xs : list A) (x : A) :
  firstMatch matches xs = Some (Some x) <-> FirstMatch matches xs x.
Proof.
  induction xs as [|a xs IH]; simpl.
  - split; [done|]. intros (pre & post & H & _). by destruct pre.
  - destruct (matches a) as [[|]|] eqn:E.
    + split.
      * intros [= ->]. exists [], xs. split; [done|]. split; [|done].
        intros y Hy. by apply elem_of_nil in Hy.
      * intros (pre & post & H & Hpre & Hx). destruct pre as [|b pre].
        -- by injection H as -> _.
        -- injection H as -> _.
           specialize (Hpre b (list_elem_of_here _ _)). congruence.
    + rewrite IH. split.
      * intros (pre & post & -> & Hpre & Hx). exists (a :: pre), post.
        split; [done|]. split; [|done].
        intros y Hy. apply elem_of_cons in Hy as [->|Hy]; [done|by apply Hpre].
      * intros (pre & post & H & Hpre & Hx). destruct pre as [|b pre].
        -- injection H as -> _. congruence.
        -- injection H as -> ->. exists pre, post. split; [done|].
           split; [|done]. intros y Hy. apply Hpre. by apply list_elem_of_further.
    + split; [done|]. intros (pre & post & H & Hpre & Hx). destruct pre as [|b pre].
      * injection H as -> _. congruence.
      * injection H as -> _.
        specialize (Hpre b (list_elem_of_here _ _)). congruence.
Qed.

Lemma firstMatch_None {A} (matches : A -> option bool) (xs : list A) :
  firstMatch matches xs = Some None <-> forall y, y ∈ xs -> matches y = Some false.
Proof.
  induction xs as [|a xs IH]; simpl.
  - split; [|done]. intros _ y Hy. by apply elem_of_nil in Hy.
  - destruct (matches a) as [[|]|] eqn:E.
    + split; [done|]. intros H. specialize (H a (list_elem_of_here _ _)). congruence.
    + rewrite IH. split.
      * intros H y Hy. apply elem_of_cons in Hy as [->|Hy]; [done|by apply H].
      * intros H y Hy. apply H. by apply list_elem_of_further.
    + split; [done|]. intros H. specialize (H a (list_elem_of_here _ _)). congruence.
Qed.

Lemma firstMatch_total {A} (matches : A -> option bool) (xs : list A) :
  (forall y, y ∈ xs -> matches y <> None) -> firstMatch matches xs <> None.
Proof.
  induction xs as [|a xs IH]; simpl; [done|]. intros H.
  pose proof (H a (list_elem_of_here _ _)) as Ha.
  destruct (matches a) as [[|]|]; [done| |done].
  apply IH. intros y Hy. apply H. by apply list_elem_of_further.
Qed.

Lemma firstMatch_ext {A} (f g : A -> option bool) (xs : list A) :
  (forall y, y ∈ xs -> f y = g y) -> firstMatch f xs = firstMatch g xs.
Proof.
  induction xs as [|a xs IH]; simpl; [done|]. intros H.
  rewrite <- (H a (list_elem_of_here _ _)). rewrite IH; [done|].
  intros y Hy. apply H. by apply list_elem_of_further.
Qed.

(** ** The rule engine: severities and the first matching rule *)

(** Property X1. Filtering by severity twice is filtering once by the
    stricter of the two levels. Filtering at [optional] keeps every
    rule, and filtering at [critical] is [getCriticalRules]. *)
Theorem severity_filters (rs : list GitIgnoreRule) (a b : RuleSeverity) :
  RuleEngine.filterBySeverity (RuleEngine.filterBySeverity rs a) b
  = RuleEngine.filterBySeverity rs (stricter a b)
  /\ RuleEngine.filterBySeverity rs optional = rs
  /\ RuleEngine.filterBySeverity rs critical = RuleEngine.getCriticalRules rs.
Proof.
  unfold RuleEngine.filterBySeverity, RuleEngine.getCriticalRules.
  split; [|split].
  - rewrite list_filter_filter. apply list_filter_iff. intros r.
    unfold stricter. destruct a, b; simpl; lia.
  - induction rs as [|r rs IH]; [done|].
    rewrite filter_cons, decide_True, IH; [done|].
    destruct (severity r); simpl; lia.
  - apply list_filter_iff. intros r. destruct (severity r); simpl; split; (done || lia).
Qed.

Lemma engine_occurs (path : string) (r : GitIgnoreRule) :
  StarFree (pattern r) ->
  (RuleEngine.matchesPattern path (JS.basename path) (pattern r) = Some true
   <-> OccursIn path r)
  /\ (RuleEngine.matchesPattern path (JS.basename path) (pattern r) = Some false
      <-> ~ OccursIn path r).
Proof.
  intros Hs. destruct (engine_star_free path (JS.basename path) (pattern r) Hs) as [Hd Hm].
  assert (Ht : RuleEngine.matchesPattern path (JS.basename path) (pattern r) = Some true
               <-> OccursIn path r).
  { rewrite Hm. unfold OccursIn. split; [|by right].
    intros [Hb|Hc]; [|done]. rewrite <- Hb. apply basename_contained. }
  split; [done|]. rewrite <- Ht. destruct Hd as [-> | ->]; split; congruence.
Qed.

(** Property X2. For rules whose patterns hold no star,
    [matchesAnyRule] returns: the first rule whose pattern, less one
    trailing slash, occurs in the path with its backslashes turned into
    slashes, and null exactly when no rule has such a pattern. *)
Theorem first_rule_in_path (filePath : string) (rs : list GitIgnoreRule) :
  (forall r, r ∈ rs -> StarFree (pattern r)) ->
  exists res,
    RuleEngine.matchesAnyRule filePath rs = Some res
    /\ match res with
       | Some r =>
           exists pre post,
             rs = pre ++ r :: post
             /\ OccursIn (JS.replaceChar JS.backslash "/" filePath) r
             /\ forall y, y ∈ pre ->
                  ~ OccursIn (JS.replaceChar JS.backslash "/" filePath) y
       | None =>
           forall y, y ∈ rs ->
             ~ OccursIn (JS.replaceChar JS.backslash "/" filePath) y
       end.
Proof.
  intros Hs. unfold RuleEngine.matchesAnyRule. cbv zeta.
  set (path := JS.replaceChar JS.backslash "/" filePath).
  set (m := fun rule : GitIgnoreRule =>
              RuleEngine.matchesPattern path (JS.basename path) (pattern rule)).
  destruct (firstMatch m rs) as [[r|]|] eqn:E.
  - exists (Some r). split; [done|].
    apply firstMatch_Some in E as (pre & post & -> & Hpre & Hr).
    exists pre, post. split; [done|]. split.
    + apply engine_occurs; [|done]. apply Hs. set_solver.
    + intros y Hy. apply engine_occurs; [|by apply Hpre]. apply Hs. set_solver.
  - exists None. split; [done|]. intros y Hy.
    apply engine_occurs; [by apply Hs|].
    by apply (proj1 (firstMatch_None m rs) E).
  - exfalso. revert E. apply firstMatch_total. intros y Hy. unfold m.
    destruct (engine_star_free path (JS.basename path) (pattern y) (Hs y Hy))
      as [[-> | ->] _]; done.
Qed.

(** Property X2: [.env] is the first of two rules to occur in
    [src/.env.local], given with a backslash. *)
Lemma first_rule_in_path_witness :
  RuleEngine.matchesAnyRule "src\.env.local"
    [sampleRule "node_modules/" recommended "Dependencies";
     sampleRule ".env" critical "Environment variables"]
  = Some (Some (sampleRule ".env" critical "Environment variables")).
Proof.
  destruct (first_rule_in_path "src\.env.local"
              [sampleRule "node_modules/" recommended "Dependencies";
               sampleRule ".env" critical "Environment variables"])
    as (res & Hres & Hspec).
  - intros r Hr. unfold StarFree. rewrite <- includes_spec.
    apply elem_of_cons in Hr as [->|Hr]; [by vm_compute|].
    apply elem_of_cons in Hr as [->|Hr]; [by vm_compute|].
    by apply elem_of_nil in Hr.
  - rewrite Hres. vm_compute in Hres. by injection Hres as <-.
Defined.

(** ** The scan of the staged files *)

Lemma scanChange_eq (rules : list GitIgnoreRule)
    (warnings : list StagedFileWarning.t) (change : CommitScanner.Change) :
  CommitScanner.scanChange rules warnings change
  = match firstMatch (stagedTest change) rules with
    | None => None
    | Some (Some r) => Some (warnings ++ [warningOf change r])
    | Some None => Some warnings
    end.
Proof.
  unfold CommitScanner.scanChange, CommitScanner.matchFile. cbv zeta.
  change (firstMatch _ rules) with (firstMatch (stagedTest change) rules).
  by destruct (firstMatch (stagedTest change) rules) as [[r|]|].
Qed.

Lemma scan_loop (rules : list GitIgnoreRule) (changes : list CommitScanner.Change)
    (acc : option (list StagedFileWarning.t)) :
  foldl (fun acc change => warnings ← acc; CommitScanner.scanChange rules warnings change)
        acc changes
  = warnings ← acc;
    found ← mapM (fun change => firstMatch (stagedTest change) rules) changes;
    Some (warnings ++ omap (fun '(change, hit) => warningOf change <$> hit)
                           (zip changes found)).
Proof.
  revert acc. induction changes as [|c cs IH]; intros acc; simpl.
  - destruct acc as [ws|]; simpl; [|done]. by rewrite app_nil_r.
  - rewrite IH. destruct acc as [ws|]; simpl; [|done].
    rewrite scanChange_eq.
    destruct (firstMatch (stagedTest c) rules) as [[r|]|]; simpl; [| |done].
    + destruct (mapM _ cs) as [found|]; simpl; [|done]. by rewrite <- app_assoc.
    + destruct (mapM _ cs) as [found|]; simpl; done.
Qed.

Lemma scanStagedFiles_eq (repository : CommitScanner.Repository)
    (rules : list GitIgnoreRule) :
  CommitScanner.scanStagedFiles repository rules
  = found ← mapM (fun change => firstMatch (stagedTest change) rules)
                 (CommitScanner.indexChanges repository);
    Some (omap (fun '(change, hit) => warningOf change <$> hit)
               (zip (CommitScanner.indexChanges repository) found)).
Proof. unfold CommitScanner.scanStagedFiles. by rewrite scan_loop. Qed.

Lemma scan_found (rules : list GitIgnoreRule) (changes : list CommitScanner.Change)
    (found : list (option GitIgnoreRule)) :
  Forall2 (fun change hit => firstMatch (stagedTest change) rules = Some hit)
          changes found ->
  let ws := omap (fun '(change, hit) => warningOf change <$> hit) (zip changes found) in
  (StagedFileWarning.filePath <$> ws) `sublist_of` (stagedPath <$> changes)
  /\ (forall w, w ∈ ws ->
        exists change rule,
          change ∈ changes /\ FirstMatch (stagedTest change) rules rule
          /\ w = warningOf change rule)
  /\ (forall change rule,
        change ∈ changes -> FirstMatch (stagedTest change) rules rule ->
        warningOf change rule ∈ ws).
Proof.
  induction 1 as [|c hit cs found Hc _ IH]; simpl.
  - split; [done|]. split; [intros w Hw|intros c r Hc]; by apply elem_of_nil in Hw || by apply elem_of_nil in Hc.
  - destruct IH as (IH1 & IH2 & IH3).
    destruct hit as [r|]; simpl.
    + split; [by apply sublist_skip|]. split.
      * intros w Hw. apply elem_of_cons in Hw as [->|Hw].
        -- exists c, r. split; [by left|]. split; [by apply firstMatch_Some|done].
        -- destruct (IH2 w Hw) as (c' & r' & ? & ? & ?). exists c', r'.
           split; [by right|done].
      * intros c' r' Hc' Hf. apply elem_of_cons in Hc' as [->|Hc'].
        -- apply firstMatch_Some in Hf. rewrite Hc in Hf. injection Hf as ->. by left.
        -- right. by apply IH3.
    + split; [by apply sublist_cons|]. split.
      * intros w Hw. destruct (IH2 w Hw) as (c' & r' & ? & ? & ?). exists c', r'.
        split; [by right|done].
      * intros c' r' Hc' Hf. apply elem_of_cons in Hc' as [->|Hc'].
        -- apply firstMatch_Some in Hf. rewrite Hc in Hf. done.
        -- by apply IH3.
Qed.

Lemma scanner_defined (f b p : string) :
  StarFree p \/ simpleGlob p = true -> CommitScanner.matchesPattern f b p <> None.
Proof.
  intros [Hs|Hg].
  - by destruct (scanner_star_free f b p Hs) as [[-> | ->] _].
  - unfold CommitScanner.matchesPattern, testEither. cbv zeta.
    rewrite scanner_parse by done. simpl.
    repeat (match goal with |- context [if ?c then _ else _] => destruct c end; try done).
Qed.

(** Property X3. If every pattern is free of stars or a simple glob,
    [scanStagedFiles] returns a list of warnings. Whenever it returns,
    the paths of the warnings are a sub-list of the paths of the staged
    changes, in their order; every warning is made of a staged change
    and of the first rule that matches it; and every staged change that
    some rule matches has its warning. *)
Theorem staged_scan (repository : CommitScanner.Repository)
    (rules : list GitIgnoreRule) :
  ((forall r, r ∈ rules -> StarFree (pattern r) \/ simpleGlob (pattern r) = true) ->
   exists ws, CommitScanner.scanStagedFiles repository rules = Some ws)
  /\ forall ws,
       CommitScanner.scanStagedFiles repository rules = Some ws ->
       (StagedFileWarning.filePath <$> ws)
         `sublist_of` (stagedPath <$> CommitScanner.indexChanges repository)
       /\ (forall w, w ∈ ws ->
             exists change rule,
               change ∈ CommitScanner.indexChanges repository
               /\ FirstMatch (stagedTest change) rules rule
               /\ w = warningOf change rule)
       /\ (forall change rule,
             change ∈ CommitScanner.indexChanges repository ->
             FirstMatch (stagedTest change) rules rule ->
             warningOf change rule ∈ ws).
Proof.
  rewrite scanStagedFiles_eq. split.
  - intros Hr.
    destruct (mapM _ (CommitScanner.indexChanges repository)) as [found|] eqn:E;
      [by eexists|].
    exfalso. apply mapM_None_1, Exists_exists in E as (c & _ & F).
    revert F. apply firstMatch_total. intros r Hin.
    apply scanner_defined. by apply Hr.
  - intros ws H.
    destruct (mapM _ (CommitScanner.indexChanges repository)) as [found|] eqn:E;
      [|done].
    simpl in H. injection H as <-.
    apply mapM_Some in E. by apply scan_found.
Qed.

Lemma sampleRules_starFree (r : GitIgnoreRule) :
  r ∈ sampleRules -> StarFree (pattern r) \/ simpleGlob (pattern r) = true.
Proof.
  intros Hr. left. unfold StarFree. rewrite <- includes_spec.
  apply elem_of_cons in Hr as [->|Hr]; [by vm_compute|].
  apply elem_of_cons in Hr as [->|Hr]; [by vm_compute|].
  by apply elem_of_nil in Hr.
Qed.

(** Property X3: of three staged files, two get a warning. *)
Lemma staged_scan_witness :
  CommitScanner.scanStagedFiles sampleRepository sampleRules = Some sampleWarnings
  /\ [".env.local"; "node_modules/x/index.js"]
       `sublist_of` ["src/app.ts"; ".env.local"; "node_modules/x/index.js"].
Proof.
  destruct (staged_scan sampleRepository sampleRules) as [H1 H2].
  destruct (H1 sampleRules_starFree) as [ws Hws].
  destruct (H2 ws Hws) as (Hsub & _).
  assert (ws = sampleWarnings) as -> by (vm_compute in Hws; injection Hws as <-; reflexivity).
  split; [exact Hws|exact Hsub].
Defined.

(** ** All repositories *)

Lemma mapSet_keys {K V} `{EqDecision K} (k : K) (v : V) (m : list (K * V)) :
  (mapSet k v m).*1 = if decide (k ∈ m.*1) then m.*1 else m.*1 ++ [k].
Proof.
  destruct (decide (k ∈ m.*1)) as [Hin|Hout].
  - by apply mapSet_keys_old.
  - rewrite mapSet_keys_new by done. by rewrite fmap_app.
Qed.

Lemma mapSet_NoDup {K V} `{EqDecision K} (k : K) (v : V) (m : list (K * V)) :
  NoDup m.*1 -> NoDup (mapSet k v m).*1.
Proof.
  intros Hn. rewrite mapSet_keys. destruct (decide (k ∈ m.*1)); [done|].
  apply NoDup_app. split; [done|]. split; [|apply NoDup_singleton].
  intros x Hx Hk. apply list_elem_of_singleton in Hk as ->. done.
Qed.

Lemma mapSet_has_key {K V} `{EqDecision K} (k : K) (v : V) (m : list (K * V)) :
  k ∈ (mapSet k v m).*1.
Proof.
  rewrite mapSet_keys. destruct (decide (k ∈ m.*1)); [done|].
  apply elem_of_app. right. by apply list_elem_of_singleton.
Qed.

Lemma mapSet_keeps_keys {K V} `{EqDecision K} (k i : K) (v : V) (m : list (K * V)) :
  i ∈ m.*1 -> i ∈ (mapSet k v m).*1.
Proof.
  intros Hi. rewrite mapSet_keys. destruct (decide (k ∈ m.*1)); [done|].
  apply elem_of_app. by left.
Qed.

Lemma scanAll_loop (rules : list GitIgnoreRule)
    (repos : list CommitScanner.Repository)
    (results results' : list (string * list StagedFileWarning.t)) :
  foldl (fun acc repo =>
           results ← acc;
           warnings ← CommitScanner.scanStagedFiles repo rules;
           Some match warnings with
                | [] => results
                | _ :: _ => mapSet (CommitScanner.rootPath repo) warnings results
                end)
        (Some results) repos = Some results' ->
  NoDup results.*1 ->
  NoDup results'.*1
  /\ (forall root ws, (root, ws) ∈ results' ->
        (root, ws) ∈ results
        \/ (ws <> []
            /\ exists repo, repo ∈ repos /\ CommitScanner.rootPath repo = root
                            /\ CommitScanner.scanStagedFiles repo rules = Some ws))
  /\ (forall root, root ∈ results.*1 -> root ∈ results'.*1)
  /\ (forall repo w ws, repo ∈ repos ->
        CommitScanner.scanStagedFiles repo rules = Some (w :: ws) ->
        CommitScanner.rootPath repo ∈ results'.*1).
Proof.
  revert results. induction repos as [|repo repos IH]; intros results; simpl.
  - intros [= <-] Hn. split; [done|]. split; [by left|]. split; [done|].
    intros repo w ws Hr. by apply elem_of_nil in Hr.
  - destruct (CommitScanner.scanStagedFiles repo rules) as [[|w0 ws0]|] eqn:E; simpl.
    + intros H Hn. destruct (IH _ H Hn) as (I1 & I2 & I3 & I4).
      split; [done|]. split; [|split; [done|]].
      * intros root ws Hin. destruct (I2 root ws Hin) as [?|(? & r & ? & ? & ?)];
          [by left|right]. split; [done|]. exists r. split; [by right|done].
      * intros r w ws Hr Hs. apply elem_of_cons in Hr as [->|Hr]; [congruence|].
        by eapply I4.
    + intros H Hn.
      pose proof (mapSet_NoDup (CommitScanner.rootPath repo) (w0 :: ws0) results Hn) as Hn'.
      destruct (IH _ H Hn') as (I1 & I2 & I3 & I4).
      split; [done|]. split; [|split].
      * intros root ws Hin. destruct (I2 root ws Hin) as [Hm|(? & r & ? & ? & ?)].
        -- apply mapSet_elem in Hm as [[-> ->]|[_ Hm]]; [|by left|done].
           right. split; [done|]. exists repo. split; [by left|done].
        -- right. split; [done|]. exists r. split; [by right|done].
      * intros root Hr. apply I3. by apply mapSet_keeps_keys.
      * intros r w ws Hr Hs. apply elem_of_cons in Hr as [->|Hr]; [|by eapply I4].
        apply I3. apply mapSet_has_key.
    + intros H. exfalso. clear -H. induction repos as [|r rs IHr]; simpl in H; [done|].
      by apply IHr.
Qed.

(** Property X4. In the result of [scanAllRepositories] no root path
    occurs twice; every entry holds at least one warning, and its
    warnings are the scan of a repository with that root; and every
    repository whose scan gives a warning has its root among the
    keys. *)
Theorem repositories_with_warnings (repositories : list CommitScanner.Repository)
    (rules : list GitIgnoreRule)
    (results : list (string * list StagedFileWarning.t)) :
  CommitScanner.scanAllRepositories repositories rules = Some results ->
  NoDup (mapKeys results)
  /\ (forall root ws, (root, ws) ∈ results ->
        ws <> []
        /\ exists repo, repo ∈ repositories /\ CommitScanner.rootPath repo = root
                        /\ CommitScanner.scanStagedFiles repo rules = Some ws)
  /\ (forall repo w ws, repo ∈ repositories ->
        CommitScanner.scanStagedFiles repo rules = Some (w :: ws) ->
        CommitScanner.rootPath repo ∈ mapKeys results).
Proof.
  intros H. apply scanAll_loop in H as (H1 & H2 & _ & H4); [|apply NoDup_nil_2].
  split; [done|]. split; [|done].
  intros root ws Hin. destruct (H2 root ws Hin) as [Hn|?]; [|done].
  by apply elem_of_nil in Hn.
Qed.

(** Property X4: of two repositories, the one with warnings is kept. *)
Lemma repositories_with_warnings_witness :
  NoDup (mapKeys [("/work/app", sampleWarnings)])
  /\ "/work/app" ∈ mapKeys [("/work/app", sampleWarnings)].
Proof.
  destruct (repositories_with_warnings [cleanRepository; sampleRepository] sampleRules
              [("/work/app", sampleWarnings)]) as (H1 & _ & H3).
  - by vm_compute.
  - split; [exact H1|].
    apply (H3 sampleRepository
              {| StagedFileWarning.filePath := ".env.local";
                 StagedFileWarning.matchedPattern := ".env";
                 StagedFileWarning.severity := critical;
                 StagedFileWarning.reason := "Environment variables" |}
              [{| StagedFileWarning.filePath := "node_modules/x/index.js";
                  StagedFileWarning.matchedPattern := "node_modules/";
                  StagedFileWarning.severity := recommended;
                  StagedFileWarning.reason := "Dependencies" |}]).
    + right. left.
    + by vm_compute.
Defined.

Section IgnoreFileUse.
Import GitIgnoreHandler.

(** ** What is missing, and what is added *)

Lemma findMissingPatterns_eq (rules : list GitIgnoreRule) (w : world) :
  readFault w = None ->
  findMissingPatterns rules w
  = (inl (filter (fun rule => normalizePattern (pattern rule)
                              ∉ parsePatterns (content w)) rules), w).
Proof.
  intros H. unfold findMissingPatterns, bind. by rewrite getExistingPatterns_eq.
Qed.

Lemma filter_stronger {A} (P Q : A -> Prop) `{!forall x, Decision (P x)}
    `{!forall x, Decision (Q x)} (l : list A) :
  (forall x, P x -> Q x) -> filter P l `sublist_of` filter Q l.
Proof.
  intros Hpq. assert (filter P l = filter P (filter Q l)) as ->.
  { rewrite list_filter_filter. apply list_filter_iff. intros x. split; [|tauto].
    intros Hx. split; [done|by apply Hpq]. }
  apply sublist_filter.
Qed.

(** Property X5. When the ignore file can be read (or is absent),
    [addPatterns] returns, and [findMissingPatterns] returns, without
    touching the host, the rules whose normalized pattern is not listed
    in the file. When [addPatterns] succeeds, the patterns it reports
    as added are those of the missing rules, the added and the existing
    patterns together are the patterns of the rules up to order, and
    the rules that are missing afterwards are among those missing
    before, none of them a proper pattern line. *)
Theorem add_adds_what_is_missing
    (rules : list GitIgnoreRule) (label : option string) (w : world) :
  readFault w = None ->
  exists r w' missing,
    addPatterns rules label w = (inl r, w')
    /\ findMissingPatterns rules w = (inl missing, w)
    /\ (forall rule, rule ∈ missing <->
          rule ∈ rules /\ ~ Listed (content w) (normalizePattern (pattern rule)))
    /\ (success r = true ->
        addedPatterns r = pattern <$> missing
        /\ addedPatterns r ++ existingPatterns r ≡ₚ pattern <$> rules
        /\ exists missing',
             findMissingPatterns rules w' = (inl missing', w')
             /\ missing' `sublist_of` missing
             /\ forall rule, rule ∈ missing' -> ~ ProperPattern (pattern rule)).
Proof.
  intros Hread. rewrite addPatterns_eq, findMissingPatterns_eq by done. cbv zeta.
  set (P := fun rule : GitIgnoreRule =>
              normalizePattern (pattern rule) ∉ parsePatterns (content w)).
  assert (Hmem : forall rule, rule ∈ filter P rules <->
            rule ∈ rules /\ ~ Listed (content w) (normalizePattern (pattern rule))).
  { intros rule. rewrite list_elem_of_filter. unfold P.
    rewrite parsePatterns_spec. tauto. }
  assert (Hperm : (pattern <$> filter P rules)
                  ++ (pattern <$> filter (fun rule => normalizePattern (pattern rule)
                                            ∈ parsePatterns (content w)) rules)
                  ≡ₚ pattern <$> rules).
  { rewrite <- fmap_app. apply fmap_Permutation.
    rewrite <- (filter_app_complement P rules) at 3.
    apply Permutation_app; [done|].
    assert (filter (fun rule => normalizePattern (pattern rule)
                                ∈ parsePatterns (content w)) rules
            = filter (fun rule => ~ P rule) rules) as ->; [|done].
    apply list_filter_iff. intros x. unfold P. split; [tauto|].
    intros Hx. by apply dec_stable. }
  assert (Hafter : forall w',
            readFault w' = None ->
            (forall x, Listed (content w) x -> Listed (content w') x) ->
            (forall rule, rule ∈ filter P rules -> ProperPattern (pattern rule) ->
               Listed (content w') (normalizePattern (pattern rule))) ->
            exists missing',
              findMissingPatterns rules w' = (inl missing', w')
              /\ missing' `sublist_of` filter P rules
              /\ forall rule, rule ∈ missing' -> ~ ProperPattern (pattern rule)).
  { intros w' Hread' Hkeep Hadd. rewrite findMissingPatterns_eq by done.
    eexists. split; [done|].
    split.
    - apply filter_stronger. intros x. unfold P. rewrite !parsePatterns_spec.
      intros Hx Hl. by apply Hx, Hkeep.
    - intros rule Hr Hp. apply list_elem_of_filter in Hr as [Hr Hin].
      apply Hr. apply parsePatterns_spec.
      destruct (decide (P rule)) as [Hy|Hn].
      + apply Hadd; [|done]. by apply list_elem_of_filter.
      + apply Hkeep. apply parsePatterns_spec. by apply dec_stable. }
  destruct (filter P rules) as [|r0 toAdd] eqn:E.
  - eexists _, _, _. split; [done|]. split; [done|]. split; [done|].
    intros _. split; [done|]. split; [done|].
    apply Hafter; [done|done|]. intros rule Hr. by apply elem_of_nil in Hr.
  - destruct (writeFault w) as [e|] eqn:Ew.
    + eexists _, _, _. split; [done|]. split; [done|]. split; [done|].
      intros Hs. discriminate.
    + eexists _, _, _. split; [done|]. split; [done|]. split; [done|].
      intros _. split; [done|]. split; [done|].
      apply Hafter.
      * done.
      * intros x Hx. unfold content at 1. simpl. by apply listed_kept.
      * intros rule Hr Hp. unfold content at 1. simpl. by apply listed_added.
Qed.

(** Property X5: the sample rules are missing from the sample file. *)
Lemma add_adds_what_is_missing_witness :
  exists r w' missing,
    addPatterns sampleRules None sampleWorld = (inl r, w')
    /\ findMissingPatterns sampleRules sampleWorld = (inl missing, sampleWorld)
    /\ (success r = true -> addedPatterns r = pattern <$> missing).
Proof.
  destruct (add_adds_what_is_missing sampleRules None sampleWorld eq_refl)
    as (r & w' & missing & H1 & H2 & _ & H4).
  exists r, w', missing. split; [exact H1|]. split; [exact H2|].
  intros Hs. destruct (H4 Hs) as [Ha _]. exact Ha.
Defined.

(** ** Creating the file *)

(** [exists] tells whether the file is there, unless [stat] fails on a
    file that is there. *)
Lemma exists_eq (w : world) :
  gitignore w = None \/ statFault w = None ->
  exists_ w = (inl (match gitignore w with Some _ => true | None => false end), w).
Proof.
  intros H. unfold exists_, tryCatch, bind, stat, ret. cbv beta.
  destruct H as [H|H]; rewrite H; [done|]. by destruct (gitignore w).
Qed.

Lemma create_eq (rules : list GitIgnoreRule) (detections : list DetectedFramework)
    (now : string) (w : world) :
  gitignore w = None \/ statFault w = None ->
  create rules detections now w
  = match gitignore w with
    | Some _ => addPatterns rules (Some (JS.joinWith ", " (name <$> detections))) w
    | None =>
        match writeFault w with
        | Some e =>
            (inl {| success := false; addedPatterns := []; existingPatterns := [];
                    error := Some (errorMessageOf e) |},
             {| gitignore := gitignore w; readFault := readFault w;
                statFault := statFault w; writeFault := writeFault w;
                writeCalls := S (writeCalls w) |})
        | None =>
            (inl {| success := true; addedPatterns := pattern <$> rules;
                    existingPatterns := []; error := None |},
             {| gitignore := Some (JS.join (createdLines rules detections now));
                readFault := readFault w; statFault := statFault w;
                writeFault := writeFault w;
                writeCalls := S (writeCalls w) |})
        end
    end.
Proof.
  intros Hstat. unfold create, bind at 1. rewrite exists_eq by done.
  destruct (gitignore w) as [c|] eqn:Eg; [done|].
  unfold tryCatch, bind, writeFile, ret. cbv zeta.
  destruct (writeFault w) as [e|] eqn:Ew; rewrite ?Eg; [done|].
  do 4 f_equal. unfold createdLines.
  assert (Hl : forall {X} (l : list X) (A : list string) (t : string) (B : list string),
            match l with [] => A | _ :: _ => A ++ [t] ++ B ++ [""] end
            = A ++ match l with [] => [] | _ :: _ => [t] ++ B ++ [""] end).
  { intros X l A t B. destruct l; [by rewrite app_nil_r|done]. }
  rewrite !Hl, <- !app_assoc. unfold createdBlock.
  repeat f_equal.
  - by destruct (filter (fun r => severity r = critical) rules).
  - by destruct (filter (fun r => severity r = recommended) rules).
  - by destruct (filter (fun r => severity r = optional) rules).
Qed.

Lemma join_snoc_blank (ls : list string) :
  ls <> [] -> JS.join (ls ++ [""]) = JS.join ls +:+ String JS.LF "".
Proof.
  induction ls as [|l ls IH]; [done|]. intros _.
  destruct ls as [|l' ls]; [done|].
  change (JS.join ((l :: l' :: ls) ++ [""]))
    with (l +:+ String JS.LF (JS.join ((l' :: ls) ++ [""]))).
  rewrite IH by done.
  change (JS.join (l :: l' :: ls)) with (l +:+ String JS.LF (JS.join (l' :: ls))).
  rewrite sapp_assoc. done.
Qed.

Lemma createdBlock_closed (title : string) (body : list string) :
  createdBlock title body = []
  \/ exists init, createdBlock title body = init ++ [""].
Proof.
  destruct body as [|b body]; [by left|right].
  exists (title :: b :: body). done.
Qed.

Lemma closed_app (A B : list string) :
  (exists init, init <> [] /\ A = init ++ [""]) ->
  B = [] \/ (exists init, B = init ++ [""]) ->
  exists init, init <> [] /\ A ++ B = init ++ [""].
Proof.
  intros (i & Hi & ->) [-> | [j ->]].
  - exists i. split; [exact Hi|]. apply app_nil_r.
  - exists ((i ++ [""]) ++ j). split.
    + intros H. apply app_eq_nil in H as [H _]. apply app_eq_nil in H as [H _].
      by apply Hi.
    + apply app_assoc.
Qed.

Lemma createdLines_closed (rules : list GitIgnoreRule)
    (detections : list DetectedFramework) (now : string) :
  exists init, init <> [] /\ createdLines rules detections now = init ++ [""].
Proof.
  unfold createdLines. rewrite !app_assoc.
  repeat (apply closed_app; [|apply createdBlock_closed]).
  eexists [_; _; _]. split; [discriminate|reflexivity].
Qed.

Lemma createdLines_patterns (rules : list GitIgnoreRule)
    (detections : list DetectedFramework) (now : string) (rule : GitIgnoreRule) :
  rule ∈ rules -> pattern rule ∈ createdLines rules detections now.
Proof.
  intros Hr. unfold createdLines.
  assert (Hb : forall t (body : list string) x, x ∈ body -> x ∈ createdBlock t body).
  { intros t body x Hx. destruct body as [|b body]; [done|].
    unfold createdBlock. apply elem_of_app. right. apply elem_of_app. by left. }
  destruct (severity rule) eqn:Es.
  - apply elem_of_app. right. apply elem_of_app. left. apply Hb.
    apply list_elem_of_bind. exists rule. split; [|by apply list_elem_of_filter].
    set_solver.
  - apply elem_of_app. right. apply elem_of_app. right. apply elem_of_app. left.
    apply Hb. apply list_elem_of_fmap. exists rule. split; [done|].
    by apply list_elem_of_filter.
  - apply elem_of_app. right. apply elem_of_app. right. apply elem_of_app. right.
    apply Hb. apply list_elem_of_fmap. exists rule. split; [done|].
    by apply list_elem_of_filter.
Qed.

Lemma created_listed (rules : list GitIgnoreRule)
    (detections : list DetectedFramework) (now : string) (rule : GitIgnoreRule) :
  rule ∈ rules -> ProperPattern (pattern rule) ->
  Listed (JS.join (createdLines rules detections now))
         (normalizePattern (pattern rule)).
Proof.
  intros Hr [Hp Hl].
  destruct (createdLines_closed rules detections now) as (init & Hi & E).
  pose proof (createdLines_patterns rules detections now rule Hr) as Hin.
  rewrite E in Hin |- *. rewrite join_snoc_blank by done.
  exists (pattern rule). split; [|done].
  apply in_split_join; [|done].
  apply elem_of_app in Hin as [Hin|Hin]; [done|].
  apply list_elem_of_singleton in Hin. destruct Hp as [Hp _].
  rewrite Hin in Hp. done.
Qed.

(** Property X6. When the host can stat and read the ignore file (or
    there is none), [create] returns a result, and the text of the file
    before the call is an initial part of the text after it, character
    by character and line by line. When the file exists, [create] is
    [addPatterns] with the names of the detections, joined by a comma
    and a space, as the label. *)
Theorem create_keeps_content (rules : list GitIgnoreRule)
    (detections : list DetectedFramework) (now : string) (w : world) :
  readFault w = None ->
  statFault w = None ->
  exists r w',
    create rules detections now w = (inl r, w')
    /\ IsPrefix (content w) (content w')
    /\ linesOf (content w) `prefix_of` linesOf (content w')
    /\ (is_Some (gitignore w) ->
        create rules detections now w
        = addPatterns rules (Some (JS.joinWith ", " (name <$> detections))) w).
Proof.
  intros Hread Hstat. rewrite create_eq by by right.
  destruct (gitignore w) as [c|] eqn:Eg.
  - rewrite addPatterns_eq by done. cbv zeta.
    destruct (filter _ rules) as [|r0 toAdd].
    + eexists _, _. split; [done|]. split; [exists ""; by rewrite sapp_nil_r|].
      split; [reflexivity|done].
    + destruct (writeFault w) as [e|]; eexists _, _; (split; [done|]);
        unfold content at 2 4; simpl.
      * split; [exists ""; by rewrite sapp_nil_r|]. split; [|done].
        unfold content. by rewrite Eg.
      * split; [apply newContent_prefix|]. split; [apply newContent_lines|done].
  - assert (Hc : content w = "") by (unfold content; by rewrite Eg).
    destruct (writeFault w) as [e|]; eexists _, _; (split; [done|]); rewrite Hc;
      (split; [by eexists|]); (split; [apply prefix_nil|]); by intros [? ?].
Qed.

(** Property X6: the sample rules for a file that holds [dist]. *)
Lemma create_keeps_content_witness :
  exists r w',
    create sampleRules sampleDetections "2024-05-01T10:00:00.000Z" sampleWorld
    = (inl r, w')
    /\ IsPrefix "dist" (content w').
Proof.
  destruct (create_keeps_content sampleRules sampleDetections
              "2024-05-01T10:00:00.000Z" sampleWorld eq_refl eq_refl)
    as (r & w' & H1 & H2 & _).
  exists r, w'. split; [exact H1|exact H2].
Defined.

(** Property X7. When there is no ignore file, [create] calls
    [writeFile] once. If that throws, the result is a failure with the
    message of the error (or [Unknown error], when what is thrown is no
    [Error]) and no added pattern, and there is still no file. Otherwise
    the result is a success that reports the pattern of every rule as
    added and none as existing; the new file ends with a line feed and
    lists the normalized pattern of every rule whose pattern is a
    proper pattern line; and if all patterns are proper and the new
    file can be read, no rule is missing afterwards. *)
Theorem created_file_lists_rules (rules : list GitIgnoreRule)
    (detections : list DetectedFramework) (now : string) (w : world) :
  gitignore w = None ->
  exists r w',
    create rules detections now w = (inl r, w')
    /\ writeCalls w' = S (writeCalls w)
    /\ match writeFault w with
       | Some e =>
           success r = false
           /\ error r = Some (match e with
                              | ErrorObject message => message
                              | OtherValue => "Unknown error"
                              end)
           /\ addedPatterns r = [] /\ gitignore w' = None
       | None =>
           success r = true /\ addedPatterns r = pattern <$> rules
           /\ existingPatterns r = []
           /\ JS.endsWithChar (content w') JS.LF = true
           /\ (forall rule, rule ∈ rules -> ProperPattern (pattern rule) ->
                 Listed (content w') (normalizePattern (pattern rule)))
           /\ ((forall rule, rule ∈ rules -> ProperPattern (pattern rule)) ->
               readFault w = None ->
               findMissingPatterns rules w' = (inl [], w'))
       end.
Proof.
  intros Eg. rewrite create_eq, Eg by by left.
  destruct (writeFault w) as [e|] eqn:Ew.
  - eexists _, _. split; [reflexivity|]. split; [reflexivity|].
    cbn [success error addedPatterns gitignore].
    repeat split; reflexivity.
  - eexists _, _. split; [reflexivity|]. split; [reflexivity|].
    cbn [success error addedPatterns existingPatterns].
    assert (Hc : forall c rf sf f n,
              content {| gitignore := Some c; readFault := rf; statFault := sf;
                         writeFault := f; writeCalls := n |} = c)
      by reflexivity.
    rewrite !Hc.
    split; [reflexivity|]. split; [reflexivity|]. split; [reflexivity|].
    split; [|split].
    + destruct (createdLines_closed rules detections now) as (init & Hi & ->).
      rewrite join_snoc_blank by exact Hi. apply endsWithChar_snoc.
    + intros rule Hr Hp. by apply created_listed.
    + intros Hall Hread. rewrite findMissingPatterns_eq, Hc by exact Hread.
      f_equal. f_equal.
      clear Hc.
      assert (Hin : forall rule, rule ∈ rules ->
                normalizePattern (pattern rule)
                ∈ parsePatterns (JS.join (createdLines rules detections now))).
      { intros rule Hr. apply parsePatterns_spec.
        apply created_listed; [exact Hr|by apply Hall]. }
      clear Hall. revert Hin.
      generalize (parsePatterns (JS.join (createdLines rules detections now))).
      intros existing Hin.
      induction rules as [|r rs IH]; [reflexivity|].
      rewrite filter_cons, decide_False.
      * apply IH. intros rule Hr. apply Hin. by right.
      * intros Hn. apply Hn, Hin. by left.
Qed.


(** Property X7: a new file for the sample rules. *)
Lemma created_file_lists_rules_witness :
  exists r w',
    create sampleRules sampleDetections "2024-05-01T10:00:00.000Z"
      {| gitignore := None; readFault := None; statFault := None;
         writeFault := None; writeCalls := 0 |} = (inl r, w')
    /\ success r = true
    /\ addedPatterns r = ["node_modules/"; ".env"]
    /\ findMissingPatterns sampleRules w' = (inl [], w').
Proof.
  destruct (created_file_lists_rules sampleRules sampleDetections
              "2024-05-01T10:00:00.000Z"
              {| gitignore := None; readFault := None; statFault := None;
         writeFault := None; writeCalls := 0 |} eq_refl)
    as (r & w' & H1 & _ & H3).
  cbn [writeFault] in H3. destruct H3 as (Hs & Ha & _ & _ & _ & Hm).
  exists r, w'. split; [exact H1|]. split; [exact Hs|]. split; [exact Ha|].
  apply Hm; [|reflexivity]. intros rule Hr.
  assert (Hp : forall p, JS.trim p <> "" -> String.prefix "#" (JS.trim p) = false
                         -> JS.includes p (String JS.LF "") = false
                         -> ProperPattern p).
  { intros p Ht Hh Hl. split; [split; [done|]|].
    - rewrite <- prefix_spec. congruence.
    - rewrite <- includes_spec. congruence. }
  apply elem_of_cons in Hr as [->|Hr]; [by apply Hp|].
  apply elem_of_cons in Hr as [->|Hr]; [by apply Hp|].
  by apply elem_of_nil in Hr.
Defined.

(** ** Whether a path is ignored *)

Lemma foldl_addLineInOrder (acc : list string) (ls : list string) (x : string) :
  x ∈ foldl addLineInOrder acc ls
  <-> x ∈ acc \/ exists line, line ∈ ls /\ PatternLine line /\ normalizePattern line = x.
Proof.
  revert acc. induction ls as [|l ls IH]; intros acc; simpl.
  - split; [by left|]. intros [H|(line & H & _)]; [done|]. by apply elem_of_nil in H.
  - rewrite IH. unfold addLineInOrder.
    destruct (String.eqb (JS.trim l) "" || JS.startsWith (JS.trim l) "#") eqn:E.
    + split.
      * intros [H|(line & H1 & H2)]; [by left|right].
        exists line. split; [by right|done].
      * intros [H|(line & H1 & H2 & H3)]; [by left|].
        apply elem_of_cons in H1 as [->|H1].
        -- apply patternLine_dec in H2. congruence.
        -- right. eauto.
    + apply patternLine_dec in E. rewrite normalizePattern_trim.
      destruct (decide (normalizePattern l ∈ acc)) as [Hin|Hout].
      * split.
        -- intros [H|(line & H1 & H2)]; [by left|right].
           exists line. split; [by right|done].
        -- intros [H|(line & H1 & H2 & H3)]; [by left|].
           apply elem_of_cons in H1 as [->|H1]; [left; by rewrite <- H3|right; eauto].
      * split.
        -- intros [H|(line & H1 & H2)].
           ++ apply elem_of_app in H as [H|H]; [by left|].
              apply list_elem_of_singleton in H as ->. right. exists l.
              split; [by left|done].
           ++ right. exists line. split; [by right|done].
        -- intros [H|(line & H1 & H2 & H3)].
           ++ left. apply elem_of_app. by left.
           ++ apply elem_of_cons in H1 as [->|H1].
              ** left. apply elem_of_app. right. apply list_elem_of_singleton. done.
              ** right. eauto.
Qed.

Lemma getExistingPatternsInOrder_eq (w : world) :
  exists patterns,
    getExistingPatternsInOrder w = (inl patterns, w)
    /\ forall x, x ∈ patterns <-> Listed (content (asRead w)) x.
Proof.
  unfold getExistingPatternsInOrder, bind. rewrite read_seen. unfold content, ret.
  destruct (gitignore (asRead w)) as [c|]; simpl.
  - destruct (String.eqb_spec c "") as [->|_].
    + exists []. split; [done|]. intros x. split; [intros H; by apply elem_of_nil in H|].
      intros (line & Hl & Hp & _). apply list_elem_of_singleton in Hl as ->.
      by apply blank_not_patternLine in Hp.
    + eexists. split; [done|]. intros x. rewrite foldl_addLineInOrder.
      unfold Listed. split; [|by right]. intros [H|H]; [by apply elem_of_nil in H|done].
  - exists []. split; [done|]. intros x. split; [intros H; by apply elem_of_nil in H|].
    intros (line & Hl & Hp & _). apply list_elem_of_singleton in Hl as ->.
    by apply blank_not_patternLine in Hp.
Qed.

Lemma stripSlashes_open (s : string) :
  JS.endsWithChar (JS.stripSlashes s) "/" = false.
Proof.
  induction s as [|a r IH]; [done|]. simpl.
  destruct (Ascii.eqb a "/" && String.eqb (JS.stripSlashes r) "") eqn:E; [done|].
  simpl. destruct (JS.stripSlashes r) as [|b r'] eqn:Er.
  - rewrite andb_true_r in E. exact E.
  - exact IH.
Qed.

Lemma stripSlash_normal (line : string) :
  JS.stripSlash (normalizePattern line) = normalizePattern line.
Proof.
  unfold JS.stripSlash, normalizePattern. by rewrite stripSlashes_open.
Qed.

Lemma handler_source (p : string) :
  "^" +:+ JS.replaceChar "*" ".*" (JS.replaceChar "." "\." p) +:+ "$"
  = "^" +:+ encode ".*" p +:+ "$".
Proof. by rewrite replaceStar_dots. Qed.

Lemma handler_parse (p : string) :
  simpleGlob p = true ->
  RegExp.parse ("^" +:+ encode ".*" p +:+ "$")
  = Some {| RegExp.start := RegExp.Caret;
            RegExp.body := items RegExp.AnyChar p;
            RegExp.dollar := true |}.
Proof.
  intros Hs. unfold RegExp.parse.
  change (RegExp.lex ("^" +:+ encode ".*" p +:+ "$"))
    with (cons RegExp.TCaret <$> RegExp.lex (encode ".*" p +:+ "$")).
  rewrite (lex_encode _ RegExp.AnyChar) by auto using lex_enc_cross.
  change (RegExp.lex "$") with (Some [RegExp.TDollar]). simpl.
  by rewrite (atoms_toks _ _ true).
Qed.

Lemma handler_matches (f x : string) :
  JS.stripSlash x = x ->
  StarFree x \/ simpleGlob x = true ->
  exists b, matchesPattern f (JS.basename f) x = Some b
            /\ (b = true <-> IgnoredBy f x).
Proof.
  intros Hx Hk. unfold matchesPattern, testEither. cbv zeta. rewrite Hx.
  destruct (String.eqb_spec (JS.basename f) x) as [Hb|Hb].
  { exists true. split; [done|]. split; [|done]. intros _. left. rewrite <- Hb.
    apply basename_contained. }
  destruct (JS.includes f x) eqn:Ei.
  { exists true. split; [done|]. split; [|done]. intros _. left.
    by apply includes_spec. }
  assert (Hnc : ~ Contains f x).
  { rewrite <- includes_spec. congruence. }
  destruct (JS.includes x "*") eqn:Es.
  - destruct Hk as [Hk|Hk].
    { exfalso. apply Hk. by apply includes_spec. }
    rewrite handler_source, handler_parse by done.
    unfold mbind, option_bind, RegExp.test.
    cbn [RegExp.start RegExp.body RegExp.dollar].
    rewrite !matchHere_cross. eexists. split; [done|].
    rewrite orb_true_iff. unfold IgnoredBy. apply includes_spec in Es. tauto.
  - exists false. split; [done|]. split; [done|].
    intros [Hc|[Hc _]]; [done|]. apply includes_spec in Hc. congruence.
Qed.

Lemma ignored_seen (relativeToFolder : string) (w : world) :
  (forall x, Listed (content (asRead w)) x -> StarFree x \/ simpleGlob x = true) ->
  exists b,
    isIgnored relativeToFolder w = (inl (Some b), w)
    /\ (b = true <->
        exists x, Listed (content (asRead w)) x
                  /\ IgnoredBy (JS.replaceChar JS.backslash "/" relativeToFolder) x).
Proof.
  intros Hk. unfold isIgnored, bind.
  destruct (getExistingPatternsInOrder_eq w) as (patterns & -> & Hp).
  unfold ret. cbv zeta.
  set (path := JS.replaceChar JS.backslash "/" relativeToFolder).
  assert (Hm : forall x, x ∈ patterns ->
            exists b, matchesPattern path (JS.basename path) x = Some b
                      /\ (b = true <-> IgnoredBy path x)).
  { intros x Hx. apply Hp in Hx. apply handler_matches; [|by apply Hk].
    destruct Hx as (line & _ & _ & <-). apply stripSlash_normal. }
  destruct (firstMatch (matchesPattern path (JS.basename path)) patterns)
    as [[x|]|] eqn:E.
  - exists true. split; [done|]. split; [|done]. intros _.
    apply firstMatch_Some in E as (pre & post & -> & _ & Hx).
    exists x. assert (Hin : x ∈ pre ++ x :: post) by set_solver.
    split; [by apply Hp|].
    destruct (Hm x Hin) as (b & Hb & Hi). apply Hi. congruence.
  - exists false. split; [done|]. split; [done|].
    intros (x & Hl & Hi). apply Hp in Hl.
    pose proof (proj1 (firstMatch_None _ _) E x Hl) as Hf.
    destruct (Hm x Hl) as (b & Hb & Hi'). apply Hi' in Hi. congruence.
  - exfalso. revert E. apply firstMatch_total. intros x Hx.
    destruct (Hm x Hx) as (b & -> & _). done.
Qed.


Lemma ignored_value (relativeToFolder : string) (w : world) :
  readFault w = None ->
  (forall x, Listed (content w) x -> StarFree x \/ simpleGlob x = true) ->
  exists b,
    isIgnored relativeToFolder w = (inl (Some b), w)
    /\ (b = true <->
        exists x, Listed (content w) x
                  /\ IgnoredBy (JS.replaceChar JS.backslash "/" relativeToFolder) x).
Proof.
  intros Hread Hk. pose proof (ignored_seen relativeToFolder w) as H.
  rewrite (asRead_readable w Hread) in H. by apply H.
Qed.

(** Property X8. When the ignore file can be read (or is absent) and
    every pattern listed in it is free of stars or a simple glob,
    [isIgnored] returns a boolean and leaves the host as it was. It
    returns true exactly when some listed pattern
    occurs in the path, backslashes turned into slashes, or holds a star
    and has the base name or the path as an instance, the stars standing
    for any characters of one line. With an empty or absent file it
    returns false; when the empty pattern is listed (a line that is only
    slashes) it returns true for every path. *)
Theorem ignored_paths (relativeToFolder : string) (w : world) :
  readFault w = None ->
  (forall x, Listed (content w) x -> StarFree x \/ simpleGlob x = true) ->
  exists b,
    isIgnored relativeToFolder w = (inl (Some b), w)
    /\ (b = true <->
        exists x, Listed (content w) x
                  /\ IgnoredBy (JS.replaceChar JS.backslash "/" relativeToFolder) x)
    /\ (content w = "" -> b = false)
    /\ (Listed (content w) "" -> b = true).
Proof.
  intros Hread Hk.
  destruct (ignored_value relativeToFolder w Hread Hk) as (b & Hb & Hi).
  exists b. split; [exact Hb|]. split; [exact Hi|]. split.
  - intros Hc. destruct b; [|done]. exfalso.
    destruct (proj1 Hi eq_refl) as (x & (line & Hl & Hp & _) & _).
    rewrite Hc in Hl. apply list_elem_of_singleton in Hl as ->.
    by apply blank_not_patternLine in Hp.
  - intros Hl. apply Hi. exists "". split; [done|]. left.
    exists "", (JS.replaceChar JS.backslash "/" relativeToFolder). done.
Qed.

(** Property X8: [logs/app.log] is ignored by [*.log]; [src/env.ts] is
    not ignored. *)
Lemma ignored_paths_witness :
  isIgnored "logs\app.log" sampleIgnoreFile = (inl (Some true), sampleIgnoreFile)
  /\ isIgnored "src/env.ts" sampleIgnoreFile = (inl (Some false), sampleIgnoreFile).
Proof.
  assert (Hk : forall x, Listed (content sampleIgnoreFile) x ->
                         StarFree x \/ simpleGlob x = true).
  { intros x (line & Hl & _ & <-).
    assert (Hs : JS.split (content sampleIgnoreFile)
                 = ["node_modules/"; "# logs"; "*.log"]) by (by vm_compute).
    rewrite Hs in Hl.
    apply elem_of_cons in Hl as [->|Hl]; [right; by vm_compute|].
    apply elem_of_cons in Hl as [->|Hl]; [left|].
    { unfold StarFree. rewrite <- includes_spec. by vm_compute. }
    apply elem_of_cons in Hl as [->|Hl]; [right; by vm_compute|].
    by apply elem_of_nil in Hl. }
  split.
  - destruct (ignored_paths "logs\app.log" sampleIgnoreFile eq_refl Hk) as (b & Hb & _).
    rewrite Hb. vm_compute in Hb. by injection Hb as <-.
  - destruct (ignored_paths "src/env.ts" sampleIgnoreFile eq_refl Hk) as (b & Hb & _).
    rewrite Hb. vm_compute in Hb. by injection Hb as <-.
Defined.

End IgnoreFileUse.

Section DebounceUse.
Import FileWatcher.

(** ** Bursts with repeated paths *)





(** ** Stopping the watcher *)

Lemma processPending_timers (st : state) :
  timers (processPendingNotifications st) = timers st
  /\ debounceTimer (processPendingNotifications st) = debounceTimer st.
Proof. done. Qed.






End DebounceUse.

(** ** The order of the deduplicated detections *)

Lemma keepBetter_keys (better : DetectedFramework -> DetectedFramework -> bool)
    (ds : list DetectedFramework) :
  (forall i k, (i, k) ∈ foldl (keepBetter better) [] ds -> id k = i)
  /\ (foldl (keepBetter better) [] ds).*1 = firstOccurrences (id <$> ds).
Proof.
  induction ds as [|d ds [IH1 IH2]] using rev_ind.
  - split; [|done]. intros i k H. by apply elem_of_nil in H.
  - rewrite foldl_app, fmap_app. simpl. rewrite firstOccurrences_snoc.
    set (byId := foldl (keepBetter better) [] ds) in *.
    assert (Hn : NoDup byId.*1) by (rewrite IH2; apply firstOccurrences_NoDup).
    assert (Hkey : id d ∈ id <$> ds <-> id d ∈ byId.*1)
      by (by rewrite IH2, firstOccurrences_elem).
    unfold keepBetter. destruct (mapGet (id d) byId) as [e|] eqn:Hg.
    + assert (Hin : id d ∈ byId.*1).
      { apply mapGet_Some in Hg. by apply (list_elem_of_fmap_2 fst) in Hg. }
      rewrite decide_True by (by apply Hkey).
      destruct (better d e).
      * split; [|by rewrite mapSet_keys_old].
        intros i k Hik. apply mapSet_elem in Hik as [[-> ->]|[_ Hik]]; [done| |done].
        by apply IH1.
      * done.
    + apply mapGet_None in Hg. rewrite decide_False by (by rewrite Hkey).
      rewrite mapSet_keys_new by done. split; [|by rewrite fmap_app, IH2].
      intros i k Hik. apply elem_of_app in Hik as [Hik|Hik]; [by apply IH1|].
      apply list_elem_of_singleton in Hik. by injection Hik as -> ->.
Qed.

Lemma keepBetter_ids (better : DetectedFramework -> DetectedFramework -> bool)
    (ds : list DetectedFramework) :
  id <$> mapValues (foldl (keepBetter better) [] ds) = firstOccurrences (id <$> ds).
Proof.
  destruct (keepBetter_keys better ds) as [H1 H2]. rewrite <- H2.
  unfold mapValues. rewrite <- list_fmap_compose.
  apply list_fmap_ext. intros i [j k] Hik. simpl.
  apply list_elem_of_lookup_2 in Hik. by apply H1.
Qed.

(** Property X11. [deduplicateDetections] of the Node detector and
    [deduplicateByProximity] of the Java detector both keep the
    identifiers of their input once each, in the order in which they
    first appear; neither returns more detections than it was given. *)
Theorem deduplicated_order (ds : list DetectedFramework) :
  id <$> NodeDetector.deduplicateDetections ds = firstOccurrences (id <$> ds)
  /\ id <$> JavaDetector.deduplicateByProximity ds = firstOccurrences (id <$> ds)
  /\ length (NodeDetector.deduplicateDetections ds) <= length ds
  /\ length (JavaDetector.deduplicateByProximity ds) <= length ds.
Proof.
  assert (Hlen : forall l : list FrameworkId, length (firstOccurrences l) <= length l).
  { induction l as [|x l IH]; [done|]. simpl.
    pose proof (length_filter (fun y => y <> x) (firstOccurrences l)). lia. }
  assert (H1 : id <$> NodeDetector.deduplicateDetections ds
               = firstOccurrences (id <$> ds))
    by (rewrite node_dedup_eq; apply keepBetter_ids).
  assert (H2 : id <$> JavaDetector.deduplicateByProximity ds
               = firstOccurrences (id <$> ds))
    by (rewrite java_dedup_eq; apply keepBetter_ids).
  split; [exact H1|]. split; [exact H2|]. split.
  - rewrite <- (length_fmap id), H1, <- (length_fmap id ds). apply Hlen.
  - rewrite <- (length_fmap id), H2, <- (length_fmap id ds). apply Hlen.
Qed.

(** ** The Java detector *)

Lemma firstBest_shallowest (mk : string -> DetectedFramework) (i : FrameworkId)
    (A B : list DetectedFramework) (ps : list string) (k : DetectedFramework) :
  (forall p, id (mk p) = i) -> (forall p, detectedAt (mk p) = p) ->
  (forall d, d ∈ A -> id d <> i) -> (forall d, d ∈ B -> id d <> i) ->
  FirstBest closerToRoot asCloseToRoot (A ++ (mk <$> ps) ++ B) k -> id k = i ->
  exists p, k = mk p /\ Shallowest ps p.
Proof.
  intros Hid Hat HA HB (pre & post & E & Hpre & Hpost) Hk.
  assert (Hmid : exists x, pre = A ++ x /\ (mk <$> ps) ++ B = x ++ k :: post).
  { apply app_eq_inv in E as [(x & E1 & E2)|(x & E1 & E2)].
    - destruct x as [|k' x].
      + exists []. rewrite app_nil_r in E1. rewrite app_nil_r. split; [done|].
        simpl in E2 |- *. done.
      + injection E2 as <- _. exfalso. apply (HA k); [|done].
        rewrite E1. set_solver.
    - by exists x. }
  destruct Hmid as (x & -> & E2).
  apply app_eq_inv in E2 as [(y & E1 & E3)|(y & E1 & E3)].
  - destruct y as [|k' y].
    + exfalso. apply (HB k); [|done]. simpl in E3. rewrite <- E3. set_solver.
    + injection E3 as <- ->.
      apply fmap_app_inv in E1 as (l1 & l2 & -> & E1 & ->).
      symmetry in E1. apply fmap_cons_inv in E1 as (p & l3 & -> & -> & ->).
      exists p. split; [done|]. exists l1, l3. split; [done|]. split.
      * intros q Hq.
        destruct (Hpre (mk q)) as [H1 H2].
        { apply elem_of_app. right. by apply list_elem_of_fmap_2. }
        { by rewrite !Hid. }
        unfold closerToRoot, asCloseToRoot in *. rewrite !Hat in *.
        apply bool_decide_eq_false in H1, H2. lia.
      * intros q Hq.
        pose proof (Hpost (mk q)) as H1.
        unfold closerToRoot in H1. rewrite !Hat in H1.
        assert (H2 : bool_decide (Path.segments q < Path.segments p) = false).
        { apply H1; [|by rewrite !Hid].
          apply elem_of_app. left. by apply list_elem_of_fmap_2. }
        apply bool_decide_eq_false in H2. lia.
  - exfalso. apply (HB k); [|done]. rewrite E3. set_solver.
Qed.

Lemma filter_all {A} (P : A -> Prop) `{!forall x, Decision (P x)} (l : list A) :
  (forall x, x ∈ l -> P x) -> filter P l = l.
Proof.
  induction l as [|a l IH]; [done|]. intros Hl.
  rewrite filter_cons, decide_True by (apply Hl; by left).
  rewrite IH; [done|]. intros x Hx. apply Hl. by right.
Qed.

Lemma firstOccurrences_cons {A} `{EqDecision A} (x : A) (l : list A) :
  firstOccurrences (x :: l) = x :: filter (fun y => y <> x) (firstOccurrences l).
Proof. reflexivity. Qed.

Lemma firstOccurrences_const {A} (i : FrameworkId) (l : list A)
    (rest : list FrameworkId) :
  i ∉ rest ->
  firstOccurrences (((fun _ => i) <$> l) ++ rest)
  = match l with [] => [] | _ :: _ => [i] end ++ firstOccurrences rest.
Proof.
  intros Hi. induction l as [|a l IH]; [done|].
  rewrite fmap_cons, <- app_comm_cons, firstOccurrences_cons, IH.
  change ([i] ++ firstOccurrences rest) with (i :: firstOccurrences rest).
  f_equal. rewrite filter_app.
  assert (Hr : filter (fun y => y <> i) (firstOccurrences rest) = firstOccurrences rest).
  { apply filter_all. intros y Hy Hne. apply Hi. rewrite <- Hne.
    by apply (proj1 (firstOccurrences_elem _ _)). }
  rewrite Hr. destruct l; [done|].
  rewrite filter_cons, decide_False by (intros H; by apply H). done.
Qed.

(** Property X12. The Java detector returns a [maven] detection
    exactly when pom files were found, and after it a [gradle] detection
    exactly when Gradle build files were found. Each is of the category
    [java], has confidence 0.95, and is located at the first of its
    files that has the fewest path segments; the Maven detection is
    named [Maven], the Gradle one [Gradle (Kotlin DSL)] when that file
    ends in [.kts] and [Gradle] otherwise. *)
Theorem java_detect_shape (pomFiles gradleFiles : list string) :
  id <$> JavaDetector.detect pomFiles gradleFiles
  = match pomFiles with [] => [] | _ :: _ => [maven] end
    ++ match gradleFiles with [] => [] | _ :: _ => [gradle] end
  /\ forall d, d ∈ JavaDetector.detect pomFiles gradleFiles ->
       ruleCategory d = cat_java /\ confidence d = 0.95%float
       /\ ((id d = maven /\ name d = "Maven"
            /\ Shallowest pomFiles (detectedAt d))
           \/ (id d = gradle /\ name d = gradleName (detectedAt d)
               /\ Shallowest gradleFiles (detectedAt d))).
Proof.
  unfold JavaDetector.detect.
  set (mkM := fun p => createDetection cat_java maven "Maven" p 0.95).
  set (mkG := fun p => createDetection cat_java gradle
                         (if JS.endsWith p ".kts" then "Gradle (Kotlin DSL)" else "Gradle")
                         p 0.95).
  split.
  - rewrite java_dedup_eq, keepBetter_ids, fmap_app, <- !list_fmap_compose.
    change (id ∘ mkM) with (fun _ : string => maven).
    change (id ∘ mkG) with (fun _ : string => gradle).
    rewrite firstOccurrences_const.
    + f_equal. rewrite <- (app_nil_r ((fun _ => gradle) <$> gradleFiles)).
      rewrite firstOccurrences_const; [by rewrite app_nil_r|]. apply not_elem_of_nil.
    + intros H. apply list_elem_of_fmap in H as (? & ? & _). done.
  - intros d Hd.
    destruct (java_deduplicated ((mkM <$> pomFiles) ++ (mkG <$> gradleFiles)))
      as (_ & _ & Hf).
    specialize (Hf d Hd). pose proof (firstBest_elem _ _ _ _ Hf) as Hin.
    apply elem_of_app in Hin as [Hin|Hin];
      apply list_elem_of_fmap in Hin as (p & Hp & Hin).
    + split; [by subst|]. split; [by subst|]. left.
      split; [by subst|]. split; [by subst|].
      destruct (firstBest_shallowest mkM maven [] (mkG <$> gradleFiles) pomFiles d)
        as (q & Hq & Hs).
      { done. }
      { done. }
      { intros x Hx. by apply elem_of_nil in Hx. }
      { intros x Hx. apply list_elem_of_fmap in Hx as (? & -> & _). done. }
      { exact Hf. }
      { by subst. }
      rewrite Hq. exact Hs.
    + split; [by subst|]. split; [by subst|]. right.
      split; [by subst|]. split; [by subst|].
      destruct (firstBest_shallowest mkG gradle (mkM <$> pomFiles) [] gradleFiles d)
        as (q & Hq & Hs).
      { done. }
      { done. }
      { intros x Hx. apply list_elem_of_fmap in Hx as (? & -> & _). done. }
      { intros x Hx. by apply elem_of_nil in Hx. }
      { rewrite app_nil_r. exact Hf. }
      { by subst. }
      rewrite Hq. exact Hs.
Qed.

(** ** The Node detector *)

Section NodeFacts.
Import NodeDetector.

Lemma confidenceOf_range (ws : workspace) (dir : string) (framework : FrameworkPattern) :
  framework ∈ frameworkPatterns ->
  (0.8 <=? confidenceOf ws dir framework)%float = true
  /\ (confidenceOf ws dir framework <=? 1)%float = true
  /\ fpId framework <> node.
Proof.
  intros Hf. unfold confidenceOf.
  generalize (existsb (fun configFile => fileExists ws (Path.join dir configFile))
                      (configFiles framework)).
  intros b. unfold frameworkPatterns in Hf.
  repeat (apply elem_of_cons in Hf as [->|Hf];
          [destruct b; (split; [by vm_compute|split; [by vm_compute|done]])|]).
  by apply elem_of_nil in Hf.
Qed.

Lemma raw_origin (ws : workspace) (d : DetectedFramework) :
  d ∈ foldl (manifestStep ws) [] (packageJsons ws) ->
  ruleCategory d = cat_node
  /\ detectedAt d ∈ packageJsons ws
  /\ (exists packageJson,
        readJsonFile ws (detectedAt d) = Some (Truthy packageJson))
  /\ (0.8 <=? confidence d)%float = true
  /\ (confidence d <=? 1)%float = true
  /\ (id d = node -> confidence d = 0.8%float).
Proof.
  intros Hd. apply manifestLoop_elem in Hd as [Hd|(p & Hp & pj & Hr & Hd)];
    [by apply elem_of_nil in Hd|].
  destruct Hd as [->|(fp & Hfp & _ & ->)].
  - simpl. split; [done|]. split; [done|]. split; [by exists pj|].
    split; [by vm_compute|]. split; [by vm_compute|done].
  - destruct (confidenceOf_range ws (Path.dirname p) fp Hfp) as (H1 & H2 & H3).
    simpl. split; [done|]. split; [done|]. split; [by exists pj|].
    split; [done|]. split; [done|]. intros Hn. by destruct H3.
Qed.

Lemma dedup_nil (ds : list DetectedFramework) :
  deduplicateDetections ds = [] <-> ds = [].
Proof.
  split; [|by intros ->]. intros H.
  assert (Hi : id <$> deduplicateDetections ds = []) by (by rewrite H).
  rewrite node_dedup_eq, keepBetter_ids in Hi.
  destruct ds as [|d ds]; [done|]. discriminate.
Qed.

(** Property X13. Every detection of the Node detector is of the
    category [node], is located at one of the manifests found, for
    which [readJsonFile] returned a truthy value, and has a confidence
    from 0.8 to 1, the [node] detection 0.8. The detector returns
    nothing exactly when, for every manifest found, [readJsonFile]
    returns [null] (the file is unreadable, empty or unparsable, or
    holds [null]) or another falsy value ([false], [0], the empty
    string). *)
Theorem node_detections (ws : workspace) :
  (forall d, d ∈ detect ws ->
     ruleCategory d = cat_node
     /\ detectedAt d ∈ packageJsons ws
     /\ (exists packageJson,
           readJsonFile ws (detectedAt d) = Some (Truthy packageJson))
     /\ (0.8 <=? confidence d)%float = true
     /\ (confidence d <=? 1)%float = true
     /\ (id d = node -> confidence d = 0.8%float))
  /\ (detect ws = []
      <-> forall p, p ∈ packageJsons ws ->
            readJsonFile ws p = None \/ readJsonFile ws p = Some Falsy).
Proof.
  split.
  - intros d Hd. apply raw_origin.
    destruct (node_deduplicated (foldl (manifestStep ws) [] (packageJsons ws)))
      as (_ & _ & Hbest).
    by apply Hbest, firstBest_elem in Hd.
  - unfold detect. rewrite dedup_nil. split.
    + intros Hnil p Hp.
      destruct (readJsonFile ws p) as [[|pj]|] eqn:Hr; [by right| |by left].
      exfalso.
      assert (Hin : createDetection cat_node node "Node.js" p 0.8
                    ∈ foldl (manifestStep ws) [] (packageJsons ws)).
      { apply manifestLoop_elem. right. exists p. split; [done|].
        exists pj. split; [done|]. by left. }
      rewrite Hnil in Hin. by apply elem_of_nil in Hin.
    + intros Hall.
      destruct (foldl (manifestStep ws) [] (packageJsons ws)) as [|d ds] eqn:E; [done|].
      exfalso.
      assert (Hd : d ∈ foldl (manifestStep ws) [] (packageJsons ws))
        by (rewrite E; by left).
      apply manifestLoop_elem in Hd as [Hd|(p & Hp & pj & Hr & _)];
        [by apply elem_of_nil in Hd|].
      destruct (Hall p Hp) as [Hn|Hn]; rewrite Hn in Hr; discriminate.
Qed.

End NodeFacts.

Section Python.
Import PythonDetector.

(** ** The Python detector: requirement files *)

Lemma nameRun_prefix (t : string) : NamePrefix t (nameRun t).
Proof.
  induction t as [|a t IH].
  - exists "". split; [done|]. split; [|done]. intros c Hc. by apply elem_of_nil in Hc.
  - simpl. destruct (nameChar a) eqn:Ea.
    + destruct IH as (rest & E & Hn & Hr). exists rest. split; [|split; [|done]].
      * simpl. by rewrite <- E.
      * intros c Hc. simpl in Hc. apply elem_of_cons in Hc as [->|Hc]; [done|by apply Hn].
    + exists (String a t). split; [done|]. split; [|done].
      intros c Hc. by apply elem_of_nil in Hc.
Qed.

Lemma namePrefix_unique (t n : string) : NamePrefix t n -> n = nameRun t.
Proof.
  revert t. induction n as [|a n IH]; intros t (rest & -> & Hn & Hr).
  - simpl. destruct rest as [|c rest]; [done|]. simpl. by rewrite Hr.
  - simpl. rewrite (Hn a) by (simpl; by left). f_equal. apply IH.
    exists rest. split; [done|]. split; [|done].
    intros c Hc. apply Hn. simpl. by right.
Qed.

Lemma requirementLine_spec (packages : list string) (line n : string) :
  n ∈ requirementLine packages line
  <-> n ∈ packages
      \/ (NamePrefix (JS.trim line) n /\ n <> "" /\ ~ IsPrefix "-" n).
Proof.
  unfold requirementLine. cbv zeta.
  set (t := JS.trim line).
  assert (Hdash : forall m, NamePrefix t m -> m <> "" ->
            (IsPrefix "-" m <-> JS.startsWith t "-" = true)).
  { intros m (rest & E & _ & _) Hm. unfold JS.startsWith. rewrite prefix_spec.
    destruct m as [|c m]; [done|]. rewrite E. split.
    - intros [u Hu]. injection Hu as -> ->. by eexists.
    - intros [u Hu]. simpl in Hu. injection Hu as -> _. by eexists. }
  assert (Hhash : String.eqb t "" || JS.startsWith t "#" = true -> nameRun t = "").
  { intros H. apply orb_true_iff in H as [H|H].
    - apply String.eqb_eq in H. by rewrite H.
    - unfold JS.startsWith in H. apply prefix_spec in H as [u ->]. done. }
  destruct (String.eqb t "" || JS.startsWith t "#") eqn:E1.
  { split; [by left|]. intros [H|(Hp & Hn & _)]; [done|].
    apply namePrefix_unique in Hp. rewrite Hhash in Hp by done. done. }
  destruct (JS.startsWith t "-") eqn:E2.
  { split; [by left|]. intros [H|(Hp & Hn & Hd)]; [done|].
    exfalso. apply Hd. by apply (Hdash n). }
  destruct (nameRun t) as [|a r] eqn:E3.
  { split; [by left|]. intros [H|(Hp & Hn & _)]; [done|].
    apply namePrefix_unique in Hp. congruence. }
  rewrite elem_of_app, list_elem_of_singleton. split.
  - intros [H| ->]; [by left|right]. rewrite <- E3. split; [apply nameRun_prefix|].
    split; [by rewrite E3|]. intros Hd.
    apply (Hdash (nameRun t)) in Hd; [congruence|apply nameRun_prefix|by rewrite E3].
  - intros [H|(Hp & _)]; [by left|right].
    apply namePrefix_unique in Hp. congruence.
Qed.

Lemma requirementLines_spec (lines : list string) (packages : list string) (n : string) :
  n ∈ foldl requirementLine packages lines
  <-> n ∈ packages
      \/ exists line, line ∈ lines
           /\ NamePrefix (JS.trim line) n /\ n <> "" /\ ~ IsPrefix "-" n.
Proof.
  revert packages. induction lines as [|l lines IH]; intros packages; simpl.
  - split; [by left|]. intros [H|(line & H & _)]; [done|]. by apply elem_of_nil in H.
  - rewrite IH, requirementLine_spec. split.
    + intros [[H|H]|(line & Hl & H)]; [by left| |].
      * right. exists l. split; [by left|done].
      * right. exists line. split; [by right|done].
    + intros [H|(line & Hl & H)]; [left; by left|].
      apply elem_of_cons in Hl as [->|Hl]; [left; by right|right; eauto].
Qed.

(** Property X14. A name is among the packages [parseRequirementsTxt]
    returns for a file exactly when the file can be read and one of its
    lines, trimmed, starts with that name as its whole leading run of
    letters, digits, underscores and dashes, the name being non-empty
    and not starting with a dash. An unreadable file gives no name. *)
Theorem requirement_names (ws : workspace) (relativePath n : string) :
  n ∈ parseRequirementsTxt ws relativePath
  <-> exists content line,
        readFile ws relativePath = Some content
        /\ line ∈ JS.split content
        /\ NamePrefix (JS.trim line) n /\ n <> "" /\ ~ IsPrefix "-" n.
Proof.
  unfold parseRequirementsTxt. destruct (readFile ws relativePath) as [content|].
  - destruct (String.eqb_spec content "") as [->|Hc].
    + split; [intros H; by apply elem_of_nil in H|].
      intros (c & line & [= <-] & Hl & Hp & Hn & _).
      apply list_elem_of_singleton in Hl as ->.
      apply namePrefix_unique in Hp. done.
    + rewrite requirementLines_spec. split.
      * intros [H|(line & Hl & H)]; [by apply elem_of_nil in H|].
        exists content, line. done.
      * intros (c & line & [= <-] & Hl & H). right. eauto.
  - split; [intros H; by apply elem_of_nil in H|]. by intros (c & line & H & _).
Qed.

(** ** The Python detector: the detections *)

Lemma requirements_loop (ws : workspace) (reqs : list string)
    (b : bool) (s : gset string) :
  (foldl (fun '(_, allPackages) reqPath =>
            (true, addAll allPackages (parseRequirementsTxt ws reqPath)))
         (b, s) reqs).1
  = match reqs with [] => b | _ :: _ => true end.
Proof.
  revert b s. induction reqs as [|r reqs IH]; intros b s; [done|].
  simpl. rewrite IH. by destruct reqs.
Qed.

Lemma frameworks_ids (ws : workspace) (pk : gset string) (src : string)
    (acc : list DetectedFramework) :
  exists fw,
    foldl (frameworkStep ws pk src) acc frameworkPatterns = acc ++ fw
    /\ id <$> fw `sublist_of` [django; flask; fastapi]
    /\ forall d, d ∈ fw ->
         ruleCategory d = cat_python /\ detectedAt d = src
         /\ (0.8 <=? confidence d)%float = true
         /\ (confidence d <=? 1)%float = true
         /\ (id d = django -> fileExists ws "manage.py" = true ->
             confidence d = 0.98%float).
Proof.
  unfold frameworkPatterns. cbn [foldl]. unfold frameworkStep.
  cbn [packages fpId fpName].
  set (c1 := confidenceOf ws _). set (c2 := confidenceOf ws _).
  set (c3 := confidenceOf ws _).
  assert (H1 : (0.8 <=? c1)%float = true /\ (c1 <=? 1)%float = true
               /\ (fileExists ws "manage.py" = true -> c1 = 0.98%float)).
  { unfold c1, confidenceOf. cbn [fpId fpConfidence configFiles].
    rewrite decide_True by done.
    destruct (fileExists ws "manage.py"); [by vm_compute|].
    destruct (existsb _ _); by vm_compute. }
  assert (H2 : (0.8 <=? c2)%float = true /\ (c2 <=? 1)%float = true).
  { unfold c2, confidenceOf. cbn [fpId fpConfidence configFiles].
    rewrite decide_False by done. destruct (existsb _ _); by vm_compute. }
  assert (H3 : (0.8 <=? c3)%float = true /\ (c3 <=? 1)%float = true).
  { unfold c3, confidenceOf. cbn [fpId fpConfidence configFiles].
    rewrite decide_False by done. destruct (existsb _ _); by vm_compute. }
  clearbody c1 c2 c3.
  destruct (existsb _ ["django"; "Django"]), (existsb _ ["flask"; "Flask"]),
    (existsb _ ["fastapi"; "FastAPI"]);
    rewrite <- ?app_assoc; eexists; (split; [try reflexivity; by rewrite app_nil_r|]);
    (split; [simpl; repeat first [done | apply sublist_skip | apply sublist_cons
                                   | apply sublist_nil_l]|]);
    intros d Hd; simpl in Hd;
    repeat (apply elem_of_cons in Hd as [->|Hd];
            [simpl; repeat split; try tauto; try done|]);
    by apply elem_of_nil in Hd.
Qed.

Lemma isPython_loop (ws : workspace) :
  let st := foldl (fun '(_, allPackages) reqPath =>
                     (true, addAll allPackages (parseRequirementsTxt ws reqPath)))
                  (false, ∅) (requirementFiles ws) in
  let st2 :=
    match pyprojectToml ws with
    | Some p =>
        if String.eqb p "" then (st.1, st.2)
        else (true, addAll st.2 (parsePyprojectToml ws p))
    | None => (st.1, st.2)
    end in
  (if hasPythonSourceFiles ws && negb st2.1 then true else st2.1) = true
  <-> IsPythonProject ws.
Proof.
  cbv zeta. rewrite requirements_loop. unfold IsPythonProject.
  destruct (requirementFiles ws) as [|r reqs]; simpl.
  - destruct (pyprojectToml ws) as [p|]; simpl.
    + destruct (String.eqb_spec p "") as [->|Hp]; simpl.
      * destruct (hasPythonSourceFiles ws); simpl.
        -- split; [|done]. intros _. by do 2 right.
        -- split; [done|]. intros [H|[(q & [= <-] & H)|H]]; done.
      * rewrite andb_false_r. split; [|done]. intros _. right. left. eauto.
    + destruct (hasPythonSourceFiles ws); simpl.
      * split; [|done]. intros _. by do 2 right.
      * split; [done|]. intros [H|[(q & H & _)|H]]; done.
  - assert (H : forall x : bool * gset string,
              (if hasPythonSourceFiles ws && negb x.1 then true else x.1) = true
              <-> x.1 = true \/ hasPythonSourceFiles ws = true).
    { intros [[|] ?]; simpl; destruct (hasPythonSourceFiles ws); simpl; intuition. }
    destruct (pyprojectToml ws) as [p|]; [destruct (String.eqb p "")|]; simpl;
      rewrite ?andb_false_r; (split; [intros _; by left|done]).
Qed.

(** Property X15. The Python detector returns nothing exactly when it
    found no requirements file, no pyproject.toml and no Python source
    file. Otherwise its first detection is [python] at confidence 0.8,
    located at the first requirements file, else at the pyproject.toml,
    else at [*.py files]; the others are detections of [django], [flask]
    and [fastapi], no identifier twice, of the category [python], with
    a confidence from 0.8 to 1. When [manage.py] exists at the root,
    [django] is among them: at 0.98 where the project was found, or at
    0.95 at [manage.py]. *)
Theorem python_detections (ws : workspace) :
  (detect ws = [] <-> ~ IsPythonProject ws)
  /\ (IsPythonProject ws ->
      exists rest,
        detect ws
        = createDetection cat_python python "Python" (detectionSourceOf ws) 0.8 :: rest
        /\ NoDup (id <$> rest)
        /\ (forall d, d ∈ rest ->
              id d ∈ [django; flask; fastapi]
              /\ ruleCategory d = cat_python
              /\ (0.8 <=? confidence d)%float = true
              /\ (confidence d <=? 1)%float = true)
        /\ (fileExists ws "manage.py" = true ->
            exists d, d ∈ rest /\ id d = django
              /\ ((confidence d = 0.98%float /\ detectedAt d = detectionSourceOf ws)
                  \/ (confidence d = 0.95%float /\ detectedAt d = "manage.py")))).
Proof.
  pose proof (isPython_loop ws) as Hp. cbv zeta in Hp.
  unfold detect. cbv zeta.
  destruct (foldl _ (false, ∅) (requirementFiles ws)) as [b0 pk0] eqn:E0.
  cbn [fst snd] in Hp.
  destruct (match pyprojectToml ws with
            | Some p => if String.eqb p "" then (b0, pk0)
                        else (true, addAll pk0 (parsePyprojectToml ws p))
            | None => (b0, pk0)
            end) as [b1 pk1] eqn:E1.
  cbn [fst snd] in Hp.
  fold (detectionSourceOf ws).
  set (src := detectionSourceOf ws).
  destruct (if hasPythonSourceFiles ws && negb b1 then true else b1) eqn:E2; cbn [negb].
  2:{ split; [|intros H; apply Hp in H; done].
      split; [|done]. intros _ H. apply Hp in H. done. }
  assert (Hy : IsPythonProject ws) by (by apply Hp).
  destruct (frameworks_ids ws pk1 src
              [createDetection cat_python python "Python" src 0.8])
    as (fw & -> & Hsub & Hfw).
  assert (Hn : NoDup (id <$> fw)).
  { eapply sublist_NoDup; [|exact Hsub]. apply (bool_decide_unpack _). by vm_compute. }
  assert (Hids : forall d, d ∈ fw -> id d ∈ [django; flask; fastapi]).
  { intros d Hd. eapply elem_of_sublist; [|exact Hsub].
    by apply list_elem_of_fmap_2. }
  rewrite existsb_app. cbn [existsb]. rewrite bool_decide_eq_false_2 by done.
  rewrite !orb_false_l.
  destruct (existsb (fun d => bool_decide (id d = django)) fw) eqn:Ed; simpl.
  - split; [split; [done|tauto]|]. intros _. exists fw.
    split; [done|]. split; [done|]. split.
    + intros d Hd. destruct (Hfw d Hd) as (? & ? & ? & ? & ?). auto.
    + intros Hm. apply existsb_exists in Ed as (d & Hd & Hi).
      apply bool_decide_eq_true in Hi. apply list_elem_of_In in Hd.
      exists d. split; [done|]. split; [done|]. left.
      destruct (Hfw d Hd) as (_ & ? & _ & _ & Hc). auto.
  - assert (Hnd : forall d, d ∈ fw -> id d <> django).
    { intros d Hd Hi.
      assert (existsb (fun d => bool_decide (id d = django)) fw = true); [|congruence].
      apply existsb_exists. exists d. split; [by apply list_elem_of_In|].
      by apply bool_decide_eq_true. }
    destruct (fileExists ws "manage.py") eqn:Em.
    + split; [split; [done|tauto]|]. intros _.
      exists (fw ++ [createDetection cat_python django "Django" "manage.py" 0.95]).
      split; [done|]. split; [|split].
      * rewrite fmap_app. apply NoDup_app. split; [done|]. split; [|apply NoDup_singleton].
        intros i Hi Hj. apply list_elem_of_singleton in Hj as ->.
        apply list_elem_of_fmap in Hi as (d & Hi & Hd). by apply (Hnd d).
      * intros d Hd. apply elem_of_app in Hd as [Hd|Hd].
        -- destruct (Hfw d Hd) as (? & ? & ? & ? & ?). auto.
        -- apply list_elem_of_singleton in Hd as ->. simpl.
           split; [set_solver|]. split; [done|]. split; by vm_compute.
      * intros _. eexists. split; [apply elem_of_app; right; by left|].
        split; [done|]. right. done.
    + split; [split; [done|tauto]|]. intros _. exists fw.
      split; [done|]. split; [done|]. split; [|done].
      intros d Hd. destruct (Hfw d Hd) as (? & ? & ? & ? & ?). auto.
Qed.

(** ** The Python detector: frameworks and listed packages *)

Lemma addAll_spec (s : gset string) (pkgs : list string) (x : string) :
  x ∈ addAll s pkgs <-> x ∈ s \/ exists n, n ∈ pkgs /\ JS.toLowerCase n = x.
Proof.
  unfold addAll. revert s. induction pkgs as [|p pkgs IH]; intros s; simpl.
  - split; [by left|]. intros [H|(n & H & _)]; [done|]. by apply elem_of_nil in H.
  - rewrite IH. split.
    + intros [H|(n & Hn & H)].
      * apply elem_of_union in H as [H|H]; [|by left].
        apply elem_of_singleton in H. right. exists p. split; [by left|done].
      * right. exists n. split; [by right|done].
    + intros [H|(n & Hn & H)]; [left; set_solver|].
      apply elem_of_cons in Hn as [->|Hn]; [left; set_solver|right; eauto].
Qed.

Lemma requirements_packages (ws : workspace) (reqs : list string)
    (b : bool) (s : gset string) (x : string) :
  x ∈ (foldl (fun '(_, allPackages) reqPath =>
                (true, addAll allPackages (parseRequirementsTxt ws reqPath)))
             (b, s) reqs).2
  <-> x ∈ s \/ exists r n, r ∈ reqs /\ n ∈ parseRequirementsTxt ws r
                          /\ JS.toLowerCase n = x.
Proof.
  revert b s. induction reqs as [|r reqs IH]; intros b s; simpl.
  - split; [by left|]. intros [H|(r & n & H & _)]; [done|]. by apply elem_of_nil in H.
  - rewrite IH, addAll_spec. split.
    + intros [[H|(n & Hn & H)]|(r' & n & Hr & H)]; [by left| |].
      * right. exists r, n. split; [by left|done].
      * right. exists r', n. split; [by right|done].
    + intros [H|(r' & n & Hr & H)]; [left; by left|].
      apply elem_of_cons in Hr as [->|Hr]; [left; right; by exists n|right; eauto].
Qed.

Lemma allPackages_spec (ws : workspace) (x : string) :
  let st := foldl (fun '(_, allPackages) reqPath =>
                     (true, addAll allPackages (parseRequirementsTxt ws reqPath)))
                  (false, ∅) (requirementFiles ws) in
  let st2 :=
    match pyprojectToml ws with
    | Some p =>
        if String.eqb p "" then (st.1, st.2)
        else (true, addAll st.2 (parsePyprojectToml ws p))
    | None => (st.1, st.2)
    end in
  x ∈ st2.2 <-> PackageListed ws x.
Proof.
  cbv zeta. unfold PackageListed.
  destruct (pyprojectToml ws) as [p|]; [destruct (String.eqb_spec p "") as [->|Hp]|];
    cbn [snd]; rewrite ?addAll_spec, requirements_packages.
  - split; [intros [H|H]; [set_solver|by left]|].
    intros [H|(q & n & [= <-] & ? & _)]; [by right|done].
  - split.
    + intros [[H|H]|(n & Hn & H)]; [set_solver|by left|right]. by exists p, n.
    + intros [H|(q & n & [= <-] & _ & Hn & H)]; [left; by right|right; eauto].
  - split; [intros [H|H]; [set_solver|by left]|].
    intros [H|(q & n & H & _)]; [by right|done].
Qed.

Lemma frameworks_listed (ws : workspace) (pk : gset string) (src : string)
    (acc : list DetectedFramework) (d : DetectedFramework) :
  d ∈ foldl (frameworkStep ws pk src) acc frameworkPatterns
  <-> d ∈ acc
      \/ exists framework,
           framework ∈ frameworkPatterns
           /\ (exists pkg, pkg ∈ packages framework /\ JS.toLowerCase pkg ∈ pk)
           /\ d = createDetection cat_python (fpId framework) (fpName framework) src
                    (confidenceOf ws framework).
Proof.
  revert acc. induction frameworkPatterns as [|fp fps IH]; intros acc; simpl.
  - split; [by left|]. intros [H|(fp & H & _)]; [done|]. by apply elem_of_nil in H.
  - rewrite IH. unfold frameworkStep.
    assert (Hex : existsb (fun pkg => bool_decide (JS.toLowerCase pkg ∈ pk)) (packages fp)
                  = true
                  <-> exists pkg, pkg ∈ packages fp /\ JS.toLowerCase pkg ∈ pk).
    { rewrite existsb_exists. split; intros (pkg & H1 & H2); exists pkg.
      - split; [by apply list_elem_of_In|by apply bool_decide_eq_true in H2].
      - split; [by apply list_elem_of_In|by apply bool_decide_eq_true]. }
    destruct (existsb _ (packages fp)) eqn:E.
    + split.
      * intros [H|(f & Hf & H)].
        -- apply elem_of_app in H as [H|H]; [by left|right].
           apply list_elem_of_singleton in H. exists fp.
           split; [by left|]. split; [by apply Hex|done].
        -- right. exists f. split; [by right|done].
      * intros [H|(f & Hf & Hp & H)]; [left; apply elem_of_app; by left|].
        apply elem_of_cons in Hf as [->|Hf].
        -- left. apply elem_of_app. right. by apply list_elem_of_singleton.
        -- right. eauto.
    + split.
      * intros [H|(f & Hf & H)]; [by left|right]. exists f. split; [by right|done].
      * intros [H|(f & Hf & Hp & H)]; [by left|].
        apply elem_of_cons in Hf as [->|Hf]; [|right; eauto].
        apply Hex in Hp. congruence.
Qed.

(** Property X16. For each of [django], [flask] and [fastapi]: if a
    package whose name in lower case is that of the framework is listed
    in a requirements file or in the pyproject.toml, the framework is
    detected, located where the project was found. Conversely a
    detection of the framework means that the package is listed, or it
    is the detection of Django at 0.95 that [manage.py] alone gives. *)
Theorem python_frameworks_from_packages (ws : workspace) (x : string) (i : FrameworkId) :
  (i, x) ∈ [(django, "django"); (flask, "flask"); (fastapi, "fastapi")] ->
  (PackageListed ws x ->
   exists d, d ∈ detect ws /\ id d = i /\ detectedAt d = detectionSourceOf ws)
  /\ (forall d, d ∈ detect ws -> id d = i ->
        PackageListed ws x
        \/ (i = django /\ fileExists ws "manage.py" = true
            /\ d = createDetection cat_python django "Django" "manage.py" 0.95)).
Proof.
  intros Hix.
  pose proof (isPython_loop ws) as Hp. pose proof (allPackages_spec ws) as Ha.
  cbv zeta in Hp, Ha. unfold detect. cbv zeta.
  destruct (foldl _ (false, ∅) (requirementFiles ws)) as [b0 pk0] eqn:E0.
  cbn [fst snd] in Hp, Ha.
  destruct (match pyprojectToml ws with
            | Some p => if String.eqb p "" then (b0, pk0)
                        else (true, addAll pk0 (parsePyprojectToml ws p))
            | None => (b0, pk0)
            end) as [b1 pk1] eqn:E1.
  cbn [fst snd] in Hp, Ha.
  fold (detectionSourceOf ws). set (src := detectionSourceOf ws).
  assert (Hfw : exists framework,
            framework ∈ frameworkPatterns /\ fpId framework = i
            /\ (forall pkg, pkg ∈ packages framework -> JS.toLowerCase pkg = x)
            /\ (exists pkg, pkg ∈ packages framework)
            /\ forall f, f ∈ frameworkPatterns -> fpId f = i -> f = framework).
  { assert (Hcase : forall f, f ∈ frameworkPatterns ->
              (forall pkg, pkg ∈ packages f ->
                 JS.toLowerCase pkg = JS.toLowerCase (fpName f))
              /\ (exists pkg, pkg ∈ packages f)
              /\ forall g, g ∈ frameworkPatterns -> fpId g = fpId f -> g = f).
    { intros f Hf. unfold frameworkPatterns in Hf |- *.
      repeat (apply elem_of_cons in Hf as [->|Hf];
              [split; [intros pkg Hpkg; cbn [packages] in Hpkg;
                       repeat (apply elem_of_cons in Hpkg as [->|Hpkg];
                               [by vm_compute|]);
                       by apply elem_of_nil in Hpkg|];
               split; [eexists; cbn [packages]; by left|];
               intros g Hg Hi;
               repeat (apply elem_of_cons in Hg as [->|Hg]; [done|]);
               by apply elem_of_nil in Hg|]).
      by apply elem_of_nil in Hf. }
    apply elem_of_cons in Hix as [[= -> ->]|Hix].
    { eexists. split; [by left|]. split; [done|]. by apply Hcase; left. }
    apply elem_of_cons in Hix as [[= -> ->]|Hix].
    { eexists. split; [right; by left|]. split; [done|].
      by apply Hcase; right; left. }
    apply elem_of_cons in Hix as [[= -> ->]|Hix].
    { eexists. split; [right; right; by left|]. split; [done|].
      by apply Hcase; right; right; left. }
    by apply elem_of_nil in Hix. }
  destruct Hfw as (framework & Hin & Hid & Hlow & (pkg0 & Hpkg0) & Honly).
  assert (Hlisted : PackageListed ws x -> IsPythonProject ws).
  { intros [(r & n & Hr & _)|(p & n & Hpp & Hne & _)].
    - left. intros E. rewrite E in Hr. by apply elem_of_nil in Hr.
    - right. left. eauto. }
  split.
  - intros Hl. apply Hlisted in Hl as Hy. apply Hp in Hy. rewrite Hy. cbn [negb].
    exists (createDetection cat_python (fpId framework) (fpName framework) src
              (confidenceOf ws framework)).
    split; [|split; [exact Hid|reflexivity]].
    match goal with
    | |- _ ∈ (if ?c then ?a ++ _ else ?a) =>
        assert (Hd : createDetection cat_python (fpId framework) (fpName framework)
                       src (confidenceOf ws framework) ∈ a)
    end.
    { apply frameworks_listed. right. exists framework. split; [done|].
      split; [|done]. exists pkg0. split; [done|].
      rewrite (Hlow pkg0 Hpkg0). by apply Ha. }
    match goal with |- _ ∈ (if ?c then _ else _) => destruct c end;
      [apply elem_of_app; by left|done].
  - intros d Hd Hi.
    destruct (if hasPythonSourceFiles ws && negb b1 then true else b1);
      cbn [negb] in Hd; [|by apply elem_of_nil in Hd].
    assert (Hraw : d ∈ foldl (frameworkStep ws pk1 src)
                     [createDetection cat_python python "Python" src 0.8]
                     frameworkPatterns -> PackageListed ws x).
    { intros H. apply frameworks_listed in H as [H|(f & Hf & (pkg & Hpk & Hl) & ->)].
      - apply list_elem_of_singleton in H as ->. simpl in Hi. rewrite <- Hi in Hix.
        exfalso. clear -Hix.
        repeat (apply elem_of_cons in Hix as [Hix|Hix]; [discriminate|]).
        by apply elem_of_nil in Hix.
      - simpl in Hi. rewrite (Honly f Hf Hi) in Hpk.
        apply Ha. by rewrite <- (Hlow pkg Hpk). }
    match type of Hd with _ ∈ (if ?c then _ else _) => destruct c eqn:Ec end;
      [|left; by apply Hraw].
    apply elem_of_app in Hd as [Hd|Hd]; [left; by apply Hraw|].
    apply list_elem_of_singleton in Hd as ->. right.
    apply andb_true_iff in Ec as [_ Ec]. simpl in Hi. by subst i.
Qed.

(** Property X16: [Django>=4.2] in [requirements.txt]. *)
Lemma python_frameworks_from_packages_witness :
  exists d, d ∈ detect samplePythonWorkspace /\ id d = django
            /\ detectedAt d = "requirements.txt".
Proof.
  apply (python_frameworks_from_packages samplePythonWorkspace "django" django).
  - by left.
  - left. exists "requirements.txt", "Django". split; [by left|].
    split; [|by vm_compute].
    assert (E : parseRequirementsTxt samplePythonWorkspace "requirements.txt"
                = ["Django"; "gunicorn"]) by (by vm_compute).
    rewrite E. by left.
Defined.

End Python.

(** ** The detection engine and its cache *)

Section Engine.
Import DetectionEngine.

Lemma mapGet_set_same {K V} `{EqDecision K} (k : K) (v : V) (m : list (K * V)) :
  mapGet k (mapSet k v m) = Some v.
Proof.
  induction m as [|[k' v'] m IH]; simpl.
  - by rewrite decide_True.
  - destruct (decide (k' = k)) as [->|Hne]; simpl.
    + by rewrite decide_True.
    + by rewrite decide_False.
Qed.

Lemma mapGet_set_other {K V} `{EqDecision K} (k g : K) (v : V) (m : list (K * V)) :
  g <> k -> mapGet g (mapSet k v m) = mapGet g m.
Proof.
  intros Hne. induction m as [|[k' v'] m IH]; simpl.
  - by rewrite decide_False.
  - destruct (decide (k' = k)) as [->|Hk]; simpl.
    + by rewrite !decide_False.
    + destruct (decide (k' = g)); done.
Qed.

Lemma detectAll_fold (detectors : list Detector) (folders : list string)
    (forceRefresh : bool) (cache : Cache) :
  detectAll detectors (Some folders) forceRefresh cache
  = foldl (engineStep detectors forceRefresh) ([], cache) folders.
Proof.
  unfold detectAll. destruct folders as [|f fs]; [done|].
  apply foldl_pointwise. intros [a c] k. unfold engineStep. simpl.
  by destruct (if forceRefresh then None else mapGet k c).
Qed.

Lemma runDetectors_eq (detectors : list Detector) (folder : string) :
  runDetectors detectors folder
  = detectors ≫= fun detector => default [] (detector folder).
Proof.
  unfold runDetectors.
  assert (H : forall acc,
            foldl (fun folderDetections detector =>
                     match detector folder with
                     | Some detected => folderDetections ++ detected
                     | None => folderDetections
                     end) acc detectors
            = acc ++ (detectors ≫= fun detector => default [] (detector folder))).
  { induction detectors as [|d ds IH]; intros acc; simpl; [by rewrite app_nil_r|].
    rewrite IH. destruct (d folder); simpl; [by rewrite app_assoc|done]. }
  apply H.
Qed.

Lemma first_pass (detectors : list Detector) (forceRefresh : bool)
    (folders : list string) (cache : Cache) :
  exists vs,
    (foldl (engineStep detectors forceRefresh) ([], cache) folders).1 = concat vs
    /\ Forall2 (fun g v =>
                  mapGet g (foldl (engineStep detectors forceRefresh)
                                  ([], cache) folders).2 = Some v
                  /\ (forceRefresh = true -> v = runDetectors detectors g))
               folders vs.
Proof.
  induction folders as [|f fs (vs & Ha & Hv)] using rev_ind.
  - exists []. split; [done|constructor].
  - rewrite foldl_app. simpl.
    destruct (foldl (engineStep detectors forceRefresh) ([], cache) fs) as [a1 c1].
    simpl in Ha, Hv. unfold engineStep. cbn [fst snd].
    destruct forceRefresh.
    + exists (vs ++ [runDetectors detectors f]). cbn [fst snd]. split.
      * rewrite concat_app, Ha. simpl. by rewrite app_nil_r.
      * apply Forall2_app.
        -- eapply Forall2_impl; [exact Hv|]. intros g v [Hg Hr].
           split; [|done]. destruct (decide (g = f)) as [->|Hne].
           ++ rewrite mapGet_set_same. f_equal. symmetry. by apply Hr.
           ++ by rewrite mapGet_set_other.
        -- constructor; [|constructor]. split; [apply mapGet_set_same|done].
    + destruct (mapGet f c1) as [hit|] eqn:Hf; cbn [fst snd].
      * exists (vs ++ [hit]). split.
        -- rewrite concat_app, Ha. simpl. by rewrite app_nil_r.
        -- apply Forall2_app; [done|]. constructor; [|constructor]. done.
      * exists (vs ++ [runDetectors detectors f]). split.
        -- rewrite concat_app, Ha. simpl. by rewrite app_nil_r.
        -- apply Forall2_app.
           ++ eapply Forall2_impl; [exact Hv|]. intros g v [Hg Hr].
              split; [|done]. rewrite mapGet_set_other; [done|].
              intros ->. congruence.
           ++ constructor; [|constructor]. split; [apply mapGet_set_same|done].
Qed.

Lemma second_pass (detectors : list Detector) (folders : list string)
    (vs : list (list DetectedFramework)) (acc : list DetectedFramework) (cache : Cache) :
  Forall2 (fun g v => mapGet g cache = Some v) folders vs ->
  foldl (engineStep detectors false) (acc, cache) folders = (acc ++ concat vs, cache).
Proof.
  intros H. revert acc. induction H as [|g v gs vs Hg _ IH]; intros acc; simpl.
  - by rewrite app_nil_r.
  - unfold engineStep at 2. cbn [fst snd]. rewrite Hg, IH. by rewrite app_assoc.
Qed.

Lemma forced_pass (detectors : list Detector) (folders : list string)
    (acc : list DetectedFramework) (cache : Cache) :
  (foldl (engineStep detectors true) (acc, cache) folders).1
  = acc ++ (folders ≫= runDetectors detectors).
Proof.
  revert acc cache. induction folders as [|f fs IH]; intros acc cache; simpl.
  - by rewrite app_nil_r.
  - unfold engineStep at 2. cbn [fst snd]. rewrite IH. by rewrite app_assoc.
Qed.

Lemma fresh_pass (detectors : list Detector) (folders : list string)
    (acc : list DetectedFramework) (cache : Cache) :
  (forall g v, mapGet g cache = Some v -> v = runDetectors detectors g) ->
  (foldl (engineStep detectors false) (acc, cache) folders).1
  = acc ++ (folders ≫= runDetectors detectors).
Proof.
  revert acc cache. induction folders as [|f fs IH]; intros acc cache Hc; simpl.
  - by rewrite app_nil_r.
  - unfold engineStep at 2. cbn [fst snd].
    destruct (mapGet f cache) as [hit|] eqn:Hf.
    + rewrite IH by done. rewrite (Hc f hit Hf). by rewrite app_assoc.
    + rewrite IH; [by rewrite app_assoc|].
      intros g v. destruct (decide (g = f)) as [->|Hne].
      * rewrite mapGet_set_same. by intros [= <-].
      * rewrite mapGet_set_other by done. apply Hc.
Qed.

(** Property X17. After [detectAll] over some folders, a call without
    [forceRefresh] over the same folders returns the same detections and
    leaves the cache as it is, whatever the detectors would answer then.
    A call with [forceRefresh], and a call on a cleared cache, run the
    detectors on every folder, in order. Running the detectors on a
    folder concatenates their results in the order of the detectors; a
    detector that throws contributes nothing. *)
Theorem detection_cache (detectors detectors' : list Detector)
    (folders : list string) (forceRefresh : bool) (cache : Cache) :
  detectAll detectors' (Some folders) false
    (detectAll detectors (Some folders) forceRefresh cache).2
  = detectAll detectors (Some folders) forceRefresh cache
  /\ (detectAll detectors (Some folders) true cache).1
     = (folders ≫= runDetectors detectors)
  /\ (detectAll detectors (Some folders) false (clearCache cache)).1
     = (folders ≫= runDetectors detectors)
  /\ (forall folder,
        runDetectors detectors folder
        = (detectors ≫= fun detector => default [] (detector folder))).
Proof.
  rewrite !detectAll_fold. split; [|split; [|split]].
  - destruct (first_pass detectors forceRefresh folders cache) as (vs & Ha & Hv).
    rewrite (second_pass detectors' folders vs).
    + simpl. rewrite <- Ha. by destruct (foldl _ _ folders).
    + eapply Forall2_impl; [exact Hv|]. by intros g v [Hg _].
  - by rewrite forced_pass.
  - rewrite fresh_pass; [done|]. intros g v H. done.
  - apply runDetectors_eq.
Qed.

End Engine.

(** ** The check before a commit *)

Section PreCommit.
Import GitIgnoreHandler.

Lemma addPatterns_lists (rules : list GitIgnoreRule) (label : option string)
    (w : world) :
  writeFault w = None ->
  exists r w',
    addPatterns rules label w = (inl r, w')
    /\ success r = true
    /\ (readFault w = None -> IsPrefix (content w) (content w'))
    /\ (readFault w = None -> forall x, Listed (content w) x -> Listed (content w') x)
    /\ forall rule, rule ∈ rules -> ProperPattern (pattern rule) ->
         Listed (content w') (normalizePattern (pattern rule)).
Proof.
  intros Hw. rewrite addPatterns_seen. cbv zeta.
  set (P := fun rule : GitIgnoreRule =>
              normalizePattern (pattern rule) ∉ parsePatterns (content (asRead w))).
  assert (Hcase : forall rule,
            P rule \/ Listed (content (asRead w)) (normalizePattern (pattern rule))).
  { intros rule. destruct (decide (P rule)) as [H|H]; [by left|right].
    apply parsePatterns_spec. by apply dec_stable. }
  destruct (filter P rules) as [|r0 toAdd] eqn:E.
  - eexists _, _. split; [done|]. split; [done|].
    split; [intros _; exists ""; by rewrite sapp_nil_r|]. split; [done|].
    intros rule Hr _. destruct (Hcase rule) as [H|H]; [|by apply listed_seen in H as [_ H]].
    assert (Hin : rule ∈ filter P rules) by (by apply list_elem_of_filter).
    rewrite E in Hin. by apply elem_of_nil in Hin.
  - rewrite Hw. eexists _, _. split; [done|]. split; [done|].
    assert (Hc : forall c rf sf f n,
              content {| gitignore := Some c; readFault := rf; statFault := sf;
                         writeFault := f; writeCalls := n |} = c)
      by reflexivity.
    rewrite Hc.
    split; [intros Hread; rewrite (asRead_readable w Hread); apply newContent_prefix|].
    split; [intros Hread x Hx; rewrite (asRead_readable w Hread); by apply listed_kept|].
    intros rule Hr Hp. destruct (Hcase rule) as [H|H].
    + apply listed_added; [|done]. rewrite <- E. by apply list_elem_of_filter.
    + by apply listed_kept.
Qed.

Lemma addPatterns_returns (rules : list GitIgnoreRule) (label : option string)
    (w : world) :
  exists r w',
    addPatterns rules label w = (inl r, w')
    /\ (readFault w = None -> IsPrefix (content w) (content w')).
Proof.
  rewrite addPatterns_seen. cbv zeta. destruct (filter _ rules) as [|r0 toAdd].
  - eexists _, _. split; [done|]. intros _. exists "". by rewrite sapp_nil_r.
  - destruct (writeFault w) as [e|]; eexists _, _; (split; [done|]); intros Hread.
    + exists "". by rewrite sapp_nil_r.
    + rewrite (asRead_readable w Hread). apply newContent_prefix.
Qed.


(** Property X18. [performPreCommitCheck] returns a boolean. It lets
    the commit proceed exactly when the check is switched off, or no
    staged file has a critical warning, or the user answers
    [Proceed Anyway]. The host changes only if the check is on, a
    workspace folder is open and the user answers
    [Fix & Add to .gitignore]. When the ignore file can be read (or is
    absent), its text before is an initial part of its text after. When
    [writeFile] does not throw, the answer [Fix & Add to .gitignore]
    leaves a file that lists the normalized pattern of every critical
    warning whose pattern is a proper pattern line. *)
Theorem pre_commit_check (preCommitCheck : bool)
    (allWarnings : list (string * list StagedFileWarning.t))
    (hasFolder : bool) (answer : option string) (w : world) :
  exists b w',
    Extension.performPreCommitCheck preCommitCheck allWarnings hasFolder answer w
    = (inl b, w')
    /\ (b = true <->
        preCommitCheck = false
        \/ (forall x, x ∈ concat (mapValues allWarnings) ->
              StagedFileWarning.severity x <> critical)
        \/ answer = Some "Proceed Anyway")
    /\ (readFault w = None -> IsPrefix (content w) (content w'))
    /\ (w' <> w ->
        preCommitCheck = true /\ hasFolder = true
        /\ answer = Some "Fix & Add to .gitignore")
    /\ (preCommitCheck = true -> hasFolder = true ->
        answer = Some "Fix & Add to .gitignore" -> writeFault w = None ->
        forall x, x ∈ concat (mapValues allWarnings) ->
          StagedFileWarning.severity x = critical ->
          ProperPattern (StagedFileWarning.matchedPattern x) ->
          Listed (content w')
                 (normalizePattern (StagedFileWarning.matchedPattern x))).
Proof.
  unfold Extension.performPreCommitCheck.
  assert (Hrefl : IsPrefix (content w) (content w)) by (exists ""; by rewrite sapp_nil_r).
  destruct preCommitCheck; cbn [negb].
  2:{ exists true, w. split; [done|]. split; [split; [by left|done]|].
      split; [done|]. split; [done|]. done. }
  cbv zeta. remember (concat (mapValues allWarnings)) as ws eqn:Ews. clear Ews.
  destruct ws as [|x0 ws0].
  { exists true, w. split; [done|]. split; [split; [right; left|done]|].
    - intros x Hx. by apply elem_of_nil in Hx.
    - split; [done|]. split; [done|]. intros _ _ _ _ x Hx. by apply elem_of_nil in Hx. }
  cbv beta iota. set (ws := x0 :: ws0) in *. clearbody ws. clear x0 ws0.
  unfold NotificationManager.showPreCommitWarning. cbv zeta.
  set (crit := filter (fun x => StagedFileWarning.severity x = critical) ws).
  assert (Hcrit : crit = [] <-> forall x, x ∈ ws -> StagedFileWarning.severity x <> critical).
  { split.
    - intros E x Hx Hs. assert (H : x ∈ crit) by (by apply list_elem_of_filter).
      rewrite E in H. by apply elem_of_nil in H.
    - intros H. destruct crit as [|c cs] eqn:E; [done|].
      assert (Hc : c ∈ crit) by (rewrite E; by left).
      apply list_elem_of_filter in Hc as [Hs Hc]. by apply H in Hc. }
  destruct crit as [|c0 cs] eqn:Ec.
  { exists true, w. split; [done|]. split; [split; [right; left; by apply Hcrit|done]|].
    split; [done|]. split; [done|]. intros _ _ _ _ x Hx Hs.
    exfalso. by apply (proj1 Hcrit eq_refl x). }
  assert (Hsome : ~ forall x, x ∈ ws -> StagedFileWarning.severity x <> critical).
  { intros H. apply Hcrit in H. done. }
  assert (Hno : forall b w',
            answer <> Some "Proceed Anyway" ->
            (hasFolder = true -> answer <> Some "Fix & Add to .gitignore") ->
            b = false -> w' = w ->
            (b = true <-> true = false \/ (forall x, x ∈ ws ->
                 StagedFileWarning.severity x <> critical)
               \/ answer = Some "Proceed Anyway")
            /\ (readFault w = None -> IsPrefix (content w) (content w'))
            /\ (w' <> w -> true = true /\ hasFolder = true
                /\ answer = Some "Fix & Add to .gitignore")
            /\ (true = true -> hasFolder = true ->
                answer = Some "Fix & Add to .gitignore" -> writeFault w = None ->
                forall x, x ∈ ws -> StagedFileWarning.severity x = critical ->
                  ProperPattern (StagedFileWarning.matchedPattern x) ->
                  Listed (content w')
                         (normalizePattern (StagedFileWarning.matchedPattern x)))).
  { intros b w' Ha Hf -> ->. split; [split; [done|intros [?|[?|?]]; done]|].
    split; [done|]. split; [done|]. intros _ Hh Hfix. by apply Hf in Hh. }
  destruct answer as [result|]; [|exists false, w; split; [done|]; by apply Hno].
  destruct (String.eqb_spec result "Fix & Add to .gitignore") as [->|Hfix].
  - destruct hasFolder.
    + unfold bind.
      set (rules := (fun x => {| pattern := StagedFileWarning.matchedPattern x;
                                severity := StagedFileWarning.severity x;
                                reason := StagedFileWarning.reason x |}) <$> c0 :: cs).
      destruct (addPatterns_returns rules None w) as (r & w' & Hadd & Hpre).
      rewrite Hadd. exists false, w'. split; [done|].
      split; [split; [done|intros [?|[?|?]]; done]|].
      split; [done|]. split; [done|].
      intros _ _ _ Hw x Hx Hs Hp.
      destruct (addPatterns_lists rules None w Hw) as (r2 & w2 & Hadd2 & _ & _ & _ & Hl).
      rewrite Hadd in Hadd2. injection Hadd2 as <- <-.
      apply (Hl {| pattern := StagedFileWarning.matchedPattern x;
                   severity := StagedFileWarning.severity x;
                   reason := StagedFileWarning.reason x |}); [|done].
      unfold rules. rewrite <- Ec.
      apply (list_elem_of_fmap_2 (fun x => {| pattern := StagedFileWarning.matchedPattern x;
                                severity := StagedFileWarning.severity x;
                                reason := StagedFileWarning.reason x |})).
      by apply list_elem_of_filter.
    + exists false, w. split; [done|]. by apply Hno.
  - destruct (String.eqb_spec result "View Details") as [->|Hview].
    + exists false, w. split; [done|]. apply Hno; try done.
    + destruct (String.eqb_spec result "Proceed Anyway") as [->|Hproceed].
      * exists true, w. split; [done|]. split; [split; [by do 2 right|done]|].
        split; [done|]. split; [done|]. done.
      * exists false, w. split; [done|]. apply Hno; try done; congruence.
Qed.

End PreCommit.

Section Watcher.
Import GitIgnoreHandler.
Import WatcherSession.

(** ** The watcher's handlers *)

Lemma isIgnored_returns (relativeToFolder : string) (w : world) :
  exists r, isIgnored relativeToFolder w = (inl r, w).
Proof.
  unfold isIgnored, bind.
  destruct (getExistingPatternsInOrder_eq w) as (patterns & -> & _).
  by eexists.
Qed.

Lemma handleFileCreated_cases (now : nat) (file : Created) (s : session) (w : world) :
  handleFileCreated now file s w = (inl (Some s), w)
  \/ handleFileCreated now file s w = (inl None, w)
  \/ exists relativePath matchedRule,
       relativeToFolder file = Some relativePath
       /\ isIgnored relativePath w = (inl (Some false), w)
       /\ FirstMatch (fun rule => FileWatcher.matchesPattern (createdPath relativePath)
                                    (JS.basename (fsPath file)) (pattern rule))
                     (activeRules s) matchedRule
       /\ (pattern matchedRule ∉ permanentlyDismissed s)
       /\ (pattern matchedRule ∉ suppressedWarnings s)
       /\ handleFileCreated now file s w
          = (inl (Some {| activeRules := activeRules s;
                          permanentlyDismissed := permanentlyDismissed s;
                          sessionSuppressed := sessionSuppressed s;
                          suppressedWarnings := suppressedWarnings s;
                          queue := FileWatcher.arrive (queue s)
                                     (now, {| FileWatcher.filePath := createdPath relativePath;
                                              FileWatcher.matchedPattern := pattern matchedRule;
                                              FileWatcher.rule := matchedRule |}) |}), w).
Proof.
  destruct (handleFileCreated now file s w) as [res w'] eqn:E.
  unfold handleFileCreated in E.
  destruct (activeRules s) as [|r0 rs] eqn:Er; [left; by injection E as <- <-|].
  rewrite <- Er in *. clear Er r0 rs.
  destruct (relativeToFolder file) as [rel|] eqn:Ef; [|left; by injection E as <- <-].
  cbv zeta in E. unfold bind in E.
  destruct (isIgnored_returns rel w) as (b & Hb). rewrite Hb in E.
  destruct b as [[|]|];
    [left; by injection E as <- <-| |right; left; by injection E as <- <-].
  unfold FileWatcher.matchAgainstRules in E. fold (createdPath rel) in E.
  destruct (firstMatch _ (activeRules s)) as [[rule|]|] eqn:Em;
    [|left; by injection E as <- <-|right; left; by injection E as <- <-].
  destruct (decide (pattern rule ∈ permanentlyDismissed s));
    [left; by injection E as <- <-|].
  destruct (decide (pattern rule ∈ suppressedWarnings s));
    [left; by injection E as <- <-|].
  right. right. exists rel, rule. split; [done|]. split; [exact Hb|].
  split; [by apply firstMatch_Some|]. split; [done|]. split; [done|].
  by injection E as <- <-.
Qed.



Lemma addPattern_returns (p : string) (why : option string) (w : world) :
  exists r w', addPattern p why w = (inl r, w').
Proof.
  unfold addPattern. cbv zeta.
  destruct (addPatterns_returns
              [{| pattern := p; severity := recommended;
                  reason := match why with
                            | Some t => if String.eqb t "" then "Added by user" else t
                            | None => "Added by user"
                            end |}] None w) as (r & w' & H & _).
  eauto.
Qed.

Lemma showSingle_returns (hasFolder : bool) (answer : option string)
    (event : FileWatcher.RiskyFileEvent) (s : session) (w : world) :
  exists s' w',
    showSingleNotification hasFolder answer event s w = (inl s', w')
    /\ permanentlyDismissed s ⊆ permanentlyDismissed s'.
Proof.
  unfold showSingleNotification. destruct hasFolder; cbn [negb]; [|by eexists _, _].
  destruct (NotificationManager.showRiskyFileWarning event answer (sessionSuppressed s))
    as [[| | |] suppressed]; cbv zeta; try (by eexists _, _).
  - unfold bind.
    destruct (addPattern_returns (pattern (FileWatcher.rule event))
                (Some (reason (FileWatcher.rule event))) w) as (r & w' & ->).
    by eexists _, _.
  - eexists _, _. split; [done|]. cbn [permanentlyDismissed]. set_solver.
Qed.

Lemma showBatch_returns (hasFolder : bool) (answer : option string)
    (events : list FileWatcher.RiskyFileEvent) (s : session) (w : world) :
  forall r w', showBatchNotification hasFolder answer events s w = (inl r, w') -> r = s.
Proof.
  intros r w'. unfold showBatchNotification.
  destruct hasFolder; cbn [negb]; [|by intros [= <- <-]].
  cbv zeta. destruct answer as [result|]; [|by intros [= <- <-]].
  destruct (String.eqb result "Add All to .gitignore"); [|by intros [= <- <-]].
  destruct (uniqueRules _) as [rules|]; [|done].
  unfold bind. destruct (addPatterns_returns rules None w) as (r0 & w0 & -> & _).
  by intros [= <- <-].
Qed.

Lemma step_dismissed (a : action) (s s' : session) (w w' : world) :
  step a s w = (inl (Some s'), w') ->
  permanentlyDismissed s ⊆ permanentlyDismissed s'.
Proof.
  destruct a as [now file|h answer event|h answer events|rules|rules]; simpl.
  - destruct (handleFileCreated_cases now file s w)
      as [-> | [-> | (rel & rule & _ & _ & _ & _ & _ & ->)]];
      intros [= <- <-]; done.
  - unfold bind.
    destruct (showSingle_returns h answer event s w) as (s1 & w1 & -> & Hsub).
    by intros [= <- <-].
  - unfold bind.
    destruct (showBatchNotification h answer events s w) as [[r|e] w1] eqn:E; [|done].
    apply showBatch_returns in E as ->. by intros [= <- <-].
  - by intros [= <- <-].
  - by intros [= <- <-].
Qed.

Lemma steps_dismissed (actions : list action) (s s' : session) (w w' : world) :
  steps actions s w = (inl (Some s'), w') ->
  permanentlyDismissed s ⊆ permanentlyDismissed s'.
Proof.
  revert s w. induction actions as [|a actions IH]; intros s w; simpl.
  - by intros [= <- <-].
  - unfold bind at 1. destruct (step a s w) as [[[s1|]|e] w1] eqn:E; [| |done].
    + intros H. apply step_dismissed in E. apply IH in H. set_solver.
    + done.
Qed.

(** Property X19. When the user answers the warning for an event whose
    pattern is not suppressed for the session with the choice never to
    be warned again, the ignore file is left alone, the pattern is
    recorded among the permanently dismissed ones and in the
    [suppressedWarnings] setting, and the rules and the queue are as
    before. From then on, whatever files are created, whatever the user
    answers to later warnings and however often the watcher is started
    again or given other rules, a created file never queues an event
    with that pattern. *)
Theorem dismissal_is_permanent (event : FileWatcher.RiskyFileEvent)
    (s : session) (w : world) :
  FileWatcher.matchedPattern event ∉ sessionSuppressed s ->
  exists s1,
    showSingleNotification true (Some "Don't Warn Again") event s w = (inl s1, w)
    /\ FileWatcher.matchedPattern event ∈ permanentlyDismissed s1
    /\ FileWatcher.matchedPattern event ∈ suppressedWarnings s1
    /\ queue s1 = queue s /\ activeRules s1 = activeRules s
    /\ forall actions s2 w2 now file s3 w3,
         steps actions s1 w = (inl (Some s2), w2) ->
         handleFileCreated now file s2 w2 = (inl (Some s3), w3) ->
         s3 = s2
         \/ exists e, queue s3 = FileWatcher.arrive (queue s2) (now, e)
                      /\ FileWatcher.matchedPattern e
                         <> FileWatcher.matchedPattern event.
Proof.
  intros Hs. unfold showSingleNotification. cbn [negb].
  unfold NotificationManager.showRiskyFileWarning.
  rewrite decide_False by done.
  change (String.eqb "Don't Warn Again" "Add to .gitignore") with false.
  change (String.eqb "Don't Warn Again" "Ignore Once") with false.
  change (String.eqb "Don't Warn Again" "Don't Warn Again") with true.
  cbv beta iota zeta. cbn [activeRules permanentlyDismissed sessionSuppressed
                           suppressedWarnings queue].
  eexists. split; [reflexivity|].
  cbn [activeRules permanentlyDismissed sessionSuppressed suppressedWarnings queue].
  split; [set_solver|]. split.
  { unfold addToSuppressedWarnings. destruct (decide _); [done|].
    apply elem_of_app. right. by left. }
  split; [done|]. split; [done|].
  intros actions s2 w2 now file s3 w3 Hsteps Hcreate.
  apply steps_dismissed in Hsteps. cbn [permanentlyDismissed] in Hsteps.
  destruct (handleFileCreated_cases now file s2 w2)
    as [E | [E | (rel & rule & _ & _ & _ & Hd & _ & E)]];
    rewrite E in Hcreate; [left; by injection Hcreate as <- _|done|].
  right. injection Hcreate as <- _. eexists. split; [reflexivity|].
  cbn [FileWatcher.matchedPattern]. intros Heq. apply Hd. rewrite Heq.
  apply Hsteps. set_solver.
Qed.

(** Property X19: the pattern [.env] is dismissed. *)
Lemma dismissal_is_permanent_witness :
  exists s1,
    showSingleNotification true (Some "Don't Warn Again")
      (sampleEventFor "app/.env" ".env") sampleSession sampleWorld
    = (inl s1, sampleWorld)
    /\ ".env" ∈ permanentlyDismissed s1
    /\ ".env" ∈ suppressedWarnings s1.
Proof.
  destruct (dismissal_is_permanent (sampleEventFor "app/.env" ".env")
              sampleSession sampleWorld)
    as (s1 & H1 & H2 & H3 & _).
  - cbn [sessionSuppressed sampleSession]. apply not_elem_of_empty.
  - exists s1. split; [exact H1|]. split; [exact H2|exact H3].
Defined.

(** ** A pattern added from a warning *)








(** ** The batch warning *)

Lemma byPattern_grouping (events : list FileWatcher.RiskyFileEvent) :
  foldl byPatternStep [] events
  = (fun p => (p, filter (fun e => FileWatcher.matchedPattern e = p) events))
      <$> firstOccurrences (FileWatcher.matchedPattern <$> events).
Proof.
  induction events as [|d ds IH] using rev_ind; [done|].
  rewrite foldl_app. simpl. rewrite IH. unfold byPatternStep.
  rewrite mapGet_keyed, fmap_app.
  change (FileWatcher.matchedPattern <$> [d]) with [FileWatcher.matchedPattern d].
  rewrite firstOccurrences_snoc.
  destruct (decide (FileWatcher.matchedPattern d ∈ FileWatcher.matchedPattern <$> ds))
    as [Hin|Hout].
  - rewrite decide_True by by apply firstOccurrences_elem.
    simpl. apply mapSet_keyed_old.
    + by apply firstOccurrences_elem.
    + apply firstOccurrences_NoDup.
    + by rewrite filter_app, filter_cons, decide_True.
    + intros x Hx. by rewrite filter_app, filter_cons, decide_False, app_nil_r.
  - rewrite decide_False by by rewrite firstOccurrences_elem.
    simpl. rewrite mapSet_keyed_new by by rewrite firstOccurrences_elem.
    rewrite fmap_app. simpl. f_equal.
    + apply list_fmap_ext. intros i x Hx.
      rewrite filter_app, filter_cons, decide_False, app_nil_r; [reflexivity|].
      intros E. apply Hout. rewrite E.
      apply list_elem_of_lookup_2 in Hx.
      by apply (proj1 (firstOccurrences_elem _ _)) in Hx.
    + rewrite filter_app, filter_cons, decide_True by done. simpl.
      assert (filter (fun e => FileWatcher.matchedPattern e = FileWatcher.matchedPattern d) ds
              = []) as ->; [|done].
      apply elem_of_nil_inv. intros x Hx.
      apply list_elem_of_filter in Hx as [E Hx].
      apply Hout. rewrite <- E. by apply list_elem_of_fmap_2.
Qed.

Lemma filter_first (events : list FileWatcher.RiskyFileEvent) (p : string) :
  p ∈ FileWatcher.matchedPattern <$> events ->
  exists e, head (filter (fun e => FileWatcher.matchedPattern e = p) events) = Some e
            /\ FirstFor events p e.
Proof.
  induction events as [|a events IH]; intros Hp; [by apply elem_of_nil in Hp|].
  rewrite filter_cons. destruct (decide (FileWatcher.matchedPattern a = p)) as [Ha|Ha].
  - exists a. split; [done|]. exists [], events. split; [done|]. split; [done|].
    intros x Hx. by apply elem_of_nil in Hx.
  - rewrite fmap_cons in Hp. apply elem_of_cons in Hp as [Hp|Hp]; [congruence|].
    destruct (IH Hp) as (e & He & pre & post & -> & Hm & Hpre).
    exists e. split; [done|]. exists (a :: pre), post. split; [done|]. split; [done|].
    intros x Hx. apply elem_of_cons in Hx as [->|Hx]; [done|by apply Hpre].
Qed.

Lemma uniqueRules_eq (events : list FileWatcher.RiskyFileEvent) :
  exists rules,
    uniqueRules (foldl byPatternStep [] events) = Some rules
    /\ Forall2 (fun p r => exists e, FirstFor events p e /\ FileWatcher.rule e = r)
               (firstOccurrences (FileWatcher.matchedPattern <$> events)) rules.
Proof.
  unfold uniqueRules. rewrite byPattern_grouping.
  set (keys := firstOccurrences (FileWatcher.matchedPattern <$> events)).
  assert (Hk : forall p, p ∈ keys -> p ∈ FileWatcher.matchedPattern <$> events)
    by (intros p; apply firstOccurrences_elem).
  assert (Hn : NoDup keys) by apply firstOccurrences_NoDup.
  unfold mapKeys. rewrite <- list_fmap_compose.
  assert (Hid : (fst ∘ (fun p => (p, filter (fun e => FileWatcher.matchedPattern e = p) events)))
                <$> keys = keys).
  { rewrite <- (list_fmap_id keys) at 2. by apply list_fmap_ext. }
  rewrite Hid.
  assert (Hall : forall ks, ks ⊆ keys ->
            exists rules,
              mapM (fun p =>
                      evs ← mapGet p ((fun p => (p, filter (fun e =>
                               FileWatcher.matchedPattern e = p) events)) <$> keys);
                      event ← head evs; Some (FileWatcher.rule event)) ks = Some rules
              /\ Forall2 (fun p r => exists e, FirstFor events p e
                                               /\ FileWatcher.rule e = r) ks rules).
  { induction ks as [|k ks IH]; intros Hsub.
    - exists []. split; [done|constructor].
    - destruct IH as (rules & Hr & Hf); [set_solver|].
      assert (Hin : k ∈ keys) by set_solver.
      destruct (filter_first events k (Hk k Hin)) as (e & He & Hfirst).
      exists (FileWatcher.rule e :: rules). split.
      + simpl. rewrite mapGet_keyed, decide_True by done. simpl. rewrite He. simpl.
        rewrite Hr. done.
      + constructor; [|done]. by exists e. }
  apply Hall. done.
Qed.

(** Property X21. The rules that the choice [Add All to .gitignore] of
    the batch warning adds are, for each pattern matched by the events,
    in the order in which the patterns first occur, the rule of the
    first event with that pattern; there are no more of them than
    events. [showBatchNotification] returns and leaves the session as it
    is; the host changes only with a workspace folder and that choice,
    and then as [addPatterns] on these rules, without a label, changes
    it; when the ignore file can be read (or is absent), its text
    before is an initial part of its text after. *)
Theorem batch_add_all (events : list FileWatcher.RiskyFileEvent)
    (hasFolder : bool) (answer : option string) (s : session) (w : world) :
  exists rules w',
    uniqueRules (foldl byPatternStep [] events) = Some rules
    /\ Forall2 (fun p r => exists e, FirstFor events p e /\ FileWatcher.rule e = r)
               (firstOccurrences (FileWatcher.matchedPattern <$> events)) rules
    /\ length rules <= length events
    /\ showBatchNotification hasFolder answer events s w = (inl s, w')
    /\ (readFault w = None -> IsPrefix (content w) (content w'))
    /\ (w' <> w -> hasFolder = true /\ answer = Some "Add All to .gitignore")
    /\ (hasFolder = true -> answer = Some "Add All to .gitignore" ->
        exists r, addPatterns rules None w = (inl r, w')).
Proof.
  destruct (uniqueRules_eq events) as (rules & Hu & Hf).
  assert (Hlen : length rules <= length events).
  { rewrite <- (Forall2_length _ _ _ Hf), <- (length_fmap FileWatcher.matchedPattern events).
    generalize (FileWatcher.matchedPattern <$> events). intros l.
    induction l as [|x l IH]; [done|]. simpl.
    pose proof (length_filter (fun y => y <> x) (firstOccurrences l)). lia. }
  assert (Hrefl : IsPrefix (content w) (content w)) by (exists ""; by rewrite sapp_nil_r).
  unfold showBatchNotification. cbv zeta. rewrite Hu.
  destruct hasFolder; cbn [negb].
  - destruct answer as [result|].
    + destruct (String.eqb_spec result "Add All to .gitignore") as [->|Hne].
      * unfold bind. destruct (addPatterns_returns rules None w) as (r & w' & Hadd & Hpre).
        rewrite Hadd. exists rules, w'. repeat (split; [done|]).
        intros _ _. by exists r.
      * exists rules, w. repeat (split; [done|]). intros _ [= ->]. done.
    + exists rules, w. repeat (split; [done|]). done.
  - exists rules, w. repeat (split; [done|]). done.
Qed.

End Watcher.
